(** * Data-driven discretization in 1D: the coefficient / derivative pipeline

    A shallow embedding of [pde_superresolution/model.py] and of the loss
    calibration of [pde_superresolution/training.py].

    Conventions of the embedding.
    - A tensor is what TensorFlow and NumPy make of it: a static shape and a
      flat row-major buffer.  Every library primitive ([tf.reshape],
      [tf.reduce_mean], [tf.tile], ...) is given by its shape and by the value
      it holds at each multi-index.
    - float32 values are modelled by exact rationals ([Q]): rounding error,
      infinities and NaN are outside the model, and equalities between
      computed values are stated with [Qeq].
    - Python exceptions are values of [exn]; a function that can raise
      returns a [result].
    - The functions of [model.py] run in a small state-and-error monad [TF]
      whose state is the trace of tensor operations invoked so far; the
      NumPy code of [training.py] is eager and lives in [result]. *)

From Stdlib Require Import ZArith QArith Qround Lia Lqa List.
From stdpp Require Import base list gmap strings.
Import ListNotations.

Local Open Scope nat_scope.

(* ================================================================== *)
(** * Tensors: shapes, row-major indexing, tabulation                   *)
(* ================================================================== *)

Module Tensor.

(** Number of elements of a shape. *)
Fixpoint num_elements (sh : list nat) : nat :=
  match sh with
  | [] => 1
  | d :: sh' => d * num_elements sh'
  end.

(** Row-major offset of a multi-index. *)
Fixpoint ravel (sh idx : list nat) : nat :=
  match sh, idx with
  | _ :: sh', i :: idx' => i * num_elements sh' + ravel sh' idx'
  | _, _ => 0
  end.

(** Multi-index of a row-major offset. *)
Fixpoint unravel (sh : list nat) (n : nat) : list nat :=
  match sh with
  | [] => []
  | _ :: sh' => (n / num_elements sh') :: unravel sh' (n mod num_elements sh')
  end.

(** [idx] addresses an element of a tensor of shape [sh]. *)
Definition in_range (sh idx : list nat) : Prop := Forall2 lt idx sh.

Record tensor : Type := mkTensor { shape : list nat; data : list Q }.

Definition rank (t : tensor) : nat := length (shape t).

(** The buffer has as many elements as the shape says. *)
Definition wf (t : tensor) : Prop := length (data t) = num_elements (shape t).

Definition wfb (t : tensor) : bool :=
  Nat.eqb (length (data t)) (num_elements (shape t)).

(** Element at a multi-index. *)
Definition get (t : tensor) (idx : list nat) : Q :=
  nth (ravel (shape t) idx) (data t) 0%Q.

(** The tensor of shape [sh] holding [f idx] at every multi-index. *)
Definition tabulate (sh : list nat) (f : list nat -> Q) : tensor :=
  {| shape := sh;
     data := map (fun n => f (unravel sh n)) (seq 0 (num_elements sh)) |}.

(** Same buffer, another shape (the caller checks the element count). *)
Definition with_shape (t : tensor) (sh : list nat) : tensor :=
  {| shape := sh; data := data t |}.

Definition zeros (sh : list nat) : tensor := tabulate sh (fun _ => 0%Q).

End Tensor.
Export Tensor.

(* ================================================================== *)
(** * Python exceptions, results, and the trace of tensor operations    *)
(* ================================================================== *)

Inductive exn : Type :=
| ValueError
| ZeroDivisionError
| AttributeError
| IndexError
| KeyError
| AssertionError
| InvalidArgumentError   (* raised by a TensorFlow kernel or by shape inference *)
| FloatingPointError.    (* a float that is not finite where the model needs a number *)

Inductive result (A : Type) : Type :=
| Ok (a : A)
| Raise (e : exn).
Arguments Ok {A} a.
Arguments Raise {A} e.

#[global] Instance result_ret : MRet result := fun A a => Ok a.
#[global] Instance result_bind : MBind result :=
  fun A B f m => match m with Ok a => f a | Raise e => Raise e end.

(** The tensor operations of the TensorFlow (and layers) API used by the
    model, as they appear in the trace. *)
Inductive tfop : Type :=
| OpReshape | OpMean | OpStridedSlice | OpExpandDims | OpSqueeze
| OpGetVariable | OpTile | OpBatchNormalization | OpConv1DPeriodic
| OpSub | OpPadPeriodic | OpExtractImagePatches | OpEinsum
| OpConcat | OpStack | OpPolynomialAccuracy | OpEquationOfMotion.

Definition trace : Type := list tfop.

(** A computation that invokes tensor operations and may raise. *)
Definition TF (A : Type) : Type := trace -> result A * trace.

#[global] Instance TF_ret : MRet TF := fun A a g => (Ok a, g).
#[global] Instance TF_bind : MBind TF :=
  fun A B f m g =>
    match m g with
    | (Ok a, g') => f a g'
    | (Raise e, g') => (Raise e, g')
    end.

(** [raise ValueError(...)]. *)
Definition raise {A : Type} (e : exn) : TF A := fun g => (Raise e, g).

(** A step of plain Python (integer arithmetic, attribute access): it may
    raise but invokes no tensor operation. *)
Definition py {A : Type} (r : result A) : TF A := fun g => (r, g).

(** One call into the tensor library: the call is recorded, then it returns
    or raises. *)
Definition tf_op {A : Type} (o : tfop) (r : result A) : TF A :=
  fun g => (r, g ++ [o]).

(** Outcome and final trace of a computation started on an empty trace. *)
Definition outcome {A : Type} (m : TF A) : result A := fst (m []).
Definition invoked {A : Type} (m : TF A) : trace := snd (m []).

Definition is_ok {A : Type} (r : result A) : bool :=
  match r with Ok _ => true | Raise _ => false end.

(** Python's [%] and [//] on integers: floor semantics, the sign of the
    divisor, and [ZeroDivisionError] for a zero divisor. *)
Definition py_mod (a b : Z) : result Z :=
  if Z.eqb b 0 then Raise ZeroDivisionError else Ok (a mod b)%Z.

Definition py_floordiv (a b : Z) : result Z :=
  if Z.eqb b 0 then Raise ZeroDivisionError else Ok (a / b)%Z.

(* ================================================================== *)
(** * Rational sums and means                                           *)
(* ================================================================== *)

Definition qsum (l : list Q) : Q := fold_right Qplus 0%Q l.

(** Sum of [f 0 .. f (n-1)]. *)
Definition sum_upto (n : nat) (f : nat -> Q) : Q := qsum (map f (seq 0 n)).

Definition Qnat (n : nat) : Q := inject_Z (Z.of_nat n).

(** Mean of [f 0 .. f (n-1)].  Division by zero yields 0 in [Q], so the
    mean of no entries is 0 here (it is NaN in floating point). *)
Definition mean_upto (n : nat) (f : nat -> Q) : Q := (sum_upto n f / Qnat n)%Q.

(* ================================================================== *)
(** * The tensor library: TensorFlow and NumPy primitives               *)
(* ================================================================== *)

Definition dim (t : tensor) (i : nat) : nat := nth i (shape t) 0.

Definition last_dim (t : tensor) : nat := List.last (shape t) 1.

Definition prodZ (l : list Z) : Z := fold_right Z.mul 1%Z l.

(** Target shape of [tf.reshape]: at most one entry is -1 and is inferred
    from the element count; the kernel refuses to infer it when the
    specified sizes multiply to zero, and refuses a shape whose element count
    differs from the input's. *)
Definition resolve_shape (n : nat) (dims : list Z) : result (list nat) :=
  if existsb (fun d => Z.ltb d (-1)) dims then Raise InvalidArgumentError
  else
    let known := List.filter (fun d => negb (Z.eqb d (-1))) dims in
    let unknown := length dims - length known in
    let p := prodZ known in
    if unknown =? 0 then
      if Z.eqb p (Z.of_nat n) then Ok (map Z.to_nat dims)
      else Raise InvalidArgumentError
    else if unknown =? 1 then
      if Z.leb p 0 then Raise InvalidArgumentError
      else if negb (Z.eqb (Z.of_nat n mod p) 0) then Raise InvalidArgumentError
      else Ok (map (fun d => if Z.eqb d (-1) then Z.to_nat (Z.of_nat n / p)
                             else Z.to_nat d) dims)
    else Raise InvalidArgumentError.

(** [tf.reshape(t, dims)]. *)
Definition tf_reshape (t : tensor) (dims : list Z) : TF tensor :=
  tf_op OpReshape
    (sh ← resolve_shape (num_elements (shape t)) dims; mret (with_shape t sh)).

(** Python's axis normalisation: a negative axis counts from the end. *)
Definition normalize_axis (r : nat) (axis : Z) : result nat :=
  let a := if Z.ltb axis 0 then (axis + Z.of_nat r)%Z else axis in
  if Z.ltb a 0 || Z.leb (Z.of_nat r) a then Raise ValueError
  else Ok (Z.to_nat a).

(** Mean along one axis; with [keepdims] the axis stays, with size 1. *)
Definition reduce_mean_axis (t : tensor) (ax : nat) (keepdims : bool) : tensor :=
  let sh := shape t in
  let d := nth ax sh 0 in
  let kept := if keepdims then [1] else [] in
  tabulate (take ax sh ++ kept ++ drop (S ax) sh)
    (fun idx => mean_upto d (fun k =>
       get t (take ax idx ++ [k] ++ drop (ax + length kept) idx))).

(** [tf.reduce_mean(t, axis=axis, keepdims=keepdims)]. *)
Definition tf_reduce_mean (t : tensor) (axis : Z) (keepdims : bool) : TF tensor :=
  tf_op OpMean
    (ax ← normalize_axis (rank t) axis; mret (reduce_mean_axis t ax keepdims)).

(** Indices selected by the Python slice [::step] on an axis of length [w]
    (the step is not zero). *)
Definition slice_indices (w : nat) (step : Z) : list nat :=
  if Z.ltb 0 step then
    let s := Z.to_nat step in
    map (fun j => j * s) (seq 0 ((w + s - 1) / s))
  else
    let s := Z.to_nat (- step) in
    map (fun j => w - 1 - j * s) (seq 0 ((w + s - 1) / s)).

(** [t[:, ::step]] on a [batch, x] tensor. *)
Definition tf_strided_columns (t : tensor) (step : Z) : TF tensor :=
  tf_op OpStridedSlice
    (match shape t with
     | [b; w] =>
         let cols := slice_indices w step in
         Ok (tabulate [b; length cols]
               (fun idx => match idx with
                           | [i; j] => get t [i; nth j cols 0]
                           | _ => 0%Q
                           end))
     | _ => Raise ValueError
     end).

(** [t[..., tf.newaxis]]. *)
Definition tf_expand_dims_last (t : tensor) : TF tensor :=
  tf_op OpExpandDims (Ok (with_shape t (shape t ++ [1]))).

(** [tf.squeeze(t, axis=ax)]: the axis must have size 1. *)
Definition tf_squeeze (t : tensor) (ax : nat) : TF tensor :=
  tf_op OpSqueeze
    (if (ax <? rank t) && (nth ax (shape t) 0 =? 1)
     then Ok (with_shape t (take ax (shape t) ++ drop (S ax) (shape t)))
     else Raise ValueError).

(** [tf.tile(t, multiples)]. *)
Definition tf_tile (t : tensor) (multiples : list nat) : TF tensor :=
  tf_op OpTile
    (if length multiples =? rank t
     then Ok (tabulate (zip_with Nat.mul (shape t) multiples)
                (fun idx => get t (zip_with Nat.modulo idx (shape t))))
     else Raise ValueError).

(** [tf.extract_image_patches(images, ksizes=[1, size, 1, 1],
    strides=[1, 1, 1, 1], rates=[1, 1, 1, 1], padding='VALID')] on a
    [batch, rows, cols, depth] tensor: one patch per row position at which
    the window fits, the window's entries laid out along the last axis. *)
Definition tf_extract_image_patches (images : tensor) (size : nat) : TF tensor :=
  tf_op OpExtractImagePatches
    (match shape images with
     | [b; rows; cols; depth] =>
         if (size =? 0) || (rows + 1 <? size) then Raise InvalidArgumentError
         else Ok (tabulate [b; rows + 1 - size; cols; size * depth]
                    (fun idx => match idx with
                                | [i; r; c; j] =>
                                    get images [i; r + j / depth; c; j mod depth]
                                | _ => 0%Q
                                end))
     | _ => Raise ValueError
     end).

(** NumPy / TensorFlow broadcasting: shapes are aligned on the right; two
    sizes are compatible when they are equal or one of them is 1. *)
Fixpoint broadcast_rev (ra rb : list nat) : option (list nat) :=
  match ra, rb with
  | [], _ => Some rb
  | _, [] => Some ra
  | a :: ra', b :: rb' =>
      if a =? b then cons a <$> broadcast_rev ra' rb'
      else if a =? 1 then cons b <$> broadcast_rev ra' rb'
      else if b =? 1 then cons a <$> broadcast_rev ra' rb'
      else None
  end.

Definition broadcast_shapes (sa sb : list nat) : option (list nat) :=
  @rev nat <$> broadcast_rev (rev sa) (rev sb).

(** Where an operand of shape [sh] is read for the result's index [idx]. *)
Definition broadcast_index (sh idx : list nat) : list nat :=
  zip_with (fun d i => if d =? 1 then 0 else i) sh (drop (length idx - length sh) idx).

(** An elementwise binary operation with broadcasting. *)
Definition broadcast2 (f : Q -> Q -> Q) (a b : tensor) : result tensor :=
  match broadcast_shapes (shape a) (shape b) with
  | Some sh =>
      Ok (tabulate sh (fun idx => f (get a (broadcast_index (shape a) idx))
                                    (get b (broadcast_index (shape b) idx))))
  | None => Raise ValueError
  end.

(** A Python number used where an array is expected. *)
Definition scalar (c : Q) : tensor := tabulate [] (fun _ => c).

Definition np_sub : tensor -> tensor -> result tensor := broadcast2 Qminus.
Definition np_add : tensor -> tensor -> result tensor := broadcast2 Qplus.
Definition np_div : tensor -> tensor -> result tensor := broadcast2 Qdiv.

Definition qmaximum (a b : Q) : Q := if Qle_bool a b then b else a.

(** [np.maximum]. *)
Definition np_maximum : tensor -> tensor -> result tensor := broadcast2 qmaximum.

(** [t ** 2]. *)
Definition np_square (t : tensor) : tensor :=
  tabulate (shape t) (fun idx => (get t idx ^ 2)%Q).

(** [np.zeros_like]. *)
Definition np_zeros_like (t : tensor) : tensor := zeros (shape t).

(** [np.stack] of a pair of arrays, along a new leading axis. *)
Definition np_stack2 (a b : tensor) : result tensor :=
  if decide (shape a = shape b)
  then Ok (tabulate (2 :: shape a)
             (fun idx => match idx with
                         | 0 :: r => get a r
                         | _ :: r => get b r
                         | [] => 0%Q
                         end))
  else Raise ValueError.

(** [np.mean(t, axis=(1, 2))]. *)
Definition np_mean_axes12 (t : tensor) : result tensor :=
  match shape t with
  | h :: n :: x :: rest =>
      Ok (tabulate (h :: rest)
            (fun idx => match idx with
                        | i :: r =>
                            (sum_upto n (fun j => sum_upto x (fun k => get t (i :: j :: k :: r)))
                             / Qnat (n * x))%Q
                        | [] => 0%Q
                        end))
  | _ => Raise ValueError
  end.

Fixpoint insert_sorted (x : Q) (l : list Q) : list Q :=
  match l with
  | [] => [x]
  | y :: l' => if Qle_bool x y then x :: y :: l' else y :: insert_sorted x l'
  end.

Definition sort_values (l : list Q) : list Q := fold_right insert_sorted [] l.

(** The [q]-quantile ([0 <= q <= 1]) of a sample, by NumPy's default linear
    interpolation between the two closest ranks.  An empty sample has no
    quantile (NumPy yields NaN, which the model does not have); the value
    given here for it is the buffer default, 0. *)
Definition quantile_linear (values : list Q) (q : Q) : Q :=
  let sorted := sort_values values in
  let n := length values in
  let position := (q * (Qnat n - 1))%Q in
  let below := Qfloor position in
  let above := Z.min (below + 1) (Z.of_nat n - 1) in
  let weight_above := (position - inject_Z below)%Q in
  let weight_below := (1 - weight_above)%Q in
  (nth (Z.to_nat below) sorted 0 * weight_below
   + nth (Z.to_nat above) sorted 0 * weight_above)%Q.

(** The entries of [t] along its first two axes, at trailing index [r]. *)
Definition values_axes01 (t : tensor) (n x : nat) (r : list nat) : list Q :=
  flat_map (fun i => map (fun j => get t (i :: j :: r)) (seq 0 x)) (seq 0 n).

(** [np.percentile(t, percentile, axis=(0, 1))]; a percentile outside
    [0, 100] is a [ValueError]. *)
Definition np_percentile_axes01 (t : tensor) (percentile : Q) : result tensor :=
  let q := (percentile / 100)%Q in
  if Qle_bool 0 q && Qle_bool q 1 then
    match shape t with
    | n :: x :: rest =>
        Ok (tabulate rest (fun r => quantile_linear (values_axes01 t n x r) q))
    | _ => Raise ValueError
    end
  else Raise ValueError.

Definition Qpositive (x : Q) : bool := negb (Qle_bool x 0).

(** A NumPy float as far as a division can tell: a number, or the inf
    that dividing by zero yields (with a warning, not an exception). *)
Inductive np_float : Type :=
| Finite (q : Q)
| Infinite.

(** [1.0 / x] for one entry. *)
Definition np_reciprocal (x : Q) : np_float :=
  if Qeq_bool x 0 then Infinite else Finite (1 / x).

(** [np.where(condition, x, y)] for one entry: both [x] and [y] have been
    evaluated. *)
Definition np_where (condition : bool) (x y : np_float) : np_float :=
  if condition then x else y.

(** The tensors of the model hold numbers: an inf has no place in them,
    which the model renders as [FloatingPointError]. *)
Definition np_finite (v : np_float) : result Q :=
  match v with
  | Finite q => Ok q
  | Infinite => Raise FloatingPointError
  end.

(** [np.where(t > 0, 1.0 / t, 0)]: the condition and the reciprocal are
    computed for every entry, then one of the two is selected. *)
Definition np_where_positive_reciprocal (t : tensor) : result tensor :=
  let condition := map Qpositive (data t) in
  let reciprocal := map np_reciprocal (data t) in
  let selected := zip_with (fun c r => np_where c r (Finite 0)) condition reciprocal in
  values ← mapM np_finite selected;
  mret {| shape := shape t; data := values |}.

(* ================================================================== *)
(** * Configuration and external collaborators                          *)
(* ================================================================== *)

(** The hyper-parameters read by the modelled functions
    ([training.create_hparams]). *)
Record HParams : Type := {
  equation : string;
  conservative : bool;
  resample_factor : Z;
  resample_method : string;
  num_layers : Z;
  filter_size : nat;
  polynomial_accuracy_order : Z;
  polynomial_accuracy_scale : Q;
  ensure_unbiased_coefficients : bool;
  coefficient_grid_min_size : nat;
  relative_error_weight : Q;
  time_derivative_weight : Q;
  error_floor_quantile : Q
}.

(** Python is dynamically typed: the object handed to a function as its
    [hparams] argument is whatever the caller passes. *)
Inductive pyval : Type :=
| PyTensor (t : tensor)
| PyHParams (h : HParams).

(** Attribute access [hparams.<name>]: a tensor has none of the
    hyper-parameter attributes. *)
Definition attrs (o : pyval) : result HParams :=
  match o with
  | PyHParams h => Ok h
  | PyTensor _ => Raise AttributeError
  end.

Inductive GridOffset : Type := Centered | OffsetLeft.

(** The equation interface ([equations.Equation]): the derivative orders it
    needs, its grid convention, its grid spacing for a number of grid points,
    and its equation of motion from the field and the spatial derivatives
    keyed by order. *)
Record EquationType : Type := {
  DERIVATIVE_ORDERS : list nat;
  GRID_OFFSET : GridOffset;
  dx : nat -> Q;
  equation_of_motion : nat -> tensor -> gmap nat tensor -> tensor
}.

(** An equation instance: [equation_type(num_points)]. *)
Record Equation : Type := { equation_type_of : EquationType; num_points : nat }.

(** Modelled from the spec: [polynomials.PolynomialAccuracyLayer] (the module
    is not among the sources).  The layer holds a particular solution of the
    accuracy constraints and a basis of their nullspace; applied to raw
    vectors of nullspace dimension it yields
    particular_solution + nullspace_basis . (out_scale . raw_vector). *)
Record PolynomialAccuracyLayer : Type := {
  input_size : nat;
  particular_solution : list Q;
  nullspace_basis : nat -> nat -> Q;
  out_scale : Q
}.

(** What the model takes from outside [model.py] and [training.py]: the
    equation catalogue, the finite-difference helpers of [polynomials], the
    centering convention of [layers.pad_periodic], and the values computed
    by the learned parts (variables, normalisation, convolutions), which are
    arbitrary functions of their inputs. *)
Record Externals : Type := {
  equation_catalogue : string -> bool -> result EquationType;
  regular_finite_difference_grid :
    GridOffset -> nat -> option nat -> option Q -> list Z;
  apply_finite_differences : tensor -> list Z -> nat -> tensor;
  make_polynomial_accuracy_layer :
    list Z -> nat -> Z -> Q -> result PolynomialAccuracyLayer;
  centering_offset : nat -> nat;
  variable_value : list nat -> list nat -> Q;
  batch_normalization_value : bool -> tensor -> list nat -> Q;
  conv1d_value : nat -> nat -> bool -> tensor -> list nat -> Q
}.

(* ================================================================== *)
(** * model.py                                                          *)
(* ================================================================== *)

(** The guard shared by [resample_mean] and [subsample]:
    [len(inputs.shape) != 2 or inputs.shape[1].value % factor].
    Python's [or] does not evaluate its right operand when the left one
    holds. *)
Definition invalid_input_shape (inputs : tensor) (factor : Z) : result bool :=
  if negb (rank inputs =? 2) then Ok true
  else r ← py_mod (Z.of_nat (dim inputs 1)) factor; mret (negb (Z.eqb r 0)).

Definition resample_mean (inputs : tensor) (factor : Z) : TF tensor :=
  invalid ← py (invalid_input_shape inputs factor);
  if (invalid : bool) then raise ValueError
  else
    width ← py (py_floordiv (Z.of_nat (dim inputs 1)) factor);
    reshaped ← tf_reshape inputs [(-1)%Z; width; factor];
    tf_reduce_mean reshaped 2 false.

Definition subsample (inputs : tensor) (factor : Z) : TF tensor :=
  invalid ← py (invalid_input_shape inputs factor);
  if (invalid : bool) then raise ValueError
  else tf_strided_columns inputs factor.

(** [{order: value for order, value in pairs}]: a later pair overrides an
    earlier one with the same key. *)
Definition py_dict (pairs : list (nat * tensor)) : gmap nat tensor :=
  foldl (fun m kv => <[kv.1 := kv.2]> m) ∅ pairs.

(** [tf.einsum('bxdi,bxi->bxd', coefficients, patches)]. *)
Definition tf_einsum_bxdi_bxi (coefficients patches : tensor) : TF tensor :=
  tf_op OpEinsum
    (match shape coefficients, shape patches with
     | [b; x; d; i], [b'; x'; i'] =>
         if (b =? b') && (x =? x') && (i =? i')
         then Ok (tabulate [b; x; d]
                    (fun idx => match idx with
                                | [ib; ix; id] =>
                                    sum_upto i (fun k =>
                                      get coefficients [ib; ix; id; k]
                                      * get patches [ib; ix; k])%Q
                                | _ => 0%Q
                                end))
         else Raise ValueError
     | _, _ => Raise ValueError
     end).

(** [t[..., i]]. *)
Definition tf_index_last (t : tensor) (i : nat) : TF tensor :=
  tf_op OpStridedSlice
    (if (0 <? rank t) && (i <? last_dim t)
     then Ok (tabulate (removelast (shape t)) (fun idx => get t (idx ++ [i])))
     else Raise ValueError).

(** [t[..., start:stop]]: Python clamps the bounds to the axis. *)
Definition tf_slice_last (t : tensor) (start stop : nat) : TF tensor :=
  tf_op OpStridedSlice
    (if 0 <? rank t
     then
       let stop' := Nat.min stop (last_dim t) in
       let start' := Nat.min start stop' in
       Ok (tabulate (removelast (shape t) ++ [stop' - start'])
             (fun idx => get t (removelast idx ++ [start' + List.last idx 0])))
     else Raise ValueError).

(** [tf.concat([a, b], axis=-1)]. *)
Definition tf_concat_last (a b : tensor) : TF tensor :=
  tf_op OpConcat
    (if (0 <? rank a) && bool_decide (removelast (shape a) = removelast (shape b))
        && (rank a =? rank b)
     then
       let da := last_dim a in
       Ok (tabulate (removelast (shape a) ++ [da + last_dim b])
             (fun idx =>
                let c := List.last idx 0 in
                if c <? da then get a idx
                else get b (removelast idx ++ [c - da])))
     else Raise ValueError).

(** [tf.stack(ts, axis=-2)] of tensors of one shape. *)
Definition tf_stack_axis_m2 (ts : list tensor) : TF tensor :=
  tf_op OpStack
    (match ts with
     | [] => Raise ValueError
     | t0 :: _ =>
         let sh := shape t0 in
         let r := length sh in
         if (0 <? r) && forallb (fun t => bool_decide (shape t = sh)) ts
         then Ok (tabulate (take (r - 1) sh ++ [length ts] ++ drop (r - 1) sh)
                    (fun idx => get (nth (nth (r - 1) idx 0) ts t0)
                                    (take (r - 1) idx ++ drop r idx)))
         else Raise ValueError
     end).

(** [outputs - mean] with broadcasting. *)
Definition tf_sub (a b : tensor) : TF tensor := tf_op OpSub (np_sub a b).

(** [inputs.shape[i].value]. *)
Definition shape_dim (t : tensor) (i : nat) : result nat :=
  match shape t !! i with
  | Some d => Ok d
  | None => Raise IndexError
  end.

(** [inputs.shape[-1].value]. *)
Definition shape_dim_last (t : tensor) : result nat :=
  if 0 <? rank t then Ok (last_dim t) else Raise IndexError.

(** [np.cumsum]. *)
Fixpoint cumsum_from (acc : nat) (l : list nat) : list nat :=
  match l with
  | [] => []
  | x :: l' => (acc + x) :: cumsum_from (acc + x) l'
  end.

Definition sum_list (l : list nat) : nat := fold_right Nat.add 0 l.

Section Model.
Variable ext : Externals.

(** Modelled from the spec: [equations.from_hparams] (the module is not
    among the sources) resolves the equation type from the configured
    equation name and conservative-form flag, both read as attributes of its
    argument. *)
Definition from_hparams (hparams : pyval) : result EquationType :=
  h ← attrs hparams;
  equation_catalogue ext (equation h) (conservative h).

Definition calculate_baseline_derivatives
    (inputs : tensor) (equation : Equation) : list tensor :=
  let et := equation_type_of equation in
  let spatial_derivatives_list :=
    map (fun derivative_order =>
           let grid := regular_finite_difference_grid ext (GRID_OFFSET et)
                         derivative_order None (Some (dx et (num_points equation))) in
           apply_finite_differences ext inputs grid derivative_order)
        (DERIVATIVE_ORDERS et) in
  let zipped := zip (DERIVATIVE_ORDERS et) spatial_derivatives_list in
  let spatial_derivatives := py_dict zipped in
  let time_derivative :=
    equation_of_motion et (num_points equation) inputs spatial_derivatives in
  spatial_derivatives_list ++ [time_derivative].

(** [tf.get_variable(name, shape)]: a learned array of the given shape. *)
Definition tf_get_variable (sh : list nat) : TF tensor :=
  tf_op OpGetVariable (Ok (tabulate sh (variable_value ext sh))).

(** [tf.layers.batch_normalization]: keeps the shape. *)
Definition batch_normalization (net : tensor) (training : bool) : TF tensor :=
  tf_op OpBatchNormalization
    (Ok (tabulate (shape net) (batch_normalization_value ext training net))).

(** Modelled from the spec: [layers.conv1d_periodic_layer] (the module is not
    among the sources), one layer of the learned filter.  On a
    [batch, x, channels] tensor it yields, per position, [filters] values; the
    values are those of a generic function approximator.  [layer] numbers the
    calls, each of which owns its weights. *)
Definition conv1d_periodic_layer
    (layer : nat) (net : tensor) (filters : nat) (relu : bool) : TF tensor :=
  tf_op OpConv1DPeriodic
    (match shape net with
     | [b; x; _] => Ok (tabulate [b; x; filters] (conv1d_value ext layer filters relu net))
     | _ => Raise ValueError
     end).

(** Modelled from the spec: [layers.pad_periodic] (the module is not among
    the sources).  On a [batch, x, channels] tensor it adds [padding] points
    along [x], wrapping indices modulo the width; when centred, the
    centering convention says how many of them go in front. *)
Definition pad_periodic (inputs : tensor) (padding : nat) (center : bool) : TF tensor :=
  tf_op OpPadPeriodic
    (match shape inputs with
     | [b; w; c] =>
         let offset := if center then centering_offset ext padding else 0 in
         Ok (tabulate [b; w + padding; c]
               (fun idx => match idx with
                           | [i; j; k] =>
                               get inputs
                                 [i; Z.to_nat ((Z.of_nat j - Z.of_nat offset) mod Z.of_nat w); k]
                           | _ => 0%Q
                           end))
     | _ => Raise ValueError
     end).

(** Modelled from the spec: [PolynomialAccuracyLayer.apply]. *)
Definition layer_apply (layer : PolynomialAccuracyLayer) (raw : tensor) : TF tensor :=
  tf_op OpPolynomialAccuracy
    (if (0 <? rank raw) && (last_dim raw =? input_size layer)
     then Ok (tabulate (removelast (shape raw) ++ [length (particular_solution layer)])
                (fun idx =>
                   let i := List.last idx 0 in
                   (nth i (particular_solution layer) 0
                    + sum_upto (input_size layer) (fun j =>
                        nullspace_basis layer i j
                        * (out_scale layer * get raw (removelast idx ++ [j]))))%Q))
     else Raise ValueError).

(** [for _ in range(n): net = conv1d_periodic_layer(net, filters=filter_size,
    kernel_size=3, activation=tf.nn.relu, center=True)]. *)
Fixpoint conv_stack (n layer : nat) (filters : nat) (net : tensor) : TF tensor :=
  match n with
  | O => mret net
  | S n' =>
      net' ← conv1d_periodic_layer layer net filters true;
      conv_stack n' (S layer) filters net'
  end.

(** [inputs[:, :, tf.newaxis]]. *)
Definition tf_newaxis_2 (t : tensor) : TF tensor :=
  tf_op OpExpandDims
    (if 2 <=? rank t
     then Ok (with_shape t (take 2 (shape t) ++ [1] ++ drop 2 (shape t)))
     else Raise ValueError).

(** [coefficients[tf.newaxis, tf.newaxis, :, :]]. *)
Definition tf_newaxis_00 (t : tensor) : TF tensor :=
  tf_op OpExpandDims
    (if 2 <=? rank t then Ok (with_shape t (1 :: 1 :: shape t))
     else Raise ValueError).

(** The polynomial-accuracy branch of [predict_coefficients]. *)
Definition polynomial_accuracy_outputs
    (hp : HParams) (et : EquationType) (grid : list Z) (layer : nat) (net : tensor)
    : TF tensor :=
  poly_accuracy_layers ←
    py (mapM (fun derivative_order =>
                make_polynomial_accuracy_layer ext grid derivative_order
                  (polynomial_accuracy_order hp) (polynomial_accuracy_scale hp))
             (DERIVATIVE_ORDERS et));
  let input_sizes := map input_size poly_accuracy_layers in
  net ← conv1d_periodic_layer layer net (sum_list input_sizes) false;
  let cum_sizes := cumsum_from 0 input_sizes in
  let starts := 0 :: removelast cum_sizes in
  let stops := cum_sizes in
  let zipped := zip starts (zip stops poly_accuracy_layers) in
  applied ←
    mapM (fun '(start, (stop, layer)) =>
            raw ← tf_slice_last net start stop; layer_apply layer raw)
         zipped;
  outputs ← tf_stack_axis_m2 applied;
  if last_dim outputs =? length grid then mret outputs
  else raise AssertionError.

Definition predict_coefficients
    (inputs : tensor) (hparams : pyval) (training : bool) : TF tensor :=
  equation_type ← py (from_hparams hparams);
  hp ← py (attrs hparams);
  let num_derivatives := length (DERIVATIVE_ORDERS equation_type) in
  let grid := regular_finite_difference_grid ext (GRID_OFFSET equation_type) 0
                (Some (coefficient_grid_min_size hp)) None in
  if Z.eqb (num_layers hp) 0 then
    coefficients ← tf_get_variable [num_derivatives; length grid];
    expanded ← tf_newaxis_00 coefficients;
    batch ← py (shape_dim inputs 0);
    x ← py (shape_dim inputs 1);
    tf_tile expanded [batch; x; 1; 1]
  else
    net ← tf_newaxis_2 inputs;
    net ← batch_normalization net training;
    let hidden := Z.to_nat (num_layers hp - 1) in
    net ← conv_stack hidden 0 (filter_size hp) net;
    if Z.eqb (polynomial_accuracy_order hp) 0 then
      net ← conv1d_periodic_layer hidden net (num_derivatives * length grid) false;
      let new_dims := [num_derivatives; length grid] in
      outputs ← tf_reshape net (map Z.of_nat (shape inputs ++ new_dims));
      if ensure_unbiased_coefficients hp then
        if bool_decide (0 ∈ DERIVATIVE_ORDERS equation_type) then raise ValueError
        else
          mean ← tf_reduce_mean outputs (-1) true;
          tf_sub outputs mean
      else mret outputs
    else polynomial_accuracy_outputs hp equation_type grid hidden net.

Definition extract_patches (inputs : tensor) (size : nat) : TF tensor :=
  expanded ← tf_expand_dims_last inputs;
  padded_inputs ← pad_periodic expanded (size - 1) true;
  images ← tf_expand_dims_last padded_inputs;
  extracted ← tf_extract_image_patches images size;
  tf_squeeze extracted 2.

Definition apply_coefficients (coefficients inputs : tensor) : TF tensor :=
  size ← py (shape_dim coefficients 3);
  patches ← extract_patches inputs size;
  tf_einsum_bxdi_bxi coefficients patches.

Definition predict_space_derivatives (inputs : tensor) (hparams : pyval) : TF tensor :=
  coefficients ← predict_coefficients inputs hparams true;
  apply_coefficients coefficients inputs.

(** [{d: derivatives[..., i] for i, d in enumerate(orders)}], from index
    [i] on. *)
Fixpoint derivatives_dict_from
    (derivatives : tensor) (i : nat) (orders : list nat) (acc : gmap nat tensor)
    : TF (gmap nat tensor) :=
  match orders with
  | [] => mret acc
  | d :: orders' =>
      channel ← tf_index_last derivatives i;
      derivatives_dict_from derivatives (S i) orders' (<[d := channel]> acc)
  end.

Definition apply_space_derivatives
    (derivatives inputs : tensor) (hparams : pyval) : TF tensor :=
  equation_type ← py (from_hparams hparams);
  n ← py (shape_dim_last inputs);
  derivatives_dict ←
    derivatives_dict_from derivatives 0 (DERIVATIVE_ORDERS equation_type) ∅;
  tf_op OpEquationOfMotion
    (Ok (equation_of_motion equation_type n inputs derivatives_dict)).

(** The spatial derivatives are predicted with [inputs] in the place of
    [hparams], as the source has it. *)
Definition predict_time_derivative (inputs : tensor) (hparams : pyval) : TF tensor :=
  space_derivatives ← predict_space_derivatives inputs (PyTensor inputs);
  apply_space_derivatives space_derivatives inputs hparams.

Definition stack_space_time (space_derivatives time_derivative : tensor) : TF tensor :=
  expanded ← tf_expand_dims_last time_derivative;
  tf_concat_last space_derivatives expanded.

Definition predict_all_derivatives (inputs : tensor) (hparams : pyval) : TF tensor :=
  space_derivatives ← predict_space_derivatives inputs hparams;
  time_derivative ← apply_space_derivatives space_derivatives inputs hparams;
  stack_space_time space_derivatives time_derivative.

End Model.

(** [loss_components]: squared error of the model, and the same relative to
    the floored squared error of the baseline. *)
Definition loss_components
    (predictions labels baseline error_floor : tensor) : result (tensor * tensor) :=
  diff ← np_sub labels predictions;
  let model_error := np_square diff in
  diff_baseline ← np_sub labels baseline;
  let baseline_error := np_square diff_baseline in
  denominator ← np_add baseline_error error_floor;
  relative_error ← np_div model_error denominator;
  mret (model_error, relative_error).

(* ================================================================== *)
(** * training.py: calibration of the loss                              *)
(* ================================================================== *)

(** The arrays loaded from the training dataset
    ([load_dataset(make_dataset(snapshots, hparams, training=True,
    repeat=False))]): the TensorFlow input pipeline is external and its
    result is taken as given. *)
Record LoadedData : Type := { labels : tensor; baseline : tensor }.

Definition error_floor_minimum : Q := 1 # 1000000000000.

Definition determine_loss_scales
    (data : LoadedData) (hparams : HParams) : result (tensor * tensor) :=
  diff ← np_sub (labels data) (baseline data);
  let baseline_error := np_square diff in
  let percentile := (100 * error_floor_quantile hparams)%Q in
  quantiles ← np_percentile_axes01 baseline_error percentile;
  error_floor ← np_maximum quantiles (scalar error_floor_minimum);
  let zero_predictions := np_zeros_like (labels data) in
  '(model_error, relative_error) ←
    loss_components zero_predictions (labels data) (baseline data) error_floor;
  components ← np_stack2 model_error relative_error;
  baseline_error ← np_mean_axes12 components;
  error_scale ← np_where_positive_reciprocal baseline_error;
  mret (error_floor, error_scale).

(* ================================================================== *)
(** * Notions used to state the properties                              *)
(* ================================================================== *)

(** [runs m r ops]: from any trace, [m] ends with outcome [r] after invoking
    exactly the operations [ops]. *)
Definition runs {A : Type} (m : TF A) (r : result A) (ops : trace) : Prop :=
  forall g, m g = (r, g ++ ops).

(** The condition under which the documentation promises a [ValueError]. *)
Definition not_resamplable (inputs : tensor) (factor : Z) : Prop :=
  rank inputs <> 2 \/ ~ (factor | Z.of_nat (dim inputs 1))%Z.

(** Index [z] wrapped into a periodic axis of width [w]. *)
Definition wrap (z : Z) (w : nat) : nat := Z.to_nat (z mod Z.of_nat w).

(** The field circularly shifted by [k] positions along its position axis
    (axis 1), as [np.roll(t, k, axis=1)] does. *)
Definition roll_positions (k : Z) (t : tensor) : tensor :=
  tabulate (shape t)
    (fun idx => match idx with
                | i :: x :: r => get t (i :: wrap (Z.of_nat x - k) (dim t 1) :: r)
                | _ => get t idx
                end).

(** The tensor [extract_patches] builds: the padded, patched buffer read
    under the squeezed shape. *)
Definition patches_of (ext : Externals) (t : tensor) (b w size : nat) : tensor :=
  let expanded := with_shape t [b; w; 1] in
  let padded :=
    tabulate [b; w + (size - 1); 1]
      (fun idx => match idx with
                  | [i; j; k] =>
                      get expanded
                        [i; Z.to_nat ((Z.of_nat j - Z.of_nat (centering_offset ext (size - 1)))
                                      mod Z.of_nat w); k]
                  | _ => 0%Q
                  end) in
  let images := with_shape padded [b; w + (size - 1); 1; 1] in
  let extracted :=
    tabulate [b; w + (size - 1) + 1 - size; 1; size * 1]
      (fun idx => match idx with
                  | [i; r; c; j] => get images [i; r + j / 1; c; j mod 1]
                  | _ => 0%Q
                  end) in
  with_shape extracted [b; w + (size - 1) + 1 - size; size * 1].

(** The grid of the coefficient stencil, as [predict_coefficients] asks for
    it. *)
Definition coefficient_grid (ext : Externals) (hp : HParams) (et : EquationType) : list Z :=
  regular_finite_difference_grid ext (GRID_OFFSET et) 0
    (Some (coefficient_grid_min_size hp)) None.

(** The operations invoked on the unconstrained path before the
    [ensure_unbiased_coefficients] flag is looked at. *)
Definition unconstrained_prefix (hp : HParams) : trace :=
  [OpExpandDims; OpBatchNormalization]
  ++ repeat OpConv1DPeriodic (Z.to_nat (num_layers hp - 1))
  ++ [OpConv1DPeriodic; OpReshape].


(** Channel [i] of a derivatives tensor: [derivatives[..., i]]. *)
Definition channel (derivatives : tensor) (i : nat) : tensor :=
  tabulate (removelast (shape derivatives)) (fun idx => get derivatives (idx ++ [i])).

(** The composition the documentation of [predict_time_derivative]
    describes: the spatial derivatives predicted under the given
    configuration, handed to the equation of motion. *)
Definition intended_time_derivative
    (ext : Externals) (inputs : tensor) (hparams : pyval) : TF tensor :=
  space_derivatives ← predict_space_derivatives ext inputs hparams;
  apply_space_derivatives ext space_derivatives inputs hparams.

(** The pairs of the comprehension in [apply_space_derivatives], from
    channel [i] on. *)
Fixpoint channel_pairs (derivatives : tensor) (i : nat) (orders : list nat)
    : list (nat * tensor) :=
  match orders with
  | [] => []
  | d :: orders' => (d, channel derivatives i) :: channel_pairs derivatives (S i) orders'
  end.

(** The squared errors of the baseline in channel [c], over the dataset. *)
Definition squared_baseline_errors (data : LoadedData) (n x c : nat) : list Q :=
  flat_map (fun i => map (fun j => ((get (labels data) [i; j; c]
                                     - get (baseline data) [i; j; c]) ^ 2)%Q)
                         (seq 0 x))
           (seq 0 n).

(** Mean over the dataset (batch and position) of channel [c] of a loss
    component. *)
Definition dataset_mean (component : tensor) (n x c : nat) : Q :=
  (sum_upto n (fun i => sum_upto x (fun j => get component [i; j; c])) / Qnat (n * x))%Q.

(** The quantile [determine_loss_scales] asks [np.percentile] for. *)
Definition configured_quantile (hparams : HParams) : Q :=
  (100 * error_floor_quantile hparams / 100)%Q.

(** Shape and reduced values of the tensor a computation returns. *)
Definition returned_values (r : result tensor) : option (list nat * list Q) :=
  match r with
  | Ok t => Some (shape t, map Qred (data t))
  | Raise _ => None
  end.

(* ================================================================== *)
(** * A concrete configuration                                          *)
(* ================================================================== *)

(** A Burgers-like equation type: the conservative form works from the
    field itself and its first derivative, the other from the first and
    second derivatives. *)
Definition example_equation (conservative : bool) : EquationType :=
  {| DERIVATIVE_ORDERS := if conservative then [0; 1] else [1; 2];
     GRID_OFFSET := Centered;
     dx := fun n => (1 / Qnat n)%Q;
     equation_of_motion := fun _ u derivatives =>
       match derivatives !! 1 with
       | Some u_x => tabulate (shape u) (fun idx => - (get u idx * get u_x idx))%Q
       | None => zeros (shape u)
       end |}.

Definition example_grid (n : nat) : list Z :=
  map (fun i => (Z.of_nat i - Z.of_nat (n / 2))%Z) (seq 0 n).

Definition example_externals : Externals :=
  {| equation_catalogue := fun name conservative =>
       if String.eqb name "burgers" then Ok (example_equation conservative)
       else Raise KeyError;
     regular_finite_difference_grid := fun _ order accuracy _ =>
       example_grid (match accuracy with Some a => a | None => order + 2 end);
     apply_finite_differences := fun t _ order =>
       tabulate (shape t) (fun idx => get t idx * Qnat (S order))%Q;
     make_polynomial_accuracy_layer := fun grid order accuracy scale =>
       if Z.ltb accuracy (Z.of_nat (length grid))
       then Ok {| input_size := length grid - (Z.to_nat accuracy + 1);
                  particular_solution := map inject_Z grid;
                  nullspace_basis := fun i j => Qnat (i + j);
                  out_scale := scale |}
       else Raise ValueError;
     centering_offset := fun padding => padding / 2;
     variable_value := fun sh idx => Qnat (ravel sh idx);
     batch_normalization_value := fun _ net idx => get net idx;
     conv1d_value := fun layer _ _ net idx =>
       Qmult (get net [nth 0 idx 0; nth 1 idx 0; 0]) (Qnat (S layer + nth 2 idx 0)) |}.

Definition example_hparams
    (layers order : Z) (unbiased conservative_form : bool) : HParams :=
  {| equation := "burgers";
     conservative := conservative_form;
     resample_factor := 4;
     resample_method := "subsample";
     num_layers := layers;
     filter_size := 2;
     polynomial_accuracy_order := order;
     polynomial_accuracy_scale := 1;
     ensure_unbiased_coefficients := unbiased;
     coefficient_grid_min_size := 4;
     relative_error_weight := 1 # 1000000;
     time_derivative_weight := 1;
     error_floor_quantile := 1 # 10 |}.

(** A one-row field with values 0, 1, ..., [w - 1]. *)
Definition example_field (w : nat) : tensor :=
  tabulate [1; w] (fun idx => Qnat (nth 1 idx 0)).

(** A small dataset of two snapshots, two positions and two channels. *)
Definition example_data : LoadedData :=
  {| labels := tabulate [2; 2; 2] (fun idx => Qnat (S (ravel [2; 2; 2] idx)));
     baseline := tabulate [2; 2; 2] (fun idx => Qnat (nth 1 idx 0)) |}.

(** A degenerate dataset: the baseline reproduces the labels exactly, and
    the labels of channel 1 are all zero. *)
Definition degenerate_data : LoadedData :=
  let values := tabulate [2; 2; 2]
                  (fun idx => if nth 2 idx 0 =? 0 then Qnat (S (nth 1 idx 0)) else 0%Q) in
  {| labels := values; baseline := values |}.

(* ================================================================== *)
(** * The training loss and its data-dependent hyper-parameters         *)
(* ================================================================== *)

(** The hyper-parameters as training sees them: those read by the model,
    the further entries of [training.create_hparams], and the two entries
    [add_data_dependent_hparams] adds, absent until then.  [error_scale] is
    a flat list of floats; [error_floor] is a list of floats, held as the
    array it converts to. *)
Record TrainingHParams : Type := {
  base_hparams : HParams;
  base_batch_size : Z;
  learning_rates : list Q;
  learning_stops : list Z;
  frac_training : Q;
  eval_interval : Z;
  error_scale : option (list Q);
  error_floor : option tensor
}.

(** [hparams.<name>] for an entry that may not have been added. *)
Definition hparam {A : Type} (entry : option A) : result A :=
  match entry with
  | Some v => Ok v
  | None => Raise AttributeError
  end.

(** [np.asarray(l).reshape(2, -1)]. *)
Definition np_reshape_2_rows (l : list Q) : result tensor :=
  if Nat.even (length l) then Ok {| shape := [2; length l / 2]; data := l |}
  else Raise ValueError.

(** [tf.reduce_mean(t, axis=(0, 1))]. *)
Definition tf_reduce_mean_axes01 (t : tensor) : result tensor :=
  match shape t with
  | n :: x :: rest =>
      Ok (tabulate rest
            (fun r => (sum_upto n (fun i => sum_upto x (fun j => get t (i :: j :: r)))
                       / Qnat (n * x))%Q))
  | _ => Raise ValueError
  end.

(** [a * b] with broadcasting. *)
Definition np_mul : tensor -> tensor -> result tensor := broadcast2 Qmult.

(** [a / b] of a Python float by a Python integer. *)
Definition py_truediv (a : Q) (b : Z) : result Q :=
  if Z.eqb b 0 then Raise ZeroDivisionError else Ok (a / inject_Z b)%Q.

(** [a[:, tf.newaxis] * b[tf.newaxis, :]] of two vectors. *)
Definition outer_product (a b : list Q) : tensor :=
  tabulate [length a; length b]
    (fun idx => (nth (nth 0 idx 0%nat) a 0 * nth (nth 1 idx 0%nat) b 0)%Q).

(** [tf.reduce_sum(t)]: a scalar tensor. *)
Definition tf_reduce_sum (t : tensor) : tensor := scalar (qsum (data t)).

Definition calculate_loss
    (predictions labels baseline : tensor) (hparams : TrainingHParams)
    : result tensor :=
  scale_list ← hparam (error_scale hparams);
  error_scale ← np_reshape_2_rows scale_list;
  error_floor ← hparam (error_floor hparams);
  '(model_error, relative_error) ←
    loss_components predictions labels baseline error_floor;
  mean_model_error ← tf_reduce_mean_axes01 model_error;
  mean_relative_error ← tf_reduce_mean_axes01 relative_error;
  loss_per_head ← np_stack2 mean_model_error mean_relative_error;
  normalized_loss_per_head ← np_mul loss_per_head error_scale;
  let abs_rel_weights :=
    [(1 - relative_error_weight (base_hparams hparams))%Q;
     relative_error_weight (base_hparams hparams)] in
  let w_time := time_derivative_weight (base_hparams hparams) in
  channels ← shape_dim_last labels;
  let num_space := (Z.of_nat channels - 1)%Z in
  per_space ← py_truediv (1 - w_time)%Q num_space;
  let space_time_weights := repeat per_space (Z.to_nat num_space) ++ [w_time] in
  let weights := outer_product abs_rel_weights space_time_weights in
  weighted ← np_mul weights normalized_loss_per_head;
  mret (tf_reduce_sum weighted).

(** [hparams.add_hparam('error_scale', value)]: [HParams.add_hparam]
    refuses a name the object already has.  The object is modified in
    place: the second component is what the call raises, if anything. *)
Definition add_hparam_error_scale
    (hparams : TrainingHParams) (value : list Q) : TrainingHParams * result unit :=
  match error_scale hparams with
  | Some _ => (hparams, Raise ValueError)
  | None =>
      ({| base_hparams := base_hparams hparams;
          base_batch_size := base_batch_size hparams;
          learning_rates := learning_rates hparams;
          learning_stops := learning_stops hparams;
          frac_training := frac_training hparams;
          eval_interval := eval_interval hparams;
          error_scale := Some value;
          error_floor := error_floor hparams |}, Ok tt)
  end.

(** [hparams.add_hparam('error_floor', value)]. *)
Definition add_hparam_error_floor
    (hparams : TrainingHParams) (value : tensor) : TrainingHParams * result unit :=
  match error_floor hparams with
  | Some _ => (hparams, Raise ValueError)
  | None =>
      ({| base_hparams := base_hparams hparams;
          base_batch_size := base_batch_size hparams;
          learning_rates := learning_rates hparams;
          learning_stops := learning_stops hparams;
          frac_training := frac_training hparams;
          eval_interval := eval_interval hparams;
          error_scale := error_scale hparams;
          error_floor := Some value |}, Ok tt)
  end.

Definition add_data_dependent_hparams
    (hparams : TrainingHParams) (data : LoadedData)
    : TrainingHParams * result unit :=
  match determine_loss_scales data (base_hparams hparams) with
  | Raise e => (hparams, Raise e)
  | Ok (floor, scale) =>
      match add_hparam_error_scale hparams (Tensor.data scale) with
      | (hparams, Raise e) => (hparams, Raise e)
      | (hparams, Ok _) => add_hparam_error_floor hparams floor
      end
  end.
(* ================================================================== *)
(** * model.py: the model inputs                                        *)
(* ================================================================== *)

(** The table of resampling functions, looked up by method name. *)
Definition _RESAMPLE_FUNCS (method : string) : result (tensor -> Z -> TF tensor) :=
  if String.eqb method "mean" then Ok resample_mean
  else if String.eqb method "subsample" then Ok subsample
  else Raise KeyError.

(** [tf.stack(ts, axis=-1)] of tensors of one shape. *)
Definition tf_stack_last (ts : list tensor) : TF tensor :=
  match ts with
  | [] => raise IndexError
  | t0 :: _ =>
      tf_op OpStack
        (if forallb (fun t => bool_decide (shape t = shape t0)) ts
         then Ok (tabulate (shape t0 ++ [length ts])
                    (fun idx => get (nth (List.last idx 0) ts t0) (removelast idx)))
         else Raise ValueError)
  end.

(** [model_inputs]: the dictionary of labels, baseline and coarse
    inputs. *)
Definition model_inputs
    (ext : Externals) (fine_inputs : tensor) (hparams : HParams)
    : TF (gmap string tensor) :=
  num_x_points ← py (shape_dim_last fine_inputs);
  resample_func ← py (_RESAMPLE_FUNCS (resample_method hparams));
  let resample t := resample_func t (resample_factor hparams) in
  equation_type ← py (from_hparams ext (PyHParams hparams));
  let fine_equation :=
    {| equation_type_of := equation_type; num_points := num_x_points |} in
  let fine_derivatives :=
    calculate_baseline_derivatives ext fine_inputs fine_equation in
  resampled ← mapM resample fine_derivatives;
  labels ← tf_stack_last resampled;
  coarse_points ← py (py_floordiv (Z.of_nat num_x_points) (resample_factor hparams));
  let coarse_equation :=
    {| equation_type_of := equation_type; num_points := Z.to_nat coarse_points |} in
  coarse_inputs ← resample fine_inputs;
  baseline ← tf_stack_last
               (calculate_baseline_derivatives ext coarse_inputs coarse_equation);
  mret (<["labels" := labels]>
          (<["baseline" := baseline]> (<["inputs" := coarse_inputs]> ∅))).
(* ================================================================== *)
(** * The dataset split, the learning rate, the logged metrics          *)
(* ================================================================== *)

(** Python 3 [round(x)] of a float: to the nearest integer, ties to the
    even one. *)
Definition py_round (q : Q) : Z :=
  let below := Qfloor q in
  match Qcompare (q - inject_Z below) (1 # 2) with
  | Lt => below
  | Gt => (below + 1)%Z
  | Eq => if Z.even below then below else (below + 1)%Z
  end.

(** Where a slice bound [k] falls on an axis of [n] elements: a negative
    bound counts from the end, and bounds are clamped to the axis. *)
Definition py_slice_index (k : Z) (n : nat) : nat :=
  if (k <? 0)%Z then Z.to_nat (Z.max 0 (k + Z.of_nat n))
  else Nat.min (Z.to_nat k) n.

(** [t[start:stop]] along the first axis, for bounds already on the
    axis. *)
Definition np_rows (t : tensor) (start stop : nat) : tensor :=
  tabulate ((stop - start) :: tl (shape t))
    (fun idx => match idx with
                | i :: r => get t ((start + i) :: r)
                | [] => 0%Q
                end).

(** The snapshots [make_dataset] selects: [snapshots[indexer]], the first
    [num_training] of them for training and the others for validation.
    [float_mul] is the multiplication of Python floats, which rounds its
    exact result to the nearest double: the model takes it as given. *)
Definition make_dataset_snapshots
    (float_mul : Q -> Q -> Q)
    (snapshots : tensor) (hparams : TrainingHParams) (training : bool)
    : result tensor :=
  examples ← shape_dim snapshots 0;
  let num_training := py_round (float_mul (Qnat examples) (frac_training hparams)) in
  let bound := py_slice_index num_training examples in
  mret (if training then np_rows snapshots 0 bound
        else np_rows snapshots bound examples).

(** [tf.train.piecewise_constant(x, boundaries, values)]: the lengths are
    checked when the graph is built; the value is selected, when the step
    is known, by a [tf.case] over exclusive conditions with [values[0]] as
    default. *)
Definition tf_piecewise_constant
    (boundaries : list Z) (values : list Q) : result (Z -> result Q) :=
  if negb (length boundaries =? length values - 1) then Raise ValueError
  else
    match boundaries with
    | [] => Raise IndexError
    | first :: _ =>
        Ok (fun x =>
              let pairs :=
                ((x <=? first)%Z, nth 0 values 0%Q)
                :: ((List.last boundaries 0 <? x)%Z, List.last values 0%Q)
                :: map (fun '(low, (high, v)) => ((low <? x)%Z && (x <=? high)%Z, v))
                     (zip (removelast boundaries)
                        (zip (tl boundaries) (removelast (tl values)))) in
              match List.filter fst pairs with
              | [] => Ok (nth 0 values 0%Q)
              | [(_, v)] => Ok v
              | _ => Raise InvalidArgumentError
              end)
    end.

(** The learning rate [create_training_step] hands to the optimizer, as a
    function of the global step. *)
Definition create_training_step_learning_rate
    (hparams : TrainingHParams) : result (Z -> result Q) :=
  if 1 <? length (learning_rates hparams) then
    tf_piecewise_constant (removelast (learning_stops hparams)) (learning_rates hparams)
  else
    match learning_rates hparams with
    | [learning_rate] => Ok (fun _ => Ok learning_rate)
    | _ => Raise ValueError
    end.

(** One row of [metrics_to_dataframe]: the test metrics under the prefix
    'test_', updated with the train metrics under 'train_', and the
    step. *)
Definition metrics_row
    (step : Z) (test_metrics train_metrics : gmap string Q) : gmap string Q :=
  <["step" := inject_Z step]>
    (kmap (String.append "train_") train_metrics
     ∪ kmap (String.append "test_") test_metrics).

(** The rows [metrics_to_dataframe] hands to [pd.DataFrame]. *)
Definition metrics_to_dataframe
    (logged_metrics : list (Z * gmap string Q * gmap string Q))
    : list (gmap string Q) :=
  map (fun '(step, test_metrics, train_metrics) =>
         metrics_row step test_metrics train_metrics)
      logged_metrics.

(** What the loop of [training_loop] asks of the session: a training step,
    and the inference runs of an evaluation. *)
Inductive training_event : Type :=
| RunTrainStep (step : Z)
| RunInference (step : Z).

(** [range(start, stop)]. *)
Definition py_range (start stop : Z) : list Z :=
  map (fun i => (start + Z.of_nat i)%Z) (seq 0 (Z.to_nat (stop - start))).

(** The body of the loop over the given steps: the events in order, and
    the steps whose metrics are logged, or what the loop raises. *)
Fixpoint training_steps (steps : list Z) (eval_interval : Z)
    : list training_event * result (list Z) :=
  match steps with
  | [] => ([], Ok [])
  | step :: rest =>
      match py_mod (step + 1) eval_interval with
      | Raise e => ([RunTrainStep step], Raise e)
      | Ok remainder =>
          let '(events, logged) := training_steps rest eval_interval in
          if Z.eqb remainder 0 then
            (RunTrainStep step :: RunInference step :: events,
             match logged with
             | Ok steps => Ok (step :: steps)
             | Raise e => Raise e
             end)
          else (RunTrainStep step :: events, logged)
      end
  end.

(** The loop of [training_loop], from the global step the session starts
    at: [for step in range(initial_step, hparams.learning_stops[-1])]. *)
Definition training_loop_steps (initial_step : Z) (hparams : TrainingHParams)
    : list training_event * result (list Z) :=
  match last (learning_stops hparams) with
  | None => ([], Raise IndexError)
  | Some stop => training_steps (py_range initial_step stop) (eval_interval hparams)
  end.

(** The weight [calculate_loss] gives channel [c] of [d]: the space
    channels share what the time derivative leaves. *)
Definition space_time_weight (hparams : HParams) (d c : nat) : Q :=
  if c <? d - 1 then ((1 - time_derivative_weight hparams) / Qnat (d - 1))%Q
  else time_derivative_weight hparams.

(** The loss as a sum over the channels: per channel, the weighted
    absolute and relative heads, each the dataset mean of its component
    times its scale. *)
Definition weighted_loss
    (hparams : HParams) (scale : list Q) (model_error relative_error : tensor)
    (n x d : nat) : Q :=
  sum_upto d (fun c =>
    space_time_weight hparams d c
    * ((1 - relative_error_weight hparams)
       * (dataset_mean model_error n x c * nth c scale 0)
       + relative_error_weight hparams
         * (dataset_mean relative_error n x c * nth (d + c) scale 0)))%Q.

(** The finite-difference helper and the equation of motion return fields
    of the shape of the field they are given. *)
Definition shape_preserving (ext : Externals) (et : EquationType) : Prop :=
  (forall t grid order, shape (apply_finite_differences ext t grid order) = shape t)
  /\ (forall n u derivatives, shape (equation_of_motion et n u derivatives) = shape u).

(** A list of steps that never decreases. *)
Fixpoint nondecreasing (l : list Z) : bool :=
  match l with
  | a :: (b :: _) as rest => (a <=? b)%Z && nondecreasing rest
  | _ => true
  end.

(** How many of the boundaries [learning_stops[:-1]] a step has passed. *)
Definition rate_index (stops : list Z) (step : Z) : nat :=
  length (List.filter (fun b => (b <? step)%Z) (removelast stops)).

(** The training steps among the events of a run. *)
Definition train_steps_of (events : list training_event) : list Z :=
  flat_map (fun e => match e with RunTrainStep s => [s] | RunInference _ => [] end) events.

(** The example configuration as training sees it, before the
    data-dependent entries are added. *)
Definition example_training_hparams : TrainingHParams :=
  {| base_hparams := example_hparams 3 2 false true;
     base_batch_size := 2;
     learning_rates := [1 # 1000; 1 # 10000];
     learning_stops := [20; 40]%Z;
     frac_training := 8 # 10;
     eval_interval := 5;
     error_scale := None;
     error_floor := None |}.

(** The same with unit scales and a unit floor for [d] channels. *)
Definition example_scaled_hparams (d : nat) : TrainingHParams :=
  {| base_hparams := example_hparams 3 2 false true;
     base_batch_size := 2;
     learning_rates := [1 # 1000; 1 # 10000];
     learning_stops := [20; 40]%Z;
     frac_training := 8 # 10;
     eval_interval := 5;
     error_scale := Some (repeat 1%Q (2 * d));
     error_floor := Some (tabulate [d] (fun _ => 1%Q)) |}.

(* ================================================================== *)
(** * Facts about tensors                                               *)
(* ================================================================== *)

Lemma wfb_wf t : wfb t = true <-> wf t.
Proof. unfold wfb, wf. apply Nat.eqb_eq. Qed.

Lemma in_range_nil_l sh : in_range sh [] -> sh = [].
Proof. unfold in_range. inversion 1. reflexivity. Qed.

Lemma in_range_cons d sh i idx :
  in_range (d :: sh) (i :: idx) <-> i < d /\ in_range sh idx.
Proof.
  unfold in_range. split.
  - inversion 1; subst. split; assumption.
  - intros [Hi Hr]. constructor; assumption.
Qed.

Lemma in_range_length sh idx : in_range sh idx -> length idx = length sh.
Proof. unfold in_range. induction 1; simpl; congruence. Qed.

Lemma ravel_lt sh : forall idx, in_range sh idx -> ravel sh idx < num_elements sh.
Proof.
  induction sh as [|d sh IH]; intros idx Hr.
  - inversion Hr; subst. simpl. lia.
  - inversion Hr as [|i d' idx' sh' Hi Hr']; subst. simpl.
    specialize (IH _ Hr'). nia.
Qed.

Lemma unravel_ravel sh : forall idx, in_range sh idx -> unravel sh (ravel sh idx) = idx.
Proof.
  induction sh as [|d sh IH]; intros idx Hr.
  - inversion Hr; subst. reflexivity.
  - inversion Hr as [|i d' idx' sh' Hi Hr']; subst. simpl.
    pose proof (ravel_lt _ _ Hr') as Hlt.
    assert (Hq : (i * num_elements sh + ravel sh idx') / num_elements sh = i).
    { rewrite Nat.add_comm, Nat.div_add by lia.
      rewrite Nat.div_small by lia. lia. }
    assert (Hm : (i * num_elements sh + ravel sh idx') mod num_elements sh
                 = ravel sh idx').
    { rewrite Nat.add_comm, Nat.Div0.mod_add. apply Nat.mod_small; lia. }
    rewrite Hq, Hm, IH by assumption. reflexivity.
Qed.

Lemma unravel_in_range sh : forall n, n < num_elements sh -> in_range sh (unravel sh n).
Proof.
  induction sh as [|d sh IH]; intros n Hn; simpl in *.
  - constructor.
  - assert (Hpos : 0 < num_elements sh) by nia.
    apply in_range_cons. split.
    + apply Nat.Div0.div_lt_upper_bound. lia.
    + apply IH. apply Nat.mod_upper_bound. lia.
Qed.

Lemma ravel_unravel sh : forall n, n < num_elements sh -> ravel sh (unravel sh n) = n.
Proof.
  induction sh as [|d sh IH]; intros n Hn; simpl in *.
  - lia.
  - assert (Hpos : 0 < num_elements sh) by nia.
    rewrite IH by (apply Nat.mod_upper_bound; lia).
    pose proof (Nat.div_mod_eq n (num_elements sh)). lia.
Qed.

Lemma wf_tabulate sh f : wf (tabulate sh f).
Proof. unfold wf, tabulate. simpl. rewrite length_map, length_seq. reflexivity. Qed.

Lemma shape_tabulate sh f : shape (tabulate sh f) = sh.
Proof. reflexivity. Qed.

Lemma get_tabulate sh f idx : in_range sh idx -> get (tabulate sh f) idx = f idx.
Proof.
  intros Hr. unfold get, tabulate. simpl.
  pose proof (ravel_lt _ _ Hr) as Hlt.
  rewrite (nth_indep _ 0%Q (f (unravel sh 0))) by (rewrite length_map, length_seq; lia).
  rewrite (map_nth (fun n => f (unravel sh n))).
  rewrite seq_nth by lia. simpl. rewrite unravel_ravel by assumption. reflexivity.
Qed.

(** Two well-formed tensors of one shape that agree at every multi-index
    are the same tensor. *)
Lemma tensor_ext t1 t2 :
  wf t1 -> wf t2 -> shape t1 = shape t2 ->
  (forall idx, in_range (shape t1) idx -> get t1 idx = get t2 idx) ->
  t1 = t2.
Proof.
  destruct t1 as [sh1 d1], t2 as [sh2 d2]. unfold wf, get. simpl.
  intros W1 W2 -> Hget. f_equal.
  apply (nth_ext _ _ 0%Q 0%Q); [congruence|].
  intros n Hn. rewrite W1 in Hn.
  specialize (Hget _ (unravel_in_range _ _ Hn)).
  rewrite ravel_unravel in Hget by assumption. exact Hget.
Qed.

Lemma tabulate_ext sh f g :
  (forall idx, in_range sh idx -> f idx = g idx) -> tabulate sh f = tabulate sh g.
Proof.
  intros H. apply tensor_ext; try apply wf_tabulate; try reflexivity.
  intros idx Hr. simpl in Hr. rewrite !get_tabulate by assumption. auto.
Qed.

Lemma wf_with_shape t sh :
  wf t -> num_elements sh = num_elements (shape t) -> wf (with_shape t sh).
Proof. unfold wf, with_shape. simpl. congruence. Qed.

(** Reading a re-shaped buffer: only the row-major offset matters. *)
Lemma get_with_shape t sh idx idx' :
  ravel sh idx = ravel (shape t) idx' -> get (with_shape t sh) idx = get t idx'.
Proof. unfold get, with_shape. simpl. intros ->. reflexivity. Qed.


(* ================================================================== *)
(** * Running computations                                              *)
(* ================================================================== *)

Lemma runs_ret {A} (v : A) : runs (mret v) (Ok v) [].
Proof. intros g. unfold mret, TF_ret. rewrite app_nil_r. reflexivity. Qed.

Lemma runs_py {A} (r : result A) : runs (py r) r [].
Proof. intros g. unfold py. rewrite app_nil_r. reflexivity. Qed.

Lemma runs_raise {A} (e : exn) : runs (@raise A e) (Raise e) [].
Proof. intros g. unfold raise. rewrite app_nil_r. reflexivity. Qed.

Lemma runs_op {A} (o : tfop) (r : result A) : runs (tf_op o r) r [o].
Proof. intros g. reflexivity. Qed.

Lemma runs_bind_ok {A B} (m : TF A) (k : A -> TF B) a ops1 r ops2 :
  runs m (Ok a) ops1 -> runs (k a) r ops2 -> runs (m ≫= k) r (ops1 ++ ops2).
Proof.
  intros Hm Hk g. unfold mbind, TF_bind. rewrite Hm, Hk, app_assoc. reflexivity.
Qed.

Lemma runs_bind_raise {A B} (m : TF A) (k : A -> TF B) e ops :
  runs m (Raise e) ops -> runs (m ≫= k) (Raise e) ops.
Proof. intros Hm g. unfold mbind, TF_bind. rewrite Hm. reflexivity. Qed.

Lemma runs_outcome {A} (m : TF A) r ops : runs m r ops -> outcome m = r.
Proof. intros H. unfold outcome. rewrite H. reflexivity. Qed.

Lemma runs_invoked {A} (m : TF A) r ops : runs m r ops -> invoked m = ops.
Proof. intros H. unfold invoked. rewrite H. reflexivity. Qed.

Lemma runs_eq {A} (m : TF A) r r' ops ops' :
  runs m r ops -> r = r' -> ops = ops' -> runs m r' ops'.
Proof. intros H -> ->. exact H. Qed.

(** Case analysis on the integer and natural-number tests of the model. *)
Ltac test_cases :=
  repeat match goal with
    | |- context [Z.ltb ?a ?b] => destruct (Z.ltb_spec a b); try lia
    | |- context [Z.leb ?a ?b] => destruct (Z.leb_spec a b); try lia
    | |- context [Z.eqb ?a ?b] => destruct (Z.eqb_spec a b); try lia
    | |- context [Nat.eqb ?a ?b] => destruct (Nat.eqb_spec a b); try lia
    | |- context [Nat.ltb ?a ?b] => destruct (Nat.ltb_spec a b); try lia
    | |- context [Nat.leb ?a ?b] => destruct (Nat.leb_spec a b); try lia
    end.

(* ================================================================== *)
(** * resample_mean and subsample                                       *)
(* ================================================================== *)

Lemma invalid_input_shape_spec inputs factor :
  (0 < factor)%Z ->
  (invalid_input_shape inputs factor = Ok true /\ not_resamplable inputs factor)
  \/ (invalid_input_shape inputs factor = Ok false /\ ~ not_resamplable inputs factor).
Proof.
  intros Hf. unfold invalid_input_shape, not_resamplable, py_mod.
  destruct (Nat.eqb_spec (rank inputs) 2) as [Hr|Hr]; simpl.
  - destruct (Z.eqb_spec factor 0) as [|_]; [lia|]. simpl.
    destruct (Z.eqb_spec (Z.of_nat (dim inputs 1) mod factor) 0) as [Hm|Hm]; simpl.
    + right. split; [reflexivity|]. intros [H|H]; [congruence|].
      apply H. apply Z.mod_divide; [lia|exact Hm].
    + left. split; [reflexivity|]. right. intros H. apply Hm.
      apply Z.mod_divide; [lia|exact H].
  - left. split; [reflexivity|]. left. exact Hr.
Qed.

Lemma resample_mean_runs_invalid inputs factor :
  invalid_input_shape inputs factor = Ok true ->
  runs (resample_mean inputs factor) (Raise ValueError) [].
Proof.
  intros H. unfold resample_mean. rewrite H.
  apply (runs_bind_ok _ _ true [] _ []); [apply runs_py|apply runs_raise].
Qed.

Lemma subsample_runs_invalid inputs factor :
  invalid_input_shape inputs factor = Ok true ->
  runs (subsample inputs factor) (Raise ValueError) [].
Proof.
  intros H. unfold subsample. rewrite H.
  apply (runs_bind_ok _ _ true [] _ []); [apply runs_py|apply runs_raise].
Qed.

Lemma resolve_shape_blocks b m f :
  0 < m -> 0 < f ->
  resolve_shape (b * (m * f)) [(-1)%Z; Z.of_nat m; Z.of_nat f] = Ok [b; m; f].
Proof.
  intros Hm Hf. unfold resolve_shape.
  assert (Hex : existsb (fun d => Z.ltb d (-1)) [(-1)%Z; Z.of_nat m; Z.of_nat f] = false).
  { simpl. test_cases; try reflexivity. }
  rewrite Hex.
  assert (Hfl : List.filter (fun d => negb (Z.eqb d (-1))) [(-1)%Z; Z.of_nat m; Z.of_nat f]
                = [Z.of_nat m; Z.of_nat f]).
  { simpl. test_cases; try reflexivity. }
  rewrite Hfl.
  cbn [length prodZ fold_right Nat.sub Nat.eqb].
  assert (Hp : (Z.of_nat m * (Z.of_nat f * 1) = Z.of_nat (m * f))%Z) by lia.
  rewrite Hp.
  destruct (Z.leb_spec (Z.of_nat (m * f)) 0) as [Hle|_]; [nia|].
  assert (Hmod : (Z.of_nat (b * (m * f)) mod Z.of_nat (m * f) = 0)%Z).
  { rewrite Nat2Z.inj_mul. apply Z.mod_mul. nia. }
  rewrite Hmod. simpl negb. cbn [map Z.eqb].
  assert (Hdiv : (Z.of_nat (b * (m * f)) / Z.of_nat (m * f) = Z.of_nat b)%Z).
  { rewrite Nat2Z.inj_mul. apply Z.div_mul. nia. }
  rewrite Hdiv.
  test_cases. rewrite !Nat2Z.id. reflexivity.
Qed.

Lemma rank_2_shape t : rank t = 2 -> exists b w, shape t = [b; w].
Proof.
  unfold rank. destruct (shape t) as [|b [|w [|? ?]]]; simpl; try discriminate.
  intros _. exists b, w. reflexivity.
Qed.

Lemma resample_mean_runs_blocks t b m f :
  shape t = [b; m * f] -> 0 < m -> 0 < f ->
  runs (resample_mean t (Z.of_nat f))
       (Ok (reduce_mean_axis (with_shape t [b; m; f]) 2 false)) [OpReshape; OpMean].
Proof.
  intros Hsh Hm Hf. unfold resample_mean.
  assert (Hinv : invalid_input_shape t (Z.of_nat f) = Ok false).
  { unfold invalid_input_shape, rank, dim, py_mod. rewrite Hsh. simpl.
    destruct (Z.eqb_spec (Z.of_nat f) 0); [lia|]. simpl.
    rewrite Nat2Z.inj_mul, Z.mod_mul by lia. reflexivity. }
  assert (Hdiv : py_floordiv (Z.of_nat (dim t 1)) (Z.of_nat f) = Ok (Z.of_nat m)).
  { unfold py_floordiv, dim. rewrite Hsh. simpl.
    destruct (Z.eqb_spec (Z.of_nat f) 0); [lia|].
    rewrite Nat2Z.inj_mul, Z.div_mul by lia. reflexivity. }
  rewrite Hinv, Hdiv.
  apply (runs_bind_ok _ _ false [] _ [OpReshape; OpMean]); [apply runs_py|].
  apply (runs_bind_ok _ _ (Z.of_nat m) [] _ [OpReshape; OpMean]); [apply runs_py|].
  apply (runs_bind_ok _ _ (with_shape t [b; m; f]) [OpReshape] _ [OpMean]).
  - unfold tf_reshape. rewrite Hsh.
    replace (num_elements [b; m * f]) with (b * (m * f)) by (simpl; lia).
    rewrite resolve_shape_blocks by assumption. apply runs_op.
  - unfold tf_reduce_mean. apply runs_op.
Qed.

Lemma sum_upto_ext n f g :
  (forall k, k < n -> f k = g k) -> sum_upto n f = sum_upto n g.
Proof.
  intros H. unfold sum_upto. f_equal. apply map_ext_in.
  intros k Hk. apply in_seq in Hk. apply H. lia.
Qed.

Lemma mean_upto_ext n f g :
  (forall k, k < n -> f k = g k) -> mean_upto n f = mean_upto n g.
Proof. intros H. unfold mean_upto. rewrite (sum_upto_ext n f g H). reflexivity. Qed.

Lemma get_block_mean t b m f i j :
  shape t = [b; m * f] -> i < b -> j < m ->
  get (reduce_mean_axis (with_shape t [b; m; f]) 2 false) [i; j]
  = mean_upto f (fun k => get t [i; f * j + k]).
Proof.
  intros Hsh Hi Hj. unfold reduce_mean_axis. cbn [shape with_shape].
  rewrite get_tabulate by (simpl; repeat constructor; assumption).
  cbn [nth]. apply mean_upto_ext. intros k Hk.
  apply get_with_shape. rewrite Hsh. simpl. nia.
Qed.

Lemma resample_mean_runs_divisible t b w factor :
  shape t = [b; w] -> 0 < w -> (0 < factor)%Z -> (factor | Z.of_nat w)%Z ->
  runs (resample_mean t factor)
       (Ok (reduce_mean_axis
              (with_shape t [b; w / Z.to_nat factor; Z.to_nat factor]) 2 false))
       [OpReshape; OpMean]
  /\ shape t = [b; w / Z.to_nat factor * Z.to_nat factor].
Proof.
  intros Hsh Hw Hf [q Hq].
  set (f := Z.to_nat factor).
  assert (Hfz : factor = Z.of_nat f) by (unfold f; lia).
  assert (Hfpos : 0 < f) by lia.
  assert (Hwm : w = Z.to_nat q * f) by nia.
  assert (Hm : 0 < Z.to_nat q) by nia.
  assert (Hquot : w / f = Z.to_nat q) by (rewrite Hwm; apply Nat.div_mul; lia).
  rewrite Hquot. rewrite Hwm in Hsh. split; [|exact Hsh].
  rewrite Hfz. apply resample_mean_runs_blocks; assumption.
Qed.

(** C8. On a [batch, W] tensor whose positive width the positive factor
    evenly divides, [resample_mean] returns a [batch, W // factor] tensor
    whose value at row [i], position [j] is the arithmetic mean of the
    [factor] consecutive inputs of row [i] at positions [factor * j] to
    [factor * j + factor - 1]. *)
Theorem resample_mean_block_means (t : tensor) (b w : nat) (factor : Z) :
  shape t = [b; w] -> 0 < w -> (0 < factor)%Z -> (factor | Z.of_nat w)%Z ->
  exists r,
    outcome (resample_mean t factor) = Ok r
    /\ shape r = [b; w / Z.to_nat factor]
    /\ forall i j, i < b -> j < w / Z.to_nat factor ->
         get r [i; j]
         = mean_upto (Z.to_nat factor) (fun k => get t [i; Z.to_nat factor * j + k]).
Proof.
  intros Hsh Hw Hf Hd.
  destruct (resample_mean_runs_divisible t b w factor Hsh Hw Hf Hd) as [Hrun Hsh'].
  eexists. split; [|split].
  - eapply runs_outcome. exact Hrun.
  - reflexivity.
  - intros i j Hi Hj. apply get_block_mean; assumption.
Qed.

(** A 16-point field resampled by 4: four outputs, each the mean of its four
    contributing inputs. *)
Lemma resample_mean_block_means_witness :
  exists r,
    outcome (resample_mean (example_field 16) 4) = Ok r
    /\ shape r = [1; 4]
    /\ forall i j, i < 1 -> j < 4 ->
         get r [i; j] = mean_upto 4 (fun k => get (example_field 16) [i; 4 * j + k]).
Proof.
  apply (resample_mean_block_means (example_field 16) 1 16 4).
  - reflexivity.
  - lia.
  - lia.
  - exists 4%Z. reflexivity.
Defined.

Lemma subsample_runs_valid t factor :
  invalid_input_shape t factor = Ok false ->
  exists r, runs (subsample t factor) (Ok r) [OpStridedSlice].
Proof.
  intros Hinv. unfold subsample. rewrite Hinv.
  assert (Hr : rank t = 2).
  { unfold invalid_input_shape in Hinv.
    destruct (Nat.eqb_spec (rank t) 2); [assumption|discriminate]. }
  destruct (rank_2_shape _ Hr) as (b & w & Hsh).
  eexists.
  apply (runs_bind_ok _ _ false [] _ [OpStridedSlice]); [apply runs_py|].
  unfold tf_strided_columns. rewrite Hsh. apply runs_op.
Qed.

(** C7, as the code has it.  For every positive factor and every input
    tensor (of positive width when it is rank-2), [resample_mean] and
    [subsample] raise [ValueError] exactly when the input is not rank-2 or
    its width is not evenly divisible by the factor, and they do so without
    having invoked any tensor operation; otherwise neither raises. *)
Theorem resample_guard (t : tensor) (factor : Z) :
  (0 < factor)%Z ->
  (rank t = 2 -> 0 < dim t 1) ->
  (outcome (resample_mean t factor) = Raise ValueError <-> not_resamplable t factor)
  /\ (outcome (subsample t factor) = Raise ValueError <-> not_resamplable t factor)
  /\ (not_resamplable t factor ->
      invoked (resample_mean t factor) = [] /\ invoked (subsample t factor) = [])
  /\ (~ not_resamplable t factor ->
      is_ok (outcome (resample_mean t factor)) = true
      /\ is_ok (outcome (subsample t factor)) = true).
Proof.
  intros Hf Hwidth.
  destruct (invalid_input_shape_spec t factor Hf) as [[Hinv Hbad]|[Hinv Hgood]].
  - pose proof (resample_mean_runs_invalid _ _ Hinv) as Hm.
    pose proof (subsample_runs_invalid _ _ Hinv) as Hs.
    rewrite (runs_outcome _ _ _ Hm), (runs_outcome _ _ _ Hs).
    rewrite (runs_invoked _ _ _ Hm), (runs_invoked _ _ _ Hs).
    repeat split; auto; intros; contradiction.
  - destruct (subsample_runs_valid _ _ Hinv) as [rs Hs].
    rewrite (runs_outcome _ _ _ Hs).
    assert (Hr : rank t = 2).
    { destruct (Nat.eq_dec (rank t) 2) as [|Hn]; [assumption|].
      exfalso. apply Hgood. left. exact Hn. }
    destruct (rank_2_shape _ Hr) as (b & w & Hsh).
    assert (Hd : (factor | Z.of_nat (dim t 1))%Z).
    { destruct (Z.eq_dec (Z.of_nat (dim t 1) mod factor)%Z 0%Z) as [Hz|Hn].
      - apply Z.mod_divide; [lia|exact Hz].
      - exfalso. apply Hgood. right. intros Hd. apply Hn.
        apply Z.mod_divide; [lia|exact Hd]. }
    specialize (Hwidth Hr).
    unfold dim in Hwidth, Hd. rewrite Hsh in Hwidth, Hd. simpl in Hwidth, Hd.
    destruct (resample_mean_runs_divisible t b w factor Hsh Hwidth Hf Hd) as [Hrun _].
    rewrite (runs_outcome _ _ _ Hrun).
    repeat split; auto; try (intros; contradiction); try discriminate.
Qed.

(** The scenario of the specification: a 15-point field and the factor 4. *)
Lemma resample_guard_witness :
  let t := zeros [1; 15] in
  (outcome (resample_mean t 4) = Raise ValueError <-> not_resamplable t 4)
  /\ (outcome (subsample t 4) = Raise ValueError <-> not_resamplable t 4)
  /\ (not_resamplable t 4 ->
      invoked (resample_mean t 4) = [] /\ invoked (subsample t 4) = [])
  /\ (~ not_resamplable t 4 ->
      is_ok (outcome (resample_mean t 4)) = true
      /\ is_ok (outcome (subsample t 4)) = true).
Proof.
  apply (resample_guard (zeros [1; 15]) 4).
  - lia.
  - intros _. vm_compute. lia.
Defined.

(** C7 as the specification states it fails for the factor 0: a [1, 16]
    field is not evenly divisible by 0, yet both functions raise
    [ZeroDivisionError], not [ValueError]. *)
Lemma resample_guard_factor_zero :
  let t := zeros [1; 16] in
  not_resamplable t 0
  /\ outcome (resample_mean t 0) = Raise ZeroDivisionError
  /\ outcome (subsample t 0) = Raise ZeroDivisionError
  /\ ~ (outcome (resample_mean t 0) = Raise ValueError <-> not_resamplable t 0)
  /\ ~ (outcome (subsample t 0) = Raise ValueError <-> not_resamplable t 0).
Proof.
  assert (Hbad : not_resamplable (zeros [1; 16]) 0).
  { right. intros [q Hq]. change (16 = q * 0)%Z in Hq. lia. }
  repeat split; try exact Hbad; try reflexivity.
  - intros [_ H]. specialize (H Hbad). discriminate H.
  - intros [_ H]. specialize (H Hbad). discriminate H.
Qed.

Example resample_mean_16_by_4 :
  returned_values (outcome (resample_mean (example_field 16) 4))
  = Some ([1; 4], [3 # 2; 11 # 2; 19 # 2; 27 # 2]%Q).
Proof. vm_compute. reflexivity. Qed.

Example subsample_16_by_4 :
  returned_values (outcome (subsample (example_field 16) 4))
  = Some ([1; 4], [0; 4; 8; 12]%Q).
Proof. vm_compute. reflexivity. Qed.

Example subsample_15_by_4 :
  outcome (subsample (example_field 15) 4) = Raise ValueError.
Proof. vm_compute. reflexivity. Qed.

(* ================================================================== *)
(** * extract_patches                                                   *)
(* ================================================================== *)

Lemma wrap_lt z w : 0 < w -> wrap z w < w.
Proof.
  intros Hw. unfold wrap.
  pose proof (Z.mod_pos_bound z (Z.of_nat w) ltac:(lia)). lia.
Qed.

Lemma wrap_wrap_sub z k w :
  0 < w -> wrap (Z.of_nat (wrap z w) - k) w = wrap (z - k) w.
Proof.
  intros Hw. unfold wrap. f_equal.
  pose proof (Z.mod_pos_bound z (Z.of_nat w) ltac:(lia)).
  rewrite Z2Nat.id by lia. apply Zminus_mod_idemp_l.
Qed.

Lemma wrap_wrap_add z d w :
  0 < w -> wrap (Z.of_nat (wrap z w) + d) w = wrap (z + d) w.
Proof.
  intros Hw. unfold wrap. f_equal.
  pose proof (Z.mod_pos_bound z (Z.of_nat w) ltac:(lia)).
  rewrite Z2Nat.id by lia. apply Zplus_mod_idemp_l.
Qed.

Section ExtractPatches.
Variable ext : Externals.

Lemma extract_patches_runs t b w size :
  shape t = [b; w] -> 1 <= size ->
  runs (extract_patches ext t size) (Ok (patches_of ext t b w size))
       [OpExpandDims; OpPadPeriodic; OpExpandDims; OpExtractImagePatches; OpSqueeze].
Proof.
  intros Hsh Hs. unfold extract_patches.
  eapply (runs_bind_ok _ _ _ [OpExpandDims] _ [_; _; _; _]).
  { unfold tf_expand_dims_last. rewrite Hsh. apply runs_op. }
  eapply (runs_bind_ok _ _ _ [OpPadPeriodic] _ [_; _; _]).
  { unfold pad_periodic. cbn [shape with_shape app]. apply runs_op. }
  eapply (runs_bind_ok _ _ _ [OpExpandDims] _ [_; _]).
  { unfold tf_expand_dims_last. cbn [shape tabulate app]. apply runs_op. }
  eapply (runs_bind_ok _ _ _ [OpExtractImagePatches] _ [_]).
  { unfold tf_extract_image_patches. cbn [shape with_shape].
    destruct (Nat.eqb_spec size 0); [lia|].
    destruct (Nat.ltb_spec (w + (size - 1) + 1) size); [lia|].
    cbn [orb]. apply runs_op. }
  unfold tf_squeeze, rank. cbn [shape tabulate length nth take drop app].
  apply runs_op.
Qed.


Lemma shape_patches_of t b w size :
  1 <= size -> shape (patches_of ext t b w size) = [b; w; size].
Proof. intros Hs. unfold patches_of. cbn [shape with_shape]. repeat f_equal; lia. Qed.

Lemma wf_patches_of t b w size : wf (patches_of ext t b w size).
Proof.
  unfold patches_of. apply wf_with_shape; [apply wf_tabulate|].
  cbn [shape tabulate num_elements]. lia.
Qed.

Lemma get_patches_of t b w size i x j :
  shape t = [b; w] -> i < b -> x < w -> j < size ->
  get (patches_of ext t b w size) [i; x; j]
  = get t [i; wrap (Z.of_nat x + Z.of_nat j - Z.of_nat (centering_offset ext (size - 1))) w].
Proof.
  intros Hsh Hi Hx Hj. unfold patches_of.
  rewrite (get_with_shape _ _ _ [i; x; 0; j]) by (cbn [shape tabulate ravel num_elements]; lia).
  rewrite get_tabulate by (repeat constructor; lia).
  rewrite Nat.div_1_r, Nat.mod_1_r.
  rewrite (get_with_shape _ _ _ [i; x + j; 0]) by (cbn [shape tabulate ravel num_elements]; lia).
  rewrite get_tabulate by (repeat constructor; lia).
  apply get_with_shape. rewrite Hsh. unfold wrap.
  replace (Z.of_nat (x + j) - Z.of_nat (centering_offset ext (size - 1)))%Z
    with (Z.of_nat x + Z.of_nat j - Z.of_nat (centering_offset ext (size - 1)))%Z by lia.
  cbn [ravel num_elements]. lia.
Qed.


Lemma in_range_3 d1 d2 d3 idx :
  in_range [d1; d2; d3] idx ->
  exists i x j, idx = [i; x; j] /\ i < d1 /\ x < d2 /\ j < d3.
Proof.
  intros H. inversion H as [|i ? idx1 ? Hi H1]; subst.
  inversion H1 as [|x ? idx2 ? Hx H2]; subst.
  inversion H2 as [|j ? idx3 ? Hj H3]; subst.
  inversion H3; subst. exists i, x, j. auto.
Qed.

Lemma get_roll_positions k t i x r :
  in_range (shape t) (i :: x :: r) ->
  get (roll_positions k t) (i :: x :: r)
  = get t (i :: wrap (Z.of_nat x - k) (dim t 1) :: r).
Proof. intros Hr. unfold roll_positions. rewrite get_tabulate by assumption. reflexivity. Qed.

Lemma patches_of_roll k t b w size :
  shape t = [b; w] -> 1 <= size ->
  patches_of ext (roll_positions k t) b w size = roll_positions k (patches_of ext t b w size).
Proof.
  intros Hsh Hs.
  apply tensor_ext.
  - apply wf_patches_of.
  - apply wf_tabulate.
  - reflexivity.
  - intros idx Hr.
    pose proof (shape_patches_of t b w size Hs) as Hshp.
    assert (Hr' : in_range [b; w; size] idx).
    { rewrite <- (shape_patches_of (roll_positions k t) b w size Hs). exact Hr. }
    destruct (in_range_3 _ _ _ _ Hr') as (i & x & j & -> & Hi & Hx & Hj).
    rewrite get_patches_of by (try assumption; reflexivity).
    rewrite (get_roll_positions k (patches_of ext t b w size))
      by (rewrite Hshp; exact Hr').
    unfold dim. rewrite Hshp. cbn [nth].
    rewrite get_patches_of by (try assumption; apply wrap_lt; lia).
    rewrite (get_roll_positions k t)
      by (rewrite Hsh; repeat constructor; try assumption; apply wrap_lt; lia).
    unfold dim. rewrite Hsh. cbn [nth].
    f_equal. f_equal. f_equal.
    rewrite wrap_wrap_sub by lia.
    replace (Z.of_nat (wrap (Z.of_nat x - k) w) + Z.of_nat j
             - Z.of_nat (centering_offset ext (size - 1)))%Z
      with (Z.of_nat (wrap (Z.of_nat x - k) w)
            + (Z.of_nat j - Z.of_nat (centering_offset ext (size - 1))))%Z by lia.
    rewrite wrap_wrap_add by lia. f_equal. lia.
Qed.

(** C3. On a [batch, W] field and for a window size [S >= 1],
    [extract_patches] returns a [batch, W, S] tensor whose entry at position
    [x], slot [j] is the field value at [x + j - offset] wrapped modulo [W],
    where the offset is the one the centering convention gives for the
    padding [S - 1]; and it commutes with circular shifts of the field by
    any integer [k]. *)
Theorem extract_patches_periodic (t : tensor) (b w size : nat) (k : Z) :
  shape t = [b; w] -> 1 <= size ->
  exists p,
    outcome (extract_patches ext t size) = Ok p
    /\ shape p = [b; w; size]
    /\ (forall i x j, i < b -> x < w -> j < size ->
          get p [i; x; j]
          = get t [i; wrap (Z.of_nat x + Z.of_nat j
                            - Z.of_nat (centering_offset ext (size - 1))) w])
    /\ outcome (extract_patches ext (roll_positions k t) size)
       = Ok (roll_positions k p).
Proof.
  intros Hsh Hs. exists (patches_of ext t b w size).
  split; [|split; [|split]].
  - eapply runs_outcome. apply extract_patches_runs; assumption.
  - apply shape_patches_of. exact Hs.
  - intros i x j Hi Hx Hj. apply get_patches_of; assumption.
  - rewrite <- patches_of_roll by assumption.
    eapply runs_outcome. apply extract_patches_runs; [exact Hsh|exact Hs].
Qed.

End ExtractPatches.

Lemma extract_patches_periodic_witness :
  exists p,
    outcome (extract_patches example_externals (example_field 4) 3) = Ok p
    /\ shape p = [1; 4; 3]
    /\ (forall i x j, i < 1 -> x < 4 -> j < 3 ->
          get p [i; x; j]
          = get (example_field 4)
              [i; wrap (Z.of_nat x + Z.of_nat j
                        - Z.of_nat (centering_offset example_externals (3 - 1))) 4])
    /\ outcome (extract_patches example_externals (roll_positions 1 (example_field 4)) 3)
       = Ok (roll_positions 1 p).
Proof.
  apply (extract_patches_periodic example_externals (example_field 4) 1 4 3 1);
    [reflexivity|lia].
Defined.

Example extract_patches_5_by_3 :
  returned_values (outcome (extract_patches example_externals (example_field 5) 3))
  = Some ([1; 5; 3], [4; 0; 1;  0; 1; 2;  1; 2; 3;  2; 3; 4;  3; 4; 0]%Q).
Proof. vm_compute. reflexivity. Qed.

(** A window wider than the field wraps around it more than once. *)
Example extract_patches_3_by_6 :
  returned_values (outcome (extract_patches example_externals (example_field 3) 6))
  = Some ([1; 3; 6], [1; 2; 0; 1; 2; 0;  2; 0; 1; 2; 0; 1;  0; 1; 2; 0; 1; 2]%Q).
Proof. vm_compute. reflexivity. Qed.

(* ================================================================== *)
(** * predict_coefficients                                              *)
(* ================================================================== *)

Lemma prodZ_of_nat sh : prodZ (map Z.of_nat sh) = Z.of_nat (num_elements sh).
Proof. induction sh as [|d sh IH]; simpl; [reflexivity|]. rewrite IH. lia. Qed.

Lemma resolve_shape_of_nat sh :
  resolve_shape (num_elements sh) (map Z.of_nat sh) = Ok sh.
Proof.
  unfold resolve_shape.
  assert (Hex : existsb (fun d => Z.ltb d (-1)) (map Z.of_nat sh) = false).
  { induction sh as [|d sh IH]; cbn [existsb map]; [reflexivity|].
    destruct (Z.ltb_spec (Z.of_nat d) (-1)); [lia|]. exact IH. }
  assert (Hfl : List.filter (fun d => negb (Z.eqb d (-1))) (map Z.of_nat sh)
                = map Z.of_nat sh).
  { clear Hex. induction sh as [|d sh IH]; simpl; [reflexivity|].
    destruct (Z.eqb_spec (Z.of_nat d) (-1)); [lia|]. simpl. rewrite IH. reflexivity. }
  rewrite Hex, Hfl, Nat.sub_diag. cbn [Nat.eqb].
  rewrite prodZ_of_nat, Z.eqb_refl. f_equal.
  rewrite map_map. rewrite <- (map_id sh) at 2. apply map_ext.
  intros d. apply Nat2Z.id.
Qed.

Lemma broadcast_rev_refl r : broadcast_rev r r = Some r.
Proof.
  induction r as [|d r IH]; simpl; [reflexivity|].
  rewrite Nat.eqb_refl, IH. reflexivity.
Qed.

Lemma broadcast_shapes_refl sh : broadcast_shapes sh sh = Some sh.
Proof.
  unfold broadcast_shapes. rewrite broadcast_rev_refl. simpl.
  rewrite rev_involutive. reflexivity.
Qed.

Lemma broadcast_shapes_keepdims l g :
  broadcast_shapes (l ++ [g]) (l ++ [1]) = Some (l ++ [g]).
Proof.
  unfold broadcast_shapes. rewrite !rev_app_distr. simpl.
  rewrite broadcast_rev_refl. simpl.
  destruct (Nat.eqb_spec g 1) as [->|_]; simpl; rewrite rev_involutive; reflexivity.
Qed.

Lemma broadcast_shapes_scalar sh : broadcast_shapes sh [] = Some sh.
Proof.
  unfold broadcast_shapes. cbn [rev].
  assert (H : forall r, broadcast_rev r [] = Some r) by (intros [|? ?]; reflexivity).
  rewrite H. simpl. rewrite rev_involutive. reflexivity.
Qed.

Lemma broadcast_shapes_trailing n x rest :
  broadcast_shapes (n :: x :: rest) rest = Some (n :: x :: rest).
Proof.
  unfold broadcast_shapes.
  change (n :: x :: rest) with ([n; x] ++ rest). rewrite rev_app_distr.
  assert (H : forall r tl, broadcast_rev (r ++ tl) r = Some (r ++ tl)).
  { induction r as [|d r IH]; intros tl; simpl.
    - destruct tl; reflexivity.
    - rewrite Nat.eqb_refl, IH. reflexivity. }
  rewrite H. simpl. rewrite rev_app_distr, rev_involutive. reflexivity.
Qed.

(** An in-range index is read where it stands. *)
Lemma broadcast_index_in_range sh : forall idx,
  in_range sh idx -> broadcast_index sh idx = idx.
Proof.
  intros idx Hr. unfold broadcast_index.
  rewrite (in_range_length _ _ Hr), Nat.sub_diag, drop_0.
  induction Hr as [|i d idx sh Hi Hr IH]; simpl; [reflexivity|].
  rewrite IH. f_equal. destruct (Nat.eqb_spec d 1); [lia|reflexivity].
Qed.

Lemma qsum_sub_const (f : nat -> Q) (c : Q) (l : list nat) :
  (qsum (map (fun k => f k - c) l) == qsum (map f l) - Qnat (length l) * c)%Q.
Proof.
  induction l as [|k l IH]; simpl.
  - unfold Qnat. simpl. ring.
  - rewrite IH. unfold Qnat. rewrite Nat2Z.inj_succ, <- Z.add_1_r, inject_Z_plus.
    ring.
Qed.

Lemma Qnat_nonzero n : 0 < n -> ~ (Qnat n == 0)%Q.
Proof. intros Hn. unfold Qnat, Qeq. simpl. lia. Qed.

(** Subtracting the mean makes the entries sum to zero. *)
Lemma sum_upto_demeaned n f :
  (sum_upto n (fun k => f k - mean_upto n f) == 0)%Q.
Proof.
  unfold sum_upto at 1. rewrite qsum_sub_const, length_seq.
  fold (sum_upto n f). unfold mean_upto.
  destruct n as [|n].
  - unfold sum_upto, Qnat. simpl. ring.
  - field. apply Qnat_nonzero. lia.
Qed.

Section PredictCoefficients.
Variable ext : Externals.

Lemma from_hparams_typed hp :
  from_hparams ext (PyHParams hp) = equation_catalogue ext (equation hp) (conservative hp).
Proof. reflexivity. Qed.

Lemma in_range_4 d1 d2 d3 d4 i j d k :
  i < d1 -> j < d2 -> d < d3 -> k < d4 -> in_range [d1; d2; d3; d4] [i; j; d; k].
Proof. intros. repeat constructor; assumption. Qed.

(** The zero-layer path. *)
Lemma predict_coefficients_zero_layers inputs hp et b x training :
  shape inputs = [b; x] ->
  equation_catalogue ext (equation hp) (conservative hp) = Ok et ->
  num_layers hp = 0%Z ->
  exists c,
    runs (predict_coefficients ext inputs (PyHParams hp) training) (Ok c)
         [OpGetVariable; OpExpandDims; OpTile]
    /\ shape c = [b; x; length (DERIVATIVE_ORDERS et); length (coefficient_grid ext hp et)]
    /\ forall i j d k,
         i < b -> j < x -> d < length (DERIVATIVE_ORDERS et) ->
         k < length (coefficient_grid ext hp et) ->
         get c [i; j; d; k]
         = variable_value ext
             [length (DERIVATIVE_ORDERS et); length (coefficient_grid ext hp et)] [d; k].
Proof.
  intros Hsh Hcat Hzero.
  unfold predict_coefficients. rewrite from_hparams_typed, Hcat.
  fold (coefficient_grid ext hp et).
  set (D := length (DERIVATIVE_ORDERS et)).
  set (G := length (coefficient_grid ext hp et)).
  eexists. split; [|split].
  - eapply (runs_bind_ok _ _ _ [] _ [_; _; _]); [apply runs_py|].
    eapply (runs_bind_ok _ _ _ [] _ [_; _; _]); [apply runs_py|].
    cbn beta. rewrite Hzero. cbn [Z.eqb].
    eapply (runs_bind_ok _ _ _ [OpGetVariable] _ [_; _]); [apply runs_op|].
    eapply (runs_bind_ok _ _ _ [OpExpandDims] _ [_]); [apply runs_op|].
    unfold shape_dim. rewrite Hsh. cbn [lookup list_lookup].
    eapply (runs_bind_ok _ _ _ [] _ [_]); [apply runs_py|].
    eapply (runs_bind_ok _ _ _ [] _ [_]); [apply runs_py|].
    unfold tf_tile. apply runs_op.
  - cbn [shape tabulate zip_with with_shape].
    rewrite !Nat.mul_1_l, !Nat.mul_1_r. reflexivity.
  - subst D G. unfold coefficient_grid. intros i j d k Hi Hj Hd Hk.
    rewrite get_tabulate
      by (cbn [shape with_shape tabulate zip_with]; apply in_range_4; lia).
    cbn [shape with_shape tabulate zip_with].
    rewrite !Nat.mod_1_r, (Nat.mod_small d), (Nat.mod_small k) by lia.
    rewrite (get_with_shape _ _ _ [d; k])
      by (cbn [shape tabulate ravel num_elements]; lia).
    apply get_tabulate. repeat constructor; lia.
Qed.

Lemma conv_stack_runs filters : forall n layer net b x c,
  shape net = [b; x; c] ->
  exists net' c',
    runs (conv_stack ext n layer filters net) (Ok net') (repeat OpConv1DPeriodic n)
    /\ shape net' = [b; x; c'].
Proof.
  induction n as [|n IH]; intros layer net b x c Hsh.
  - exists net, c. split; [apply runs_ret|exact Hsh].
  - cbn [conv_stack].
    destruct (IH (S layer) (tabulate [b; x; filters] (conv1d_value ext layer filters true net))
                b x filters eq_refl) as (net' & c' & Hrun & Hsh').
    exists net', c'. split; [|exact Hsh'].
    change (repeat OpConv1DPeriodic (S n))
      with ([OpConv1DPeriodic] ++ repeat OpConv1DPeriodic n).
    eapply runs_bind_ok; [|exact Hrun].
    unfold conv1d_periodic_layer. rewrite Hsh. apply runs_op.
Qed.

(** The unconstrained path ([num_layers] not zero, no polynomial accuracy
    order): the network's raw outputs, then the flag. *)
Lemma predict_coefficients_unconstrained inputs hp et b x training :
  shape inputs = [b; x] ->
  equation_catalogue ext (equation hp) (conservative hp) = Ok et ->
  num_layers hp <> 0%Z ->
  polynomial_accuracy_order hp = 0%Z ->
  let D := length (DERIVATIVE_ORDERS et) in
  let G := length (coefficient_grid ext hp et) in
  let run := predict_coefficients ext inputs (PyHParams hp) training in
  exists outputs,
    shape outputs = [b; x; D; G]
    /\ (ensure_unbiased_coefficients hp = false ->
        runs run (Ok outputs) (unconstrained_prefix hp))
    /\ (ensure_unbiased_coefficients hp = true -> 0 ∈ DERIVATIVE_ORDERS et ->
        runs run (Raise ValueError) (unconstrained_prefix hp))
    /\ (ensure_unbiased_coefficients hp = true -> 0 ∉ DERIVATIVE_ORDERS et ->
        exists c,
          runs run (Ok c) (unconstrained_prefix hp ++ [OpMean; OpSub])
          /\ shape c = [b; x; D; G]
          /\ forall i j d k, i < b -> j < x -> d < D -> k < G ->
               get c [i; j; d; k]
               = (get outputs [i; j; d; k]
                  - mean_upto G (fun k' => get outputs [i; j; d; k']))%Q).
Proof.
  intros Hsh Hcat Hlayers Hpoly D G run.
  set (hidden := Z.to_nat (num_layers hp - 1)).
  set (net0 := tabulate [b; x; 1]
                 (batch_normalization_value ext training (with_shape inputs [b; x; 1]))).
  destruct (conv_stack_runs (filter_size hp) hidden 0 net0 b x 1 eq_refl)
    as (net1 & c1 & Hstack & Hsh1).
  set (net2 := tabulate [b; x; D * G] (conv1d_value ext hidden (D * G) false net1)).
  set (outputs := with_shape net2 [b; x; D; G]).
  exists outputs. split; [reflexivity|].
  assert (Hrun : forall r ops,
            runs (if ensure_unbiased_coefficients hp
                  then if bool_decide (0 ∈ DERIVATIVE_ORDERS et) then raise ValueError
                       else mean ← tf_reduce_mean outputs (-1) true; tf_sub outputs mean
                  else mret outputs) r ops ->
            runs run r (unconstrained_prefix hp ++ ops)).
  { intros r ops Hk. subst run. unfold predict_coefficients.
    rewrite from_hparams_typed, Hcat.
    eapply runs_eq; [|reflexivity|].
    - eapply runs_bind_ok; [apply runs_py|].
      eapply runs_bind_ok; [apply runs_py|].
      cbn beta. fold (coefficient_grid ext hp et). fold D. fold G.
      destruct (Z.eqb_spec (num_layers hp) 0) as [|_]; [contradiction|].
      eapply runs_bind_ok.
      { unfold tf_newaxis_2, rank. rewrite Hsh.
        cbn [length Nat.leb take drop app shape]. apply runs_op. }
      eapply runs_bind_ok.
      { unfold batch_normalization. cbn [shape with_shape]. apply runs_op. }
      fold net0. fold hidden.
      eapply runs_bind_ok; [exact Hstack|].
      rewrite Hpoly. cbn [Z.eqb].
      eapply runs_bind_ok.
      { unfold conv1d_periodic_layer. rewrite Hsh1. apply runs_op. }
      fold net2.
      eapply runs_bind_ok.
      { unfold tf_reshape. rewrite Hsh. cbn [app].
        replace (num_elements (shape net2)) with (num_elements [b; x; D; G])
          by (unfold net2; cbn [shape tabulate num_elements]; lia).
        rewrite resolve_shape_of_nat. apply runs_op. }
      exact Hk.
    - unfold unconstrained_prefix. fold hidden. cbn [app].
      rewrite <- !app_assoc. reflexivity. }
  split; [|split].
  - intros Hflag. rewrite Hflag in Hrun.
    rewrite <- (app_nil_r (unconstrained_prefix hp)). apply Hrun. apply runs_ret.
  - intros Hflag Hin. rewrite Hflag, (bool_decide_eq_true_2 _ Hin) in Hrun.
    rewrite <- (app_nil_r (unconstrained_prefix hp)). apply Hrun. apply runs_raise.
  - intros Hflag Hnotin. rewrite Hflag, (bool_decide_eq_false_2 _ Hnotin) in Hrun.
    set (mean := reduce_mean_axis outputs 3 true).
    assert (Hbc : broadcast_shapes (shape outputs) (shape mean) = Some [b; x; D; G]).
    { apply (broadcast_shapes_keepdims [b; x; D] G). }
    eexists. split; [|split].
    + apply Hrun.
      change (tf_reduce_mean outputs (-1) true) with (tf_op OpMean (Ok mean)).
      eapply (runs_bind_ok _ _ _ [OpMean] _ [OpSub]); [apply runs_op|].
      unfold tf_sub, np_sub, broadcast2. rewrite Hbc. apply runs_op.
    + reflexivity.
    + intros i j d k Hi Hj Hd Hk.
      rewrite get_tabulate by (apply in_range_4; assumption).
      rewrite (broadcast_index_in_range [b; x; D; G]) by (apply in_range_4; assumption).
      f_equal.
      assert (Hidx : broadcast_index (shape mean) [i; j; d; k] = [i; j; d; 0]).
      { unfold broadcast_index. cbn.
        destruct (Nat.eqb_spec b 1), (Nat.eqb_spec x 1), (Nat.eqb_spec D 1);
          repeat f_equal; lia. }
      rewrite Hidx. unfold mean, reduce_mean_axis.
      rewrite get_tabulate by (cbn; apply in_range_4; lia).
      reflexivity.
Qed.

(** C9. With [num_layers] zero, [predict_coefficients] returns a
    [batch, x, derivative, coefficient] tensor whose coefficient vector at
    every batch element and position is the learned variable's vector for
    that derivative order: it is the same at any two (batch, position) pairs
    and the same for any two input fields. *)
Theorem predict_coefficients_zero_layers_constant
    (inputs inputs' : tensor) (hp : HParams) (et : EquationType)
    (b x b' x' : nat) (training : bool) :
  shape inputs = [b; x] -> shape inputs' = [b'; x'] ->
  equation_catalogue ext (equation hp) (conservative hp) = Ok et ->
  num_layers hp = 0%Z ->
  exists c c',
    outcome (predict_coefficients ext inputs (PyHParams hp) training) = Ok c
    /\ outcome (predict_coefficients ext inputs' (PyHParams hp) training) = Ok c'
    /\ shape c = [b; x; length (DERIVATIVE_ORDERS et); length (coefficient_grid ext hp et)]
    /\ forall i j i' j' d k,
         i < b -> j < x -> i' < b' -> j' < x' ->
         d < length (DERIVATIVE_ORDERS et) -> k < length (coefficient_grid ext hp et) ->
         get c [i; j; d; k]
         = variable_value ext
             [length (DERIVATIVE_ORDERS et); length (coefficient_grid ext hp et)] [d; k]
         /\ get c [i; j; d; k] = get c' [i'; j'; d; k].
Proof.
  intros Hsh Hsh' Hcat Hzero.
  destruct (predict_coefficients_zero_layers inputs hp et b x training Hsh Hcat Hzero)
    as (c & Hrun & Hshape & Hget).
  destruct (predict_coefficients_zero_layers inputs' hp et b' x' training Hsh' Hcat Hzero)
    as (c' & Hrun' & _ & Hget').
  exists c, c'. repeat split.
  - eapply runs_outcome. exact Hrun.
  - eapply runs_outcome. exact Hrun'.
  - exact Hshape.
  - apply Hget; assumption.
  - rewrite Hget, Hget' by assumption. reflexivity.
Qed.

(** C4. With [ensure_unbiased_coefficients] set, a positive [num_layers],
    no polynomial accuracy order and no zeroth derivative among the
    equation's orders, every coefficient vector of the tensor returned by
    [predict_coefficients] sums to zero. *)
Theorem predict_coefficients_unbiased_sum_zero
    (inputs : tensor) (hp : HParams) (et : EquationType) (b x : nat) (training : bool) :
  shape inputs = [b; x] ->
  equation_catalogue ext (equation hp) (conservative hp) = Ok et ->
  (0 < num_layers hp)%Z ->
  polynomial_accuracy_order hp = 0%Z ->
  ensure_unbiased_coefficients hp = true ->
  0 ∉ DERIVATIVE_ORDERS et ->
  exists c,
    outcome (predict_coefficients ext inputs (PyHParams hp) training) = Ok c
    /\ shape c = [b; x; length (DERIVATIVE_ORDERS et); length (coefficient_grid ext hp et)]
    /\ forall i j d,
         i < b -> j < x -> d < length (DERIVATIVE_ORDERS et) ->
         (sum_upto (length (coefficient_grid ext hp et)) (fun k => get c [i; j; d; k]) == 0)%Q.
Proof.
  intros Hsh Hcat Hlayers Hpoly Hflag Hnotin.
  destruct (predict_coefficients_unconstrained inputs hp et b x training Hsh Hcat
              ltac:(lia) Hpoly) as (outputs & _ & _ & _ & Hunbiased).
  destruct (Hunbiased Hflag Hnotin) as (c & Hrun & Hshape & Hget).
  exists c. split; [|split].
  - eapply runs_outcome. exact Hrun.
  - exact Hshape.
  - intros i j d Hi Hj Hd.
    rewrite (sum_upto_ext _ _
               (fun k => (get outputs [i; j; d; k]
                          - mean_upto (length (coefficient_grid ext hp et))
                              (fun k' => get outputs [i; j; d; k']))%Q))
      by (intros k Hk; apply Hget; assumption).
    apply sum_upto_demeaned.
Qed.




End PredictCoefficients.

Lemma predict_coefficients_zero_layers_constant_witness :
  exists c c',
    outcome (predict_coefficients example_externals (example_field 4)
               (PyHParams (example_hparams 0 0 false false)) true) = Ok c
    /\ outcome (predict_coefficients example_externals (example_field 6)
                  (PyHParams (example_hparams 0 0 false false)) true) = Ok c'
    /\ shape c = [1; 4; 2; 4]
    /\ forall i j i' j' d k,
         i < 1 -> j < 4 -> i' < 1 -> j' < 6 -> d < 2 -> k < 4 ->
         get c [i; j; d; k] = variable_value example_externals [2; 4] [d; k]
         /\ get c [i; j; d; k] = get c' [i'; j'; d; k].
Proof.
  apply (predict_coefficients_zero_layers_constant example_externals
           (example_field 4) (example_field 6) (example_hparams 0 0 false false)
           (example_equation false) 1 4 1 6 true); reflexivity.
Defined.

Lemma predict_coefficients_unbiased_sum_zero_witness :
  exists c,
    outcome (predict_coefficients example_externals (example_field 4)
               (PyHParams (example_hparams 3 0 true false)) true) = Ok c
    /\ shape c = [1; 4; 2; 4]
    /\ forall i j d, i < 1 -> j < 4 -> d < 2 ->
         (sum_upto 4 (fun k => get c [i; j; d; k]) == 0)%Q.
Proof.
  apply (predict_coefficients_unbiased_sum_zero example_externals
           (example_field 4) (example_hparams 3 0 true false)
           (example_equation false) 1 4 true); try reflexivity.
  compute_done.
Defined.



(* ================================================================== *)
(** * The derivative composition pipeline                               *)
(* ================================================================== *)

Section Pipeline.
Variable ext : Externals.

Lemma predict_coefficients_tensor_config inputs t training :
  runs (predict_coefficients ext inputs (PyTensor t) training) (Raise AttributeError) [].
Proof.
  unfold predict_coefficients. apply runs_bind_raise. apply runs_py.
Qed.

Lemma predict_time_derivative_runs inputs hparams :
  runs (predict_time_derivative ext inputs hparams) (Raise AttributeError) [].
Proof.
  unfold predict_time_derivative, predict_space_derivatives.
  apply runs_bind_raise. apply runs_bind_raise.
  apply predict_coefficients_tensor_config.
Qed.

(** C1 on the code.  Whatever the field and the configuration,
    [predict_time_derivative] raises [AttributeError] before any tensor
    operation: it asks [predict_space_derivatives] to read its configuration
    from the field.  On the example configuration the composition the
    specification describes returns a tensor, so the two differ. *)
Theorem predict_time_derivative_raises (inputs : tensor) (hparams : pyval) :
  outcome (predict_time_derivative ext inputs hparams) = Raise AttributeError
  /\ invoked (predict_time_derivative ext inputs hparams) = []
  /\ is_ok (outcome (intended_time_derivative example_externals (example_field 4)
                       (PyHParams (example_hparams 0 0 false false)))) = true
  /\ outcome (predict_time_derivative example_externals (example_field 4)
                (PyHParams (example_hparams 0 0 false false)))
     <> outcome (intended_time_derivative example_externals (example_field 4)
                   (PyHParams (example_hparams 0 0 false false))).
Proof.
  pose proof (predict_time_derivative_runs inputs hparams) as Hrun.
  assert (Hok : is_ok (outcome (intended_time_derivative example_externals (example_field 4)
                       (PyHParams (example_hparams 0 0 false false)))) = true)
    by (vm_compute; reflexivity).
  split; [eapply runs_outcome; exact Hrun|].
  split; [eapply runs_invoked; exact Hrun|].
  split; [exact Hok|].
  intros Heq. rewrite <- Heq in Hok. vm_compute in Hok. discriminate Hok.
Qed.

End Pipeline.

(** ** The positional convention of the derivative channels *)

Lemma py_dict_snoc pairs k v : py_dict (pairs ++ [(k, v)]) = <[k := v]> (py_dict pairs).
Proof. unfold py_dict. rewrite foldl_app. reflexivity. Qed.

Lemma foldl_insert_notin (pairs : list (nat * tensor)) (m : gmap nat tensor) k :
  k ∉ pairs.*1 ->
  foldl (fun m kv => <[kv.1 := kv.2]> m) m pairs !! k = m !! k.
Proof.
  revert m. induction pairs as [|[k' v'] pairs IH]; intros m Hk; simpl; [reflexivity|].
  cbn [fmap list_fmap fst] in Hk. apply not_elem_of_cons in Hk as [Hne Hk].
  rewrite IH by exact Hk. apply lookup_insert_ne. cbn [fst]. congruence.
Qed.

(** With distinct keys, each key of the comprehension maps to its own
    value. *)
Lemma py_dict_lookup (pairs : list (nat * tensor)) i k v :
  NoDup pairs.*1 -> pairs !! i = Some (k, v) -> py_dict pairs !! k = Some v.
Proof.
  unfold py_dict. generalize (∅ : gmap nat tensor).
  revert i. induction pairs as [|[k' v'] pairs IH]; intros i m Hnd Hi; [discriminate|].
  apply NoDup_cons in Hnd as [Hnotin Hnd].
  destruct i as [|i]; simpl in *.
  - injection Hi as -> ->. rewrite foldl_insert_notin by assumption.
    apply lookup_insert_eq.
  - eapply IH; eassumption.
Qed.

Section Channels.
Variable ext : Externals.

Lemma channel_pairs_keys derivatives orders : forall i,
  (channel_pairs derivatives i orders).*1 = orders.
Proof. induction orders as [|d orders IH]; intros i; simpl; [|rewrite IH]; reflexivity. Qed.

Lemma channel_pairs_lookup derivatives orders : forall i j d,
  orders !! j = Some d ->
  channel_pairs derivatives i orders !! j = Some (d, channel derivatives (i + j)).
Proof.
  induction orders as [|d' orders IH]; intros i j d Hj; [discriminate|].
  destruct j as [|j]; simpl in *.
  - injection Hj as ->. rewrite Nat.add_0_r. reflexivity.
  - rewrite (IH (S i) j d Hj). do 3 f_equal. lia.
Qed.

Lemma derivatives_dict_from_runs derivatives : forall orders i acc,
  0 < rank derivatives -> i + length orders <= last_dim derivatives ->
  runs (derivatives_dict_from derivatives i orders acc)
       (Ok (foldl (fun m kv => <[kv.1 := kv.2]> m) acc (channel_pairs derivatives i orders)))
       (repeat OpStridedSlice (length orders)).
Proof.
  induction orders as [|d orders IH]; intros i acc Hrank Hlen; simpl in *.
  - apply runs_ret.
  - change (OpStridedSlice :: repeat OpStridedSlice (length orders))
      with ([OpStridedSlice] ++ repeat OpStridedSlice (length orders)).
    eapply runs_bind_ok; [|apply IH; [assumption|lia]].
    unfold tf_index_last.
    destruct (Nat.ltb_spec 0 (rank derivatives)); [|lia].
    destruct (Nat.ltb_spec i (last_dim derivatives)); [|lia].
    apply runs_op.
Qed.

Lemma apply_space_derivatives_runs derivatives inputs hp et b x :
  equation_catalogue ext (equation hp) (conservative hp) = Ok et ->
  shape inputs = [b; x] ->
  shape derivatives = [b; x; length (DERIVATIVE_ORDERS et)] ->
  runs (apply_space_derivatives ext derivatives inputs (PyHParams hp))
       (Ok (equation_of_motion et x inputs
              (py_dict (channel_pairs derivatives 0 (DERIVATIVE_ORDERS et)))))
       (repeat OpStridedSlice (length (DERIVATIVE_ORDERS et)) ++ [OpEquationOfMotion]).
Proof.
  intros Hcat Hsh Hd. unfold apply_space_derivatives.
  rewrite from_hparams_typed, Hcat.
  eapply runs_eq; [|reflexivity|].
  - eapply runs_bind_ok; [apply runs_py|].
    eapply runs_bind_ok.
    { unfold shape_dim_last, rank, last_dim. rewrite Hsh. apply runs_py. }
    eapply runs_bind_ok.
    { apply derivatives_dict_from_runs; unfold rank, last_dim; rewrite Hd; simpl; lia. }
    apply runs_op.
  - reflexivity.
Qed.

Lemma stack_space_time_runs sd td b x D :
  shape sd = [b; x; D] -> shape td = [b; x] ->
  exists r,
    runs (stack_space_time sd td) (Ok r) [OpExpandDims; OpConcat]
    /\ shape r = [b; x; D + 1]
    /\ forall i j, i < b -> j < x ->
         get r [i; j; D] = get td [i; j]
         /\ forall c, c < D -> get r [i; j; c] = get sd [i; j; c].
Proof.
  intros Hsd Htd. unfold stack_space_time.
  exists (tabulate [b; x; D + 1]
            (fun idx =>
               let c := List.last idx 0 in
               if c <? D then get sd idx
               else get (with_shape td [b; x; 1]) (removelast idx ++ [c - D]))).
  split; [|split].
  - eapply (runs_bind_ok _ _ _ [OpExpandDims] _ [OpConcat]); [apply runs_op|].
    unfold tf_concat_last, rank, last_dim. rewrite Hsd. cbn [shape with_shape].
    rewrite Htd. cbn [app length removelast List.last].
    change (0 <? 3) with true. change (3 =? 3) with true.
    rewrite bool_decide_eq_true_2 by reflexivity. apply runs_op.
  - reflexivity.
  - intros i j Hi Hj. split.
    + rewrite get_tabulate by (repeat constructor; lia).
      cbn [List.last removelast app]. cbv zeta.
      rewrite Nat.ltb_irrefl, Nat.sub_diag. apply get_with_shape.
      rewrite Htd. cbn [ravel num_elements]. lia.
    + intros c Hc. rewrite get_tabulate by (repeat constructor; lia).
      cbn [List.last]. cbv zeta.
      destruct (Nat.ltb_spec c D); [reflexivity|lia].
Qed.

(** C10. The channel convention.  [calculate_baseline_derivatives] returns
    one tensor per declared derivative order, in the declared order, each
    the finite-difference derivative of that order, followed by the time
    derivative the equation of motion gives for them.
    [apply_space_derivatives] hands the equation of motion a dictionary in
    which the [i]-th declared order is bound to channel [i] of its
    derivatives tensor.  [stack_space_time] keeps the space channels in
    place and puts the time derivative in the last channel, and
    [predict_all_derivatives] stacks its two results that way. *)
Theorem derivative_channel_convention
    (inputs derivatives time_derivative : tensor) (hp : HParams) (et : EquationType)
    (b x : nat) :
  equation_catalogue ext (equation hp) (conservative hp) = Ok et ->
  NoDup (DERIVATIVE_ORDERS et) ->
  shape inputs = [b; x] ->
  shape derivatives = [b; x; length (DERIVATIVE_ORDERS et)] ->
  shape time_derivative = [b; x] ->
  let orders := DERIVATIVE_ORDERS et in
  let equation := {| equation_type_of := et; num_points := x |} in
  let finite_difference order :=
    apply_finite_differences ext inputs
      (regular_finite_difference_grid ext (GRID_OFFSET et) order None (Some (dx et x)))
      order in
  (length (calculate_baseline_derivatives ext inputs equation) = length orders + 1
   /\ (forall i order, orders !! i = Some order ->
         calculate_baseline_derivatives ext inputs equation !! i
         = Some (finite_difference order))
   /\ exists spatial,
        calculate_baseline_derivatives ext inputs equation !! length orders
        = Some (equation_of_motion et x inputs spatial)
        /\ forall i order, orders !! i = Some order ->
             spatial !! order = Some (finite_difference order))
  /\ (exists derivatives_dict,
        outcome (apply_space_derivatives ext derivatives inputs (PyHParams hp))
        = Ok (equation_of_motion et x inputs derivatives_dict)
        /\ forall i order, orders !! i = Some order ->
             derivatives_dict !! order = Some (channel derivatives i))
  /\ (exists stacked,
        outcome (stack_space_time derivatives time_derivative) = Ok stacked
        /\ shape stacked = [b; x; length orders + 1]
        /\ forall i j, i < b -> j < x ->
             get stacked [i; j; length orders] = get time_derivative [i; j]
             /\ forall c, c < length orders ->
                  get stacked [i; j; c] = get derivatives [i; j; c])
  /\ (forall hparams g space g1 time g2,
        predict_space_derivatives ext inputs hparams g = (Ok space, g1) ->
        apply_space_derivatives ext space inputs hparams g1 = (Ok time, g2) ->
        predict_all_derivatives ext inputs hparams g = stack_space_time space time g2).
Proof.
  intros Hcat Hnd Hsh Hd Ht orders equation finite_difference.
  split; [|split; [|split]].
  - subst orders equation. unfold calculate_baseline_derivatives.
    cbn [equation_type_of num_points]. fold finite_difference.
    split; [|split].
    + rewrite length_app, length_map. reflexivity.
    + intros i order Hi.
      rewrite lookup_app_l by (rewrite length_map; eapply lookup_lt_Some; exact Hi).
      change (map finite_difference (DERIVATIVE_ORDERS et))
        with (finite_difference <$> DERIVATIVE_ORDERS et).
      rewrite list_lookup_fmap, Hi. reflexivity.
    + eexists. split.
      * rewrite lookup_app_r by (rewrite length_map; lia).
        rewrite length_map, Nat.sub_diag. reflexivity.
      * intros i order Hi.
        apply (py_dict_lookup _ i).
        -- rewrite fst_zip by (rewrite length_map; lia). exact Hnd.
        -- apply lookup_zip_with_Some. exists order, (finite_difference order).
           split; [reflexivity|]. split; [exact Hi|].
           change (map finite_difference (DERIVATIVE_ORDERS et))
             with (finite_difference <$> DERIVATIVE_ORDERS et).
           rewrite list_lookup_fmap, Hi. reflexivity.
  - subst orders. eexists. split.
    + eapply runs_outcome. eapply apply_space_derivatives_runs; eassumption.
    + intros i order Hi.
      apply (py_dict_lookup _ i).
      * rewrite channel_pairs_keys. exact Hnd.
      * rewrite (channel_pairs_lookup _ _ 0 i order Hi). reflexivity.
  - destruct (stack_space_time_runs derivatives time_derivative b x (length orders) Hd Ht)
      as (r & Hrun & Hshape & Hget).
    exists r. split; [eapply runs_outcome; exact Hrun|]. split; assumption.
  - intros hparams g space g1 time g2 Hspace Htime.
    unfold predict_all_derivatives, mbind, TF_bind. rewrite Hspace, Htime. reflexivity.
Qed.

End Channels.

Lemma derivative_channel_convention_witness :
  let ext := example_externals in
  let inputs := example_field 4 in
  let derivatives := tabulate [1; 4; 2] (fun idx => Qnat (ravel [1; 4; 2] idx)) in
  let time_derivative := example_field 4 in
  let hp := example_hparams 0 0 false false in
  let et := example_equation false in
  let orders := DERIVATIVE_ORDERS et in
  let equation := {| equation_type_of := et; num_points := 4 |} in
  let finite_difference order :=
    apply_finite_differences ext inputs
      (regular_finite_difference_grid ext (GRID_OFFSET et) order None (Some (dx et 4)))
      order in
  (length (calculate_baseline_derivatives ext inputs equation) = length orders + 1
   /\ (forall i order, orders !! i = Some order ->
         calculate_baseline_derivatives ext inputs equation !! i
         = Some (finite_difference order))
   /\ exists spatial,
        calculate_baseline_derivatives ext inputs equation !! length orders
        = Some (equation_of_motion et 4 inputs spatial)
        /\ forall i order, orders !! i = Some order ->
             spatial !! order = Some (finite_difference order))
  /\ (exists derivatives_dict,
        outcome (apply_space_derivatives ext derivatives inputs (PyHParams hp))
        = Ok (equation_of_motion et 4 inputs derivatives_dict)
        /\ forall i order, orders !! i = Some order ->
             derivatives_dict !! order = Some (channel derivatives i))
  /\ (exists stacked,
        outcome (stack_space_time derivatives time_derivative) = Ok stacked
        /\ shape stacked = [1; 4; length orders + 1]
        /\ forall i j, i < 1 -> j < 4 ->
             get stacked [i; j; length orders] = get time_derivative [i; j]
             /\ forall c, c < length orders ->
                  get stacked [i; j; c] = get derivatives [i; j; c])
  /\ (forall hparams g space g1 time g2,
        predict_space_derivatives ext inputs hparams g = (Ok space, g1) ->
        apply_space_derivatives ext space inputs hparams g1 = (Ok time, g2) ->
        predict_all_derivatives ext inputs hparams g = stack_space_time space time g2).
Proof.
  apply (derivative_channel_convention example_externals (example_field 4)
           (tabulate [1; 4; 2] (fun idx => Qnat (ravel [1; 4; 2] idx)))
           (example_field 4) (example_hparams 0 0 false false)
           (example_equation false) 1 4); try reflexivity.
  compute_done.
Defined.

(* ================================================================== *)
(** * Calibration of the loss                                           *)
(* ================================================================== *)

Lemma Qpositive_spec x : Qpositive x = true <-> (0 < x)%Q.
Proof.
  unfold Qpositive. rewrite negb_true_iff. split.
  - intros H. apply Qnot_le_lt. intros Hle. apply Qle_bool_iff in Hle. congruence.
  - intros H. destruct (Qle_bool x 0) eqn:E; [|reflexivity].
    apply Qle_bool_iff in E. exfalso. apply (Qlt_not_le _ _ H E).
Qed.

Lemma qmaximum_lower a b : (b <= qmaximum a b)%Q.
Proof.
  unfold qmaximum. destruct (Qle_bool a b) eqn:E.
  - apply Qle_refl.
  - apply Qlt_le_weak. apply Qnot_le_lt. intros H. apply Qle_bool_iff in H. congruence.
Qed.

Lemma Qsquare_nonneg a : (0 <= a ^ 2)%Q.
Proof. simpl. unfold Qle, Qmult. simpl. nia. Qed.

Lemma in_range_3_intro d1 d2 d3 i j c :
  i < d1 -> j < d2 -> c < d3 -> in_range [d1; d2; d3] [i; j; c].
Proof. intros. repeat constructor; assumption. Qed.

Lemma flat_map_ext_in {A B} (f g : A -> list B) l :
  (forall a, In a l -> f a = g a) -> flat_map f l = flat_map g l.
Proof.
  induction l as [|a l IH]; intros H; simpl; [reflexivity|].
  rewrite H by (left; reflexivity). rewrite IH; [reflexivity|].
  intros a' Ha'. apply H. right. exact Ha'.
Qed.

Lemma valid_quantile q :
  (0 <= q)%Q -> (q <= 1)%Q ->
  Qle_bool 0 (100 * q / 100) && Qle_bool (100 * q / 100) 1 = true.
Proof.
  intros H0 H1.
  assert (E : (100 * q / 100 == q)%Q) by field.
  apply andb_true_intro. split; apply Qle_bool_iff; rewrite E; assumption.
Qed.

Lemma in_range_1 d1 c : c < d1 -> in_range [d1] [c].
Proof. intros. constructor; [assumption|constructor]. Qed.

Lemma in_range_2 d1 d2 h c : h < d1 -> c < d2 -> in_range [d1; d2] [h; c].
Proof. intros. constructor; [assumption|apply in_range_1; assumption]. Qed.

Lemma broadcast_index_channel d i j c :
  c < d -> broadcast_index [d] [i; j; c] = [c].
Proof.
  intros Hc. unfold broadcast_index. cbn.
  destruct (Nat.eqb_spec d 1); [f_equal; lia|reflexivity].
Qed.

(** Elementwise operations on arrays of one shape. *)
Lemma broadcast2_same_shape f a b sh :
  shape a = sh -> shape b = sh ->
  exists t, broadcast2 f a b = Ok t /\ shape t = sh
            /\ forall idx, in_range sh idx -> get t idx = f (get a idx) (get b idx).
Proof.
  intros Ha Hb. unfold broadcast2. rewrite Ha, Hb, broadcast_shapes_refl.
  eexists. split; [reflexivity|]. split; [reflexivity|].
  intros idx Hr. rewrite get_tabulate by assumption.
  rewrite broadcast_index_in_range by assumption. reflexivity.
Qed.

(** A per-channel array against a Python number. *)
Lemma broadcast2_scalar f a c d :
  shape a = [d] ->
  exists t, broadcast2 f a (scalar c) = Ok t /\ shape t = [d]
            /\ forall k, k < d -> get t [k] = f (get a [k]) c.
Proof.
  intros Ha. unfold broadcast2. rewrite Ha.
  change (shape (scalar c)) with (@nil nat).
  rewrite broadcast_shapes_scalar.
  eexists. split; [reflexivity|]. split; [reflexivity|].
  intros k Hk. rewrite get_tabulate by (apply in_range_1; assumption).
  rewrite broadcast_index_in_range by (apply in_range_1; assumption).
  change (broadcast_index [] [k]) with (@nil nat).
  unfold scalar. rewrite (get_tabulate [] _ []) by constructor. reflexivity.
Qed.

(** A [batch, x, channel] array against a per-channel array. *)
Lemma broadcast2_channels f a b n x d :
  shape a = [n; x; d] -> shape b = [d] ->
  exists t, broadcast2 f a b = Ok t /\ shape t = [n; x; d]
            /\ forall i j c, i < n -> j < x -> c < d ->
                 get t [i; j; c] = f (get a [i; j; c]) (get b [c]).
Proof.
  intros Ha Hb. unfold broadcast2. rewrite Ha, Hb.
  rewrite (broadcast_shapes_trailing n x [d]).
  eexists. split; [reflexivity|]. split; [reflexivity|].
  intros i j c Hi Hj Hc. rewrite get_tabulate by (apply in_range_3_intro; assumption).
  rewrite broadcast_index_in_range by (apply in_range_3_intro; assumption).
  rewrite broadcast_index_channel by assumption. reflexivity.
Qed.

Lemma get_np_square t idx :
  in_range (shape t) idx -> get (np_square t) idx = (get t idx ^ 2)%Q.
Proof. intros Hr. unfold np_square. apply get_tabulate. exact Hr. Qed.

Lemma np_percentile_axes01_channels t n x d p :
  shape t = [n; x; d] ->
  Qle_bool 0 (p / 100) && Qle_bool (p / 100) 1 = true ->
  exists r, np_percentile_axes01 t p = Ok r /\ shape r = [d]
            /\ forall c, c < d ->
                 get r [c] = quantile_linear (values_axes01 t n x [c]) (p / 100).
Proof.
  intros Ht Hp. unfold np_percentile_axes01. rewrite Hp, Ht.
  eexists. split; [reflexivity|]. split; [reflexivity|].
  intros c Hc. apply get_tabulate. apply in_range_1. assumption.
Qed.

Lemma np_stack2_components a b n x d :
  shape a = [n; x; d] -> shape b = [n; x; d] ->
  exists t, np_stack2 a b = Ok t /\ shape t = [2; n; x; d]
            /\ forall i j c, i < n -> j < x -> c < d ->
                 get t [0; i; j; c] = get a [i; j; c]
                 /\ get t [1; i; j; c] = get b [i; j; c].
Proof.
  intros Ha Hb. unfold np_stack2. rewrite Ha, Hb, decide_True by reflexivity.
  eexists. split; [reflexivity|]. split; [reflexivity|].
  intros i j c Hi Hj Hc.
  rewrite !get_tabulate by (apply in_range_4; lia). split; reflexivity.
Qed.

Lemma np_mean_axes12_components t n x d :
  shape t = [2; n; x; d] ->
  exists m, np_mean_axes12 t = Ok m /\ shape m = [2; d]
            /\ forall h c, h < 2 -> c < d ->
                 get m [h; c]
                 = (sum_upto n (fun i => sum_upto x (fun j => get t [h; i; j; c]))
                    / Qnat (n * x))%Q.
Proof.
  intros Ht. unfold np_mean_axes12. rewrite Ht.
  eexists. split; [reflexivity|]. split; [reflexivity|].
  intros h c Hh Hc. apply get_tabulate. apply in_range_2; assumption.
Qed.

Lemma np_reciprocal_positive x :
  Qpositive x = true -> np_reciprocal x = Finite (1 / x).
Proof.
  intros H. apply Qpositive_spec in H. unfold np_reciprocal.
  destruct (Qeq_bool x 0) eqn:E; [|reflexivity].
  apply Qeq_bool_eq in E. rewrite E in H. exfalso. exact (Qlt_irrefl _ H).
Qed.

(** Under its condition the selection never picks an inf: the entry
    selected is the reciprocal where the entry is positive, and 0
    elsewhere. *)
Lemma np_where_positive_selected x :
  np_where (Qpositive x) (np_reciprocal x) (Finite 0)
  = Finite (if Qpositive x then (1 / x)%Q else 0%Q).
Proof.
  unfold np_where. destruct (Qpositive x) eqn:E; [|reflexivity].
  apply np_reciprocal_positive. exact E.
Qed.

Lemma mapM_np_finite (l : list Q) : mapM np_finite (map Finite l) = Ok l.
Proof.
  induction l as [|a l IH]; [reflexivity|].
  cbn [map mapM]. cbn [np_finite mbind result_bind]. rewrite IH. reflexivity.
Qed.

(** [np.where(t > 0, 1.0 / t, 0)] always has a tensor to return. *)
Lemma np_where_positive_reciprocal_returns t :
  exists r,
    np_where_positive_reciprocal t = Ok r
    /\ shape r = shape t
    /\ length (data r) = length (data t)
    /\ (forall idx,
          get r idx = if Qpositive (get t idx) then (1 / get t idx)%Q else 0%Q)
    /\ (forall idx,
          Finite (get r idx)
          = np_where (Qpositive (get t idx)) (np_reciprocal (get t idx)) (Finite 0)).
Proof.
  set (f := fun x : Q => if Qpositive x then (1 / x)%Q else 0%Q).
  assert (Hsel : zip_with (fun c r => np_where c r (Finite 0))
                   (map Qpositive (data t)) (map np_reciprocal (data t))
                 = map Finite (map f (data t))).
  { induction (data t) as [|a l IH]; [reflexivity|].
    cbn [map zip_with]. rewrite IH, np_where_positive_selected. reflexivity. }
  assert (Hget : forall idx,
            get {| shape := shape t; data := map f (data t) |} idx = f (get t idx)).
  { intros idx. unfold get. cbn [shape data].
    change 0%Q with (f 0%Q) at 1. apply map_nth. }
  exists {| shape := shape t; data := map f (data t) |}.
  split; [|split; [reflexivity|split; [apply length_map|split]]].
  - unfold np_where_positive_reciprocal. cbv zeta. rewrite Hsel, mapM_np_finite.
    reflexivity.
  - exact Hget.
  - intros idx. rewrite np_where_positive_selected, Hget. reflexivity.
Qed.

(** What [determine_loss_scales] computes, entry by entry. *)
Lemma determine_loss_scales_calibration data hparams n x d :
  shape (labels data) = [n; x; d] ->
  shape (baseline data) = [n; x; d] ->
  (0 <= error_floor_quantile hparams)%Q ->
  (error_floor_quantile hparams <= 1)%Q ->
  exists error_floor error_scale model_error relative_error,
    determine_loss_scales data hparams = Ok (error_floor, error_scale)
    /\ loss_components (np_zeros_like (labels data)) (labels data) (baseline data)
         error_floor = Ok (model_error, relative_error)
    /\ shape error_floor = [d]
    /\ shape error_scale = [2; d]
    /\ (forall c, c < d ->
          get error_floor [c]
          = qmaximum (quantile_linear (squared_baseline_errors data n x c)
                        (configured_quantile hparams))
                     error_floor_minimum)
    /\ (forall i j c, i < n -> j < x -> c < d ->
          get model_error [i; j; c] = ((get (labels data) [i; j; c] - 0) ^ 2)%Q
          /\ get relative_error [i; j; c]
             = (get model_error [i; j; c]
                / ((get (labels data) [i; j; c] - get (baseline data) [i; j; c]) ^ 2
                   + get error_floor [c]))%Q)
    /\ (forall c, c < d ->
          get error_scale [0; c]
          = (if Qpositive (dataset_mean model_error n x c)
             then (1 / dataset_mean model_error n x c)%Q else 0%Q)
          /\ get error_scale [1; c]
             = (if Qpositive (dataset_mean relative_error n x c)
                then (1 / dataset_mean relative_error n x c)%Q else 0%Q)).
Proof.
  intros HL HB Hq0 Hq1.
  destruct (broadcast2_same_shape Qminus (labels data) (baseline data) _ HL HB)
    as (diff & Ediff & Sdiff & Gdiff).
  assert (Ssq : shape (np_square diff) = [n; x; d]) by exact Sdiff.
  destruct (np_percentile_axes01_channels (np_square diff) n x d
              (100 * error_floor_quantile hparams) Ssq (valid_quantile _ Hq0 Hq1))
    as (quantiles & Equant & Squant & Gquant).
  destruct (broadcast2_scalar qmaximum quantiles error_floor_minimum d Squant)
    as (error_floor & Efloor & Sfloor & Gfloor).
  destruct (broadcast2_same_shape Qminus (labels data) (np_zeros_like (labels data))
              [n; x; d] HL HL)
    as (diff0 & Ediff0 & Sdiff0 & Gdiff0).
  assert (Sme : shape (np_square diff0) = [n; x; d]) by exact Sdiff0.
  destruct (broadcast2_channels Qplus (np_square diff) error_floor n x d Ssq Sfloor)
    as (denominator & Eden & Sden & Gden).
  destruct (broadcast2_same_shape Qdiv (np_square diff0) denominator _ Sme Sden)
    as (relative_error & Erel & Srel & Grel).
  destruct (np_stack2_components (np_square diff0) relative_error n x d Sme Srel)
    as (components & Estack & Sstack & Gstack).
  destruct (np_mean_axes12_components components n x d Sstack)
    as (means & Emeans & Smeans & Gmeans).
  assert (Eloss : loss_components (np_zeros_like (labels data)) (labels data)
                    (baseline data) error_floor
                  = Ok (np_square diff0, relative_error)).
  { unfold loss_components, np_sub, np_add, np_div.
    rewrite Ediff0. cbn [mbind result_bind]. rewrite Ediff. cbn [mbind result_bind].
    rewrite Eden. cbn [mbind result_bind]. rewrite Erel. reflexivity. }
  destruct (np_where_positive_reciprocal_returns means)
    as (scale & Escale & Sscale & _ & Gscale & _).
  exists error_floor, scale, (np_square diff0), relative_error.
  assert (Hsq : forall i j c, i < n -> j < x -> c < d ->
            get (np_square diff) [i; j; c]
            = ((get (labels data) [i; j; c] - get (baseline data) [i; j; c]) ^ 2)%Q).
  { intros i j c Hi Hj Hc.
    rewrite get_np_square by (rewrite Sdiff; apply in_range_3_intro; assumption).
    rewrite Gdiff by (apply in_range_3_intro; assumption). reflexivity. }
  assert (Hscale : forall h comp c, h < 2 -> c < d ->
            (forall i j, i < n -> j < x -> get components [h; i; j; c] = get comp [i; j; c]) ->
            get scale [h; c]
            = (if Qpositive (dataset_mean comp n x c)
               then (1 / dataset_mean comp n x c)%Q else 0%Q)).
  { intros h comp c Hh Hc Hcomp. rewrite Gscale.
    assert (E : get means [h; c] = dataset_mean comp n x c).
    { rewrite Gmeans by assumption. unfold dataset_mean. f_equal.
      apply sum_upto_ext. intros i Hi. apply sum_upto_ext. intros j Hj.
      apply Hcomp; assumption. }
    rewrite E. reflexivity. }
  split; [|split; [exact Eloss|]].
  { unfold determine_loss_scales, np_sub, np_maximum.
    rewrite Ediff. cbn [mbind result_bind]. rewrite Equant. cbn [mbind result_bind].
    rewrite Efloor. cbn [mbind result_bind]. rewrite Eloss. cbn [mbind result_bind].
    rewrite Estack. cbn [mbind result_bind]. rewrite Emeans. cbn [mbind result_bind].
    rewrite Escale. reflexivity. }
  split; [exact Sfloor|]. split; [rewrite Sscale; exact Smeans|].
  split; [|split].
  - intros c Hc. rewrite Gfloor, Gquant by assumption.
    f_equal. f_equal. unfold values_axes01, squared_baseline_errors.
    apply flat_map_ext_in. intros i Hi. apply in_seq in Hi.
    apply map_ext_in. intros j Hj. apply in_seq in Hj.
    apply Hsq; lia.
  - intros i j c Hi Hj Hc. split.
    + rewrite get_np_square by (rewrite Sdiff0; apply in_range_3_intro; assumption).
      rewrite Gdiff0 by (apply in_range_3_intro; assumption).
      unfold np_zeros_like, zeros. rewrite HL.
      rewrite (get_tabulate [n; x; d]) by (apply in_range_3_intro; assumption).
      reflexivity.
    + rewrite Grel by (apply in_range_3_intro; assumption).
      rewrite Gden, Hsq by assumption. reflexivity.
  - intros c Hc. split.
    + apply (Hscale 0 (np_square diff0) c); [lia|assumption|].
      intros i j Hi Hj. apply Gstack; assumption.
    + apply (Hscale 1 relative_error c); [lia|assumption|].
      intros i j Hi Hj. apply Gstack; assumption.
Qed.

(** C6. On a non-empty [batch, x, channel] dataset and for a quantile in
    [0, 1], [determine_loss_scales] returns.  The error floor of each
    channel is the larger of the configured quantile of the baseline's
    squared errors and 1e-12, hence positive; so every denominator
    [baseline_error + error_floor] of [loss_components] is positive.  A
    head and channel whose mean zero-prediction error is not positive gets
    the scale 0.  Every scale is the entry [np.where] selects between the
    reciprocal of the mean and 0, and it is a number: where the mean is
    zero the reciprocal NumPy has computed is inf, and it is the 0 that is
    selected. *)
Theorem determine_loss_scales_degenerate_data
    (data : LoadedData) (hparams : HParams) (n x d : nat) :
  shape (labels data) = [n; x; d] ->
  shape (baseline data) = [n; x; d] ->
  0 < n -> 0 < x ->
  (0 <= error_floor_quantile hparams)%Q ->
  (error_floor_quantile hparams <= 1)%Q ->
  exists error_floor error_scale model_error relative_error,
    determine_loss_scales data hparams = Ok (error_floor, error_scale)
    /\ loss_components (np_zeros_like (labels data)) (labels data) (baseline data)
         error_floor = Ok (model_error, relative_error)
    /\ shape error_floor = [d]
    /\ (forall c, c < d ->
          get error_floor [c]
          = qmaximum (quantile_linear (squared_baseline_errors data n x c)
                        (configured_quantile hparams))
                     error_floor_minimum
          /\ (0 < get error_floor [c])%Q)
    /\ (forall i j c, i < n -> j < x -> c < d ->
          (0 < (get (labels data) [i; j; c] - get (baseline data) [i; j; c]) ^ 2
               + get error_floor [c])%Q
          /\ get relative_error [i; j; c]
             = (get model_error [i; j; c]
                / ((get (labels data) [i; j; c] - get (baseline data) [i; j; c]) ^ 2
                   + get error_floor [c]))%Q)
    /\ (forall c, c < d ->
          (~ (0 < dataset_mean model_error n x c)%Q -> get error_scale [0; c] = 0%Q)
          /\ (~ (0 < dataset_mean relative_error n x c)%Q ->
              get error_scale [1; c] = 0%Q))
    /\ (forall c, c < d ->
          Finite (get error_scale [0; c])
          = np_where (Qpositive (dataset_mean model_error n x c))
              (np_reciprocal (dataset_mean model_error n x c)) (Finite 0)
          /\ Finite (get error_scale [1; c])
             = np_where (Qpositive (dataset_mean relative_error n x c))
                 (np_reciprocal (dataset_mean relative_error n x c)) (Finite 0)
          /\ ((dataset_mean model_error n x c == 0)%Q ->
              np_reciprocal (dataset_mean model_error n x c) = Infinite)
          /\ ((dataset_mean relative_error n x c == 0)%Q ->
              np_reciprocal (dataset_mean relative_error n x c) = Infinite)).
Proof.
  intros HL HB _ _ Hq0 Hq1.
  destruct (determine_loss_scales_calibration data hparams n x d HL HB Hq0 Hq1)
    as (error_floor & error_scale & model_error & relative_error
        & Hrun & Hloss & Sfloor & _ & Gfloor & Gloss & Gscale).
  assert (Hpos : forall c, c < d -> (0 < get error_floor [c])%Q).
  { intros c Hc. rewrite Gfloor by assumption.
    eapply Qlt_le_trans; [|apply qmaximum_lower]. reflexivity. }
  exists error_floor, error_scale, model_error, relative_error.
  split; [exact Hrun|]. split; [exact Hloss|]. split; [exact Sfloor|].
  split; [|split; [|split]].
  - intros c Hc. split; [apply Gfloor; assumption|apply Hpos; assumption].
  - intros i j c Hi Hj Hc. split.
    + apply (Qlt_le_trans _ (0 + get error_floor [c])).
      * rewrite Qplus_0_l. apply Hpos. assumption.
      * apply (proj2 (Qplus_le_l _ _ _)). apply Qsquare_nonneg.
    + apply Gloss; assumption.
  - intros c Hc. destruct (Gscale c Hc) as [G0 G1]. split.
    + intros Hn. rewrite G0.
      destruct (Qpositive (dataset_mean model_error n x c)) eqn:E; [|reflexivity].
      apply Qpositive_spec in E. contradiction.
    + intros Hn. rewrite G1.
      destruct (Qpositive (dataset_mean relative_error n x c)) eqn:E; [|reflexivity].
      apply Qpositive_spec in E. contradiction.
  - intros c Hc. destruct (Gscale c Hc) as [G0 G1].
    rewrite G0, G1, !np_where_positive_selected.
    split; [reflexivity|]. split; [reflexivity|].
    split; intros Hz; unfold np_reciprocal; rewrite (Qeq_eq_bool _ _ Hz); reflexivity.
Qed.

(** C2. On a [batch, x, channel] dataset and for a quantile in [0, 1],
    [determine_loss_scales] returns an error scale such that, for each
    channel and for the absolute and the relative head alike, the mean over
    the dataset of that component of [loss_components] under all-zero
    predictions, times the matching entry of the scale, is 1 -- whenever
    that mean is positive. *)
Theorem determine_loss_scales_unit_loss
    (data : LoadedData) (hparams : HParams) (n x d : nat) :
  shape (labels data) = [n; x; d] ->
  shape (baseline data) = [n; x; d] ->
  (0 <= error_floor_quantile hparams)%Q ->
  (error_floor_quantile hparams <= 1)%Q ->
  exists error_floor error_scale model_error relative_error,
    determine_loss_scales data hparams = Ok (error_floor, error_scale)
    /\ loss_components (np_zeros_like (labels data)) (labels data) (baseline data)
         error_floor = Ok (model_error, relative_error)
    /\ shape error_scale = [2; d]
    /\ forall c, c < d ->
         ((0 < dataset_mean model_error n x c)%Q ->
          (dataset_mean model_error n x c * get error_scale [0%nat; c] == 1)%Q)
         /\ ((0 < dataset_mean relative_error n x c)%Q ->
             (dataset_mean relative_error n x c * get error_scale [1%nat; c] == 1)%Q).
Proof.
  intros HL HB Hq0 Hq1.
  destruct (determine_loss_scales_calibration data hparams n x d HL HB Hq0 Hq1)
    as (error_floor & error_scale & model_error & relative_error
        & Hrun & Hloss & _ & Sscale & _ & _ & Gscale).
  exists error_floor, error_scale, model_error, relative_error.
  split; [exact Hrun|]. split; [exact Hloss|]. split; [exact Sscale|].
  intros c Hc. destruct (Gscale c Hc) as [G0 G1]. split.
  - intros Hpos. rewrite G0.
    rewrite (proj2 (Qpositive_spec _) Hpos).
    field. intros Hz. rewrite Hz in Hpos. apply (Qlt_irrefl _ Hpos).
  - intros Hpos. rewrite G1.
    rewrite (proj2 (Qpositive_spec _) Hpos).
    field. intros Hz. rewrite Hz in Hpos. apply (Qlt_irrefl _ Hpos).
Qed.

Lemma determine_loss_scales_degenerate_data_witness :
  exists error_floor error_scale model_error relative_error,
    determine_loss_scales degenerate_data (example_hparams 3 2 false true)
    = Ok (error_floor, error_scale)
    /\ loss_components (np_zeros_like (labels degenerate_data)) (labels degenerate_data)
         (baseline degenerate_data) error_floor = Ok (model_error, relative_error)
    /\ shape error_floor = [2]
    /\ (forall c, c < 2 ->
          get error_floor [c]
          = qmaximum (quantile_linear (squared_baseline_errors degenerate_data 2 2 c)
                        (configured_quantile (example_hparams 3 2 false true)))
                     error_floor_minimum
          /\ (0 < get error_floor [c])%Q)
    /\ (forall i j c, i < 2 -> j < 2 -> c < 2 ->
          (0 < (get (labels degenerate_data) [i; j; c]
                - get (baseline degenerate_data) [i; j; c]) ^ 2
               + get error_floor [c])%Q
          /\ get relative_error [i; j; c]
             = (get model_error [i; j; c]
                / ((get (labels degenerate_data) [i; j; c]
                    - get (baseline degenerate_data) [i; j; c]) ^ 2
                   + get error_floor [c]))%Q)
    /\ (forall c, c < 2 ->
          (~ (0 < dataset_mean model_error 2 2 c)%Q -> get error_scale [0; c] = 0%Q)
          /\ (~ (0 < dataset_mean relative_error 2 2 c)%Q ->
              get error_scale [1; c] = 0%Q))
    /\ (forall c, c < 2 ->
          Finite (get error_scale [0; c])
          = np_where (Qpositive (dataset_mean model_error 2 2 c))
              (np_reciprocal (dataset_mean model_error 2 2 c)) (Finite 0)
          /\ Finite (get error_scale [1; c])
             = np_where (Qpositive (dataset_mean relative_error 2 2 c))
                 (np_reciprocal (dataset_mean relative_error 2 2 c)) (Finite 0)
          /\ ((dataset_mean model_error 2 2 c == 0)%Q ->
              np_reciprocal (dataset_mean model_error 2 2 c) = Infinite)
          /\ ((dataset_mean relative_error 2 2 c == 0)%Q ->
              np_reciprocal (dataset_mean relative_error 2 2 c) = Infinite)).
Proof.
  apply (determine_loss_scales_degenerate_data degenerate_data
           (example_hparams 3 2 false true) 2 2 2);
    try reflexivity; try lia; unfold Qle; simpl; lia.
Defined.

Lemma determine_loss_scales_unit_loss_witness :
  exists error_floor error_scale model_error relative_error,
    determine_loss_scales example_data (example_hparams 3 2 false true)
    = Ok (error_floor, error_scale)
    /\ loss_components (np_zeros_like (labels example_data)) (labels example_data)
         (baseline example_data) error_floor = Ok (model_error, relative_error)
    /\ shape error_scale = [2; 2]
    /\ forall c, c < 2 ->
         ((0 < dataset_mean model_error 2 2 c)%Q ->
          (dataset_mean model_error 2 2 c * get error_scale [0%nat; c] == 1)%Q)
         /\ ((0 < dataset_mean relative_error 2 2 c)%Q ->
             (dataset_mean relative_error 2 2 c * get error_scale [1%nat; c] == 1)%Q).
Proof.
  apply (determine_loss_scales_unit_loss example_data
           (example_hparams 3 2 false true) 2 2 2);
    try reflexivity; unfold Qle; simpl; lia.
Defined.

Example quantile_linear_examples :
  map Qred [quantile_linear [1; 2; 3; 4; 5]%Q (1 # 2);
            quantile_linear [5; 1; 4; 2]%Q (1 # 10);
            quantile_linear [5; 1; 4; 2]%Q 1]
  = [3; 13 # 10; 5]%Q.
Proof. vm_compute. reflexivity. Qed.

(** On the degenerate dataset the floor is 1e-12 in both channels, and the
    all-zero channel gets the scale 0 in both heads. *)
Example determine_loss_scales_degenerate :
  match determine_loss_scales degenerate_data (example_hparams 3 2 false true) with
  | Ok (error_floor, error_scale) =>
      Some (map Qred (data error_floor), map Qred (data error_scale))
  | Raise _ => None
  end
  = Some ([1 # 1000000000000; 1 # 1000000000000]%Q,
          [2 # 5; 0; 1 # 2500000000000; 0]%Q).
Proof. vm_compute. reflexivity. Qed.

(* ================================================================== *)
(** * More on resampling                                                *)
(* ================================================================== *)

Lemma qsum_app l1 l2 : (qsum (l1 ++ l2) == qsum l1 + qsum l2)%Q.
Proof.
  induction l1 as [|a l1 IH]; simpl.
  - ring.
  - rewrite IH. ring.
Qed.

Lemma sum_upto_S n h : (sum_upto (S n) h == sum_upto n h + h n)%Q.
Proof.
  unfold sum_upto. rewrite seq_S, map_app, qsum_app. simpl. ring.
Qed.

Lemma sum_upto_add a b g :
  (sum_upto (a + b)%nat g == sum_upto a g + sum_upto b (fun k => g (a + k)%nat))%Q.
Proof.
  induction b as [|b IH].
  - rewrite Nat.add_0_r. unfold sum_upto at 3. simpl. ring.
  - rewrite Nat.add_succ_r, !sum_upto_S, IH. ring.
Qed.

Lemma sum_upto_eq n f g :
  (forall k, k < n -> (f k == g k)%Q) -> (sum_upto n f == sum_upto n g)%Q.
Proof.
  induction n as [|n IH]; intros H.
  - reflexivity.
  - rewrite !sum_upto_S, IH by (intros; apply H; lia). rewrite (H n) by lia. reflexivity.
Qed.

(** A sum over [m] blocks of [f] entries. *)
Lemma sum_upto_blocks m f g :
  (sum_upto (m * f)%nat g
   == sum_upto m (fun j => sum_upto f (fun k => g (f * j + k)%nat)))%Q.
Proof.
  induction m as [|m IH].
  - reflexivity.
  - rewrite sum_upto_S, <- IH.
    replace (S m * f) with (m * f + f) by lia.
    rewrite sum_upto_add. apply Qplus_comp; [reflexivity|].
    apply sum_upto_eq. intros k _. replace (m * f + k) with (f * m + k) by lia.
    reflexivity.
Qed.

Lemma sum_upto_scale n f c : (sum_upto n (fun k => f k * c) == sum_upto n f * c)%Q.
Proof.
  induction n as [|n IH].
  - unfold sum_upto. simpl. ring.
  - rewrite !sum_upto_S, IH. ring.
Qed.

(** What [resample_mean] returns on a field it accepts. *)
Lemma resample_mean_returns t b w factor :
  shape t = [b; w] -> 0 < w -> (0 < factor)%Z -> (factor | Z.of_nat w)%Z ->
  exists r,
    runs (resample_mean t factor) (Ok r) [OpReshape; OpMean]
    /\ shape r = [b; w / Z.to_nat factor]
    /\ wf r
    /\ forall i j, i < b -> j < w / Z.to_nat factor ->
         get r [i; j]
         = mean_upto (Z.to_nat factor) (fun k => get t [i; Z.to_nat factor * j + k]).
Proof.
  intros Hsh Hw Hf Hd.
  destruct (resample_mean_runs_divisible t b w factor Hsh Hw Hf Hd) as [Hrun Hsh'].
  eexists. split; [exact Hrun|]. split; [reflexivity|]. split.
  - unfold reduce_mean_axis. apply wf_tabulate.
  - intros i j Hi Hj. apply get_block_mean; assumption.
Qed.

Lemma divide_nat factor w :
  (0 < factor)%Z -> (factor | Z.of_nat w)%Z ->
  w = w / Z.to_nat factor * Z.to_nat factor.
Proof.
  intros Hf [q Hq].
  assert (Hw : w = Z.to_nat q * Z.to_nat factor) by nia.
  rewrite Hw at 2. rewrite Nat.div_mul by lia. exact Hw.
Qed.

Lemma slice_indices_positive w s :
  0 < s -> slice_indices (w * s) (Z.of_nat s) = map (fun j => j * s) (seq 0 w).
Proof.
  intros Hs. unfold slice_indices.
  destruct (Z.ltb_spec 0 (Z.of_nat s)); [|lia].
  rewrite Nat2Z.id. do 2 f_equal.
  replace (w * s + s - 1) with (s - 1 + w * s) by lia.
  rewrite Nat.div_add by lia. rewrite Nat.div_small by lia. reflexivity.
Qed.

Lemma nth_map_seq {A} (h : nat -> A) m j d :
  j < m -> nth j (map h (seq 0 m)) d = h j.
Proof.
  intros Hj. transitivity (nth j (map h (seq 0 m)) (h 0)).
  - apply nth_indep. rewrite length_map, length_seq. exact Hj.
  - rewrite map_nth, seq_nth by exact Hj. reflexivity.
Qed.

(** What [subsample] returns on a field it accepts. *)
Lemma subsample_returns t b w factor :
  shape t = [b; w] -> (0 < factor)%Z -> (factor | Z.of_nat w)%Z ->
  exists r,
    runs (subsample t factor) (Ok r) [OpStridedSlice]
    /\ shape r = [b; w / Z.to_nat factor]
    /\ wf r
    /\ forall i j, i < b -> j < w / Z.to_nat factor ->
         get r [i; j] = get t [i; Z.to_nat factor * j].
Proof.
  intros Hsh Hf Hd.
  pose proof (divide_nat factor w Hf Hd) as Hw.
  remember (Z.to_nat factor) as f eqn:Ef. remember (w / f) as m eqn:Em.
  assert (Hfz : factor = Z.of_nat f) by lia.
  assert (Hinv : invalid_input_shape t factor = Ok false).
  { unfold invalid_input_shape, rank, dim, py_mod. rewrite Hsh. simpl.
    destruct (Z.eqb_spec factor 0); [lia|]. simpl.
    rewrite Hw, Hfz, Nat2Z.inj_mul, Z.mod_mul by lia. reflexivity. }
  unfold subsample. rewrite Hinv.
  assert (Hcols : slice_indices w factor = map (fun j => j * f) (seq 0 m)).
  { rewrite Hw, Hfz. apply slice_indices_positive. lia. }
  eexists. split; [|split; [|split]].
  - apply (runs_bind_ok _ _ false [] _ [OpStridedSlice]); [apply runs_py|].
    unfold tf_strided_columns. rewrite Hsh. apply runs_op.
  - cbn [shape tabulate]. rewrite Hcols, length_map, length_seq. reflexivity.
  - apply wf_tabulate.
  - intros i j Hi Hj.
    rewrite get_tabulate
      by (rewrite Hcols, length_map, length_seq; apply in_range_2; assumption).
    rewrite Hcols. f_equal.
    rewrite nth_map_seq by assumption. rewrite (Nat.mul_comm j f). reflexivity.
Qed.

(** X1. On a [batch, W] field whose width the positive factor evenly
    divides, [subsample] returns the [batch, W // factor] tensor that keeps
    every [factor]-th value of each row, starting with the first. *)
Theorem subsample_keeps_every_factor_th (t : tensor) (b w : nat) (factor : Z) :
  shape t = [b; w] -> (0 < factor)%Z -> (factor | Z.of_nat w)%Z ->
  exists r,
    outcome (subsample t factor) = Ok r
    /\ invoked (subsample t factor) = [OpStridedSlice]
    /\ shape r = [b; w / Z.to_nat factor]
    /\ forall i j, i < b -> j < w / Z.to_nat factor ->
         get r [i; j] = get t [i; Z.to_nat factor * j].
Proof.
  intros Hsh Hf Hd.
  destruct (subsample_returns t b w factor Hsh Hf Hd) as (r & Hrun & Hshape & _ & Hget).
  exists r. split; [eapply runs_outcome; exact Hrun|].
  split; [eapply runs_invoked; exact Hrun|]. split; assumption.
Qed.

Lemma subsample_keeps_every_factor_th_witness :
  exists r,
    outcome (subsample (example_field 16) 4) = Ok r
    /\ invoked (subsample (example_field 16) 4) = [OpStridedSlice]
    /\ shape r = [1; 4]
    /\ forall i j, i < 1 -> j < 4 ->
         get r [i; j] = get (example_field 16) [i; 4 * j].
Proof.
  apply (subsample_keeps_every_factor_th (example_field 16) 1 16 4).
  - reflexivity.
  - lia.
  - exists 4%Z. reflexivity.
Defined.

Lemma mean_upto_blocks m f g :
  0 < f ->
  (mean_upto m (fun j => mean_upto f (fun k => g (f * j + k)%nat))
   == mean_upto (m * f) g)%Q.
Proof.
  intros Hf. unfold mean_upto.
  destruct m as [|m].
  - unfold sum_upto, Qnat. simpl. reflexivity.
  - rewrite sum_upto_blocks.
    assert (E : (sum_upto (S m) (fun j => sum_upto f (fun k => g (f * j + k)%nat) / Qnat f)
                 == sum_upto (S m) (fun j => sum_upto f (fun k => g (f * j + k)%nat))
                    * / Qnat f)%Q).
    { rewrite <- sum_upto_scale. apply sum_upto_eq. intros j _. reflexivity. }
    rewrite E. unfold Qnat. rewrite Nat2Z.inj_mul, inject_Z_mult.
    field. split; apply (Qnat_nonzero); lia.
Qed.

(** X2. Block averaging preserves the mean of every row: the mean of a row
    of [resample_mean]'s output is the mean of the same row of its input. *)
Theorem resample_mean_preserves_row_mean (t : tensor) (b w : nat) (factor : Z) :
  shape t = [b; w] -> 0 < w -> (0 < factor)%Z -> (factor | Z.of_nat w)%Z ->
  exists r,
    outcome (resample_mean t factor) = Ok r
    /\ forall i, i < b ->
         (mean_upto (w / Z.to_nat factor) (fun j => get r [i; j])
          == mean_upto w (fun x => get t [i; x]))%Q.
Proof.
  intros Hsh Hw Hf Hd.
  destruct (resample_mean_returns t b w factor Hsh Hw Hf Hd)
    as (r & Hrun & Hshape & _ & Hget).
  exists r. split; [eapply runs_outcome; exact Hrun|].
  intros i Hi.
  pose proof (divide_nat factor w Hf Hd) as Hwm.
  rewrite (mean_upto_ext _ _
             (fun j => mean_upto (Z.to_nat factor)
                         (fun k => get t [i; Z.to_nat factor * j + k])))
    by (intros j Hj; apply Hget; assumption).
  rewrite (mean_upto_blocks _ _ (fun x => get t [i; x])) by lia.
  rewrite <- Hwm. reflexivity.
Qed.

Lemma resample_mean_preserves_row_mean_witness :
  exists r,
    outcome (resample_mean (example_field 16) 4) = Ok r
    /\ forall i, i < 1 ->
         (mean_upto 4 (fun j => get r [i; j])
          == mean_upto 16 (fun x => get (example_field 16) [i; x]))%Q.
Proof.
  apply (resample_mean_preserves_row_mean (example_field 16) 1 16 4).
  - reflexivity.
  - lia.
  - lia.
  - exists 4%Z. reflexivity.
Defined.

Lemma mean_upto_one h : (mean_upto 1 h == h 0%nat)%Q.
Proof. unfold mean_upto, sum_upto, Qnat. simpl. field. Qed.

(** X3. The factor 1 resamples nothing: [subsample] returns its input, and
    [resample_mean] returns a tensor of the same shape with the same
    values. *)
Theorem resample_factor_one (t : tensor) (b w : nat) :
  shape t = [b; w] -> wf t -> 0 < w ->
  outcome (subsample t 1) = Ok t
  /\ exists r,
       outcome (resample_mean t 1) = Ok r
       /\ shape r = [b; w]
       /\ forall i j, i < b -> j < w -> (get r [i; j] == get t [i; j])%Q.
Proof.
  intros Hsh Hwf Hw.
  assert (Hd : (1 | Z.of_nat w)%Z) by apply Z.divide_1_l.
  split.
  - destruct (subsample_returns t b w 1 Hsh ltac:(lia) Hd)
      as (r & Hrun & Hshape & Hwfr & Hget).
    change (Z.to_nat 1) with 1 in *. rewrite Nat.div_1_r in *.
    rewrite (runs_outcome _ _ _ Hrun). f_equal.
    apply tensor_ext; try assumption; [congruence|].
    intros idx Hr. rewrite Hshape in Hr.
    inversion Hr as [|i ? idx1 ? Hi H1]; subst.
    inversion H1 as [|j ? idx2 ? Hj H2]; subst.
    inversion H2; subst.
    rewrite Hget by assumption. rewrite Nat.mul_1_l. reflexivity.
  - destruct (resample_mean_returns t b w 1 Hsh Hw ltac:(lia) Hd)
      as (r & Hrun & Hshape & _ & Hget).
    change (Z.to_nat 1) with 1 in *. rewrite Nat.div_1_r in *.
    exists r. split; [eapply runs_outcome; exact Hrun|]. split; [exact Hshape|].
    intros i j Hi Hj. rewrite Hget by assumption. rewrite mean_upto_one.
    replace (1 * j + 0) with j by lia. reflexivity.
Qed.

Lemma resample_factor_one_witness :
  outcome (subsample (example_field 5) 1) = Ok (example_field 5)
  /\ exists r,
       outcome (resample_mean (example_field 5) 1) = Ok r
       /\ shape r = [1; 5]
       /\ forall i j, i < 1 -> j < 5 ->
            (get r [i; j] == get (example_field 5) [i; j])%Q.
Proof.
  apply (resample_factor_one (example_field 5) 1 5).
  - reflexivity.
  - reflexivity.
  - lia.
Defined.

Lemma divide_product_nat f g w :
  (0 < f)%Z -> (0 < g)%Z -> (f * g | Z.of_nat w)%Z ->
  (f | Z.of_nat w)%Z
  /\ (g | Z.of_nat (w / Z.to_nat f))%Z
  /\ Z.to_nat (f * g) = Z.to_nat f * Z.to_nat g
  /\ w / Z.to_nat f / Z.to_nat g = w / Z.to_nat (f * g)
  /\ w = w / Z.to_nat (f * g) * (Z.to_nat f * Z.to_nat g).
Proof.
  intros Hf Hg [q Hq].
  assert (Hw : w = Z.to_nat q * (Z.to_nat f * Z.to_nat g)) by nia.
  assert (Hfg : Z.to_nat (f * g) = Z.to_nat f * Z.to_nat g) by lia.
  assert (Hq1 : w / Z.to_nat f = Z.to_nat q * Z.to_nat g).
  { rewrite Hw. replace (Z.to_nat q * (Z.to_nat f * Z.to_nat g))
      with (Z.to_nat q * Z.to_nat g * Z.to_nat f) by lia.
    apply Nat.div_mul. lia. }
  assert (Hq2 : w / Z.to_nat (f * g) = Z.to_nat q).
  { rewrite Hfg. rewrite Hw at 1. apply Nat.div_mul. lia. }
  split; [exists (q * g)%Z; lia|].
  split; [exists (Z.of_nat (Z.to_nat q)); rewrite Hq1; lia|].
  split; [exact Hfg|].
  split.
  - rewrite Hq1, Hq2. apply Nat.div_mul. lia.
  - rewrite Hq2. exact Hw.
Qed.

Lemma in_range_2_inv d1 d2 idx :
  in_range [d1; d2] idx -> exists i j, idx = [i; j] /\ i < d1 /\ j < d2.
Proof.
  intros H. inversion H as [|i ? idx1 ? Hi H1]; subst.
  inversion H1 as [|j ? idx2 ? Hj H2]; subst.
  inversion H2; subst. exists i, j. auto.
Qed.

(** X4. Subsampling by [f] and then by [g] is subsampling by [f * g]. *)
Theorem subsample_compose (t : tensor) (b w : nat) (f g : Z) :
  shape t = [b; w] -> (0 < f)%Z -> (0 < g)%Z -> (f * g | Z.of_nat w)%Z ->
  exists r1 r2,
    outcome (subsample t f) = Ok r1
    /\ outcome (subsample r1 g) = Ok r2
    /\ outcome (subsample t (f * g)) = Ok r2.
Proof.
  intros Hsh Hf Hg Hd.
  destruct (divide_product_nat f g w Hf Hg Hd) as (Hdf & Hdg & Hfg & Hdiv & Hw).
  destruct (subsample_returns t b w f Hsh Hf Hdf) as (r1 & Hrun1 & Hsh1 & Hwf1 & Hget1).
  destruct (subsample_returns r1 b _ g Hsh1 Hg Hdg) as (r2 & Hrun2 & Hsh2 & Hwf2 & Hget2).
  destruct (subsample_returns t b w (f * g) Hsh ltac:(lia) Hd)
    as (r12 & Hrun12 & Hsh12 & Hwf12 & Hget12).
  exists r1, r2. split; [eapply runs_outcome; exact Hrun1|].
  split; [eapply runs_outcome; exact Hrun2|].
  rewrite (runs_outcome _ _ _ Hrun12). f_equal.
  apply tensor_ext; try assumption; [congruence|].
  intros idx Hr. rewrite Hsh12 in Hr.
  destruct (in_range_2_inv _ _ _ Hr) as (i & j & -> & Hi & Hj).
  rewrite Hget12 by assumption.
  rewrite Hget2 by (try assumption; rewrite Hdiv; assumption).
  rewrite Hget1.
  - rewrite Hfg. do 3 f_equal. lia.
  - assumption.
  - apply (Nat.mul_lt_mono_pos_l (Z.to_nat f)); [lia|].
    pose proof (divide_nat f w Hf Hdf) as Hwf.
    pose proof (divide_nat g _ Hg Hdg) as Hwg.
    rewrite Hdiv in Hwg. nia.
Qed.

Lemma subsample_compose_witness :
  exists r1 r2,
    outcome (subsample (example_field 12) 2) = Ok r1
    /\ outcome (subsample r1 3) = Ok r2
    /\ outcome (subsample (example_field 12) (2 * 3)) = Ok r2.
Proof.
  apply (subsample_compose (example_field 12) 1 12 2 3).
  - reflexivity.
  - lia.
  - lia.
  - exists 2%Z. reflexivity.
Defined.

(** X5. Block averaging by [f] and then by [g] is block averaging by
    [f * g]: a mean of means over equal blocks. *)
Theorem resample_mean_compose (t : tensor) (b w : nat) (f g : Z) :
  shape t = [b; w] -> 0 < w -> (0 < f)%Z -> (0 < g)%Z -> (f * g | Z.of_nat w)%Z ->
  exists r1 r2 r12,
    outcome (resample_mean t f) = Ok r1
    /\ outcome (resample_mean r1 g) = Ok r2
    /\ outcome (resample_mean t (f * g)) = Ok r12
    /\ shape r2 = shape r12
    /\ forall i j, i < b -> j < w / Z.to_nat (f * g) ->
         (get r2 [i; j] == get r12 [i; j])%Q.
Proof.
  intros Hsh Hw Hf Hg Hd.
  destruct (divide_product_nat f g w Hf Hg Hd) as (Hdf & Hdg & Hfg & Hdiv & Hwq).
  pose proof (divide_nat f w Hf Hdf) as Hwf.
  pose proof (divide_nat g _ Hg Hdg) as Hwg.
  assert (Hw1 : 0 < w / Z.to_nat f) by nia.
  destruct (resample_mean_returns t b w f Hsh Hw Hf Hdf) as (r1 & Hrun1 & Hsh1 & _ & Hget1).
  destruct (resample_mean_returns r1 b _ g Hsh1 Hw1 Hg Hdg) as (r2 & Hrun2 & Hsh2 & _ & Hget2).
  destruct (resample_mean_returns t b w (f * g) Hsh Hw ltac:(lia) Hd)
    as (r12 & Hrun12 & Hsh12 & _ & Hget12).
  exists r1, r2, r12. split; [eapply runs_outcome; exact Hrun1|].
  split; [eapply runs_outcome; exact Hrun2|].
  split; [eapply runs_outcome; exact Hrun12|].
  split; [congruence|].
  intros i j Hi Hj.
  rewrite Hget12 by assumption.
  rewrite Hget2 by (try assumption; rewrite Hdiv; assumption).
  rewrite (mean_upto_ext _ _
             (fun k => mean_upto (Z.to_nat f)
                         (fun l => get t [i; Z.to_nat f * (Z.to_nat g * j + k) + l]))).
  2:{ intros k Hk. apply Hget1; [assumption|].
      rewrite Hdiv in Hwg. nia. }
  rewrite (mean_upto_ext _ _
             (fun k => mean_upto (Z.to_nat f)
                         (fun l => (fun m => get t [i; Z.to_nat (f * g) * j + m])
                                     (Z.to_nat f * k + l)))).
  2:{ intros k Hk. apply mean_upto_ext. intros l Hl. do 3 f_equal. rewrite Hfg. lia. }
  rewrite (mean_upto_blocks (Z.to_nat g) (Z.to_nat f)
             (fun m => get t [i; Z.to_nat (f * g) * j + m])) by lia.
  rewrite Hfg, (Nat.mul_comm (Z.to_nat g)). reflexivity.
Qed.

Lemma resample_mean_compose_witness :
  exists r1 r2 r12,
    outcome (resample_mean (example_field 12) 2) = Ok r1
    /\ outcome (resample_mean r1 3) = Ok r2
    /\ outcome (resample_mean (example_field 12) (2 * 3)) = Ok r12
    /\ shape r2 = shape r12
    /\ forall i j, i < 1 -> j < 2 -> (get r2 [i; j] == get r12 [i; j])%Q.
Proof.
  apply (resample_mean_compose (example_field 12) 1 12 2 3).
  - reflexivity.
  - lia.
  - lia.
  - lia.
  - exists 2%Z. reflexivity.
Defined.

(* ================================================================== *)
(** * More on the composition pipeline                                  *)
(* ================================================================== *)

Section MorePipeline.
Variable ext : Externals.

(** What [apply_coefficients] returns. *)
Lemma apply_coefficients_returns coefficients inputs b x d s :
  shape coefficients = [b; x; d; s] -> shape inputs = [b; x] -> 1 <= s ->
  exists r,
    runs (apply_coefficients ext coefficients inputs) (Ok r)
         [OpExpandDims; OpPadPeriodic; OpExpandDims; OpExtractImagePatches;
          OpSqueeze; OpEinsum]
    /\ shape r = [b; x; d]
    /\ wf r
    /\ forall i j c, i < b -> j < x -> c < d ->
         get r [i; j; c]
         = sum_upto s (fun k =>
             get coefficients [i; j; c; k]
             * get inputs [i; wrap (Z.of_nat j + Z.of_nat k
                                   - Z.of_nat (centering_offset ext (s - 1))) x])%Q.
Proof.
  intros Hc Hi Hs. unfold apply_coefficients.
  pose proof (extract_patches_runs ext inputs b x s Hi Hs) as Hpatch.
  pose proof (shape_patches_of ext inputs b x s Hs) as Hshp.
  eexists. split; [|split; [|split]].
  - eapply runs_eq; [|reflexivity|].
    + eapply runs_bind_ok.
      { unfold shape_dim. rewrite Hc. apply runs_py. }
      eapply runs_bind_ok; [exact Hpatch|].
      unfold tf_einsum_bxdi_bxi. rewrite Hc, Hshp, !Nat.eqb_refl. apply runs_op.
    + reflexivity.
  - reflexivity.
  - apply wf_tabulate.
  - intros i j c Hib Hj Hd.
    rewrite get_tabulate by (apply in_range_3_intro; assumption).
    apply sum_upto_ext. intros k Hk.
    rewrite (get_patches_of ext inputs b x s i j k) by assumption. reflexivity.
Qed.

(** X6. [apply_coefficients] contracts each coefficient vector with the
    periodic window of the field around its position: on [batch, x,
    derivative, S] coefficients and a [batch, x] field it returns the
    [batch, x, derivative] tensor of the sums over the window slot [k] of
    coefficient [k] times the field value at [x + k - offset] modulo the
    width. *)
Theorem apply_coefficients_periodic_filter
    (coefficients inputs : tensor) (b x d s : nat) :
  shape coefficients = [b; x; d; s] -> shape inputs = [b; x] -> 1 <= s ->
  exists r,
    outcome (apply_coefficients ext coefficients inputs) = Ok r
    /\ shape r = [b; x; d]
    /\ forall i j c, i < b -> j < x -> c < d ->
         get r [i; j; c]
         = sum_upto s (fun k =>
             get coefficients [i; j; c; k]
             * get inputs [i; wrap (Z.of_nat j + Z.of_nat k
                                   - Z.of_nat (centering_offset ext (s - 1))) x])%Q.
Proof.
  intros Hc Hi Hs.
  destruct (apply_coefficients_returns coefficients inputs b x d s Hc Hi Hs)
    as (r & Hrun & Hshape & _ & Hget).
  exists r. split; [eapply runs_outcome; exact Hrun|]. split; assumption.
Qed.

(** X7. [apply_coefficients] rejects coefficients of rank below 4 with an
    [IndexError] raised by the size lookup, before any tensor operation. *)
Theorem apply_coefficients_low_rank (coefficients inputs : tensor) :
  rank coefficients < 4 ->
  outcome (apply_coefficients ext coefficients inputs) = Raise IndexError
  /\ invoked (apply_coefficients ext coefficients inputs) = [].
Proof.
  intros Hr.
  assert (Hrun : runs (apply_coefficients ext coefficients inputs) (Raise IndexError) []).
  { unfold apply_coefficients. apply runs_bind_raise.
    unfold shape_dim, rank in *.
    rewrite (lookup_ge_None_2 (shape coefficients) 3) by lia. apply runs_py. }
  split; [eapply runs_outcome|eapply runs_invoked]; exact Hrun.
Qed.

(** X8. [apply_coefficients] rejects coefficients whose batch or position
    size differs from the field's with a [ValueError] raised by the
    contraction, after the patches have been extracted. *)
Theorem apply_coefficients_size_mismatch
    (coefficients inputs : tensor) (b x b' x' d s : nat) :
  shape inputs = [b; x] -> 1 <= s ->
  shape coefficients = [b'; x'; d; s] -> (b', x') <> (b, x) ->
  outcome (apply_coefficients ext coefficients inputs) = Raise ValueError
  /\ invoked (apply_coefficients ext coefficients inputs)
     = [OpExpandDims; OpPadPeriodic; OpExpandDims; OpExtractImagePatches;
        OpSqueeze; OpEinsum].
Proof.
  intros Hi Hs Hc Hne.
  pose proof (extract_patches_runs ext inputs b x s Hi Hs) as Hpatch.
  pose proof (shape_patches_of ext inputs b x s Hs) as Hshp.
  assert (Hrun : runs (apply_coefficients ext coefficients inputs) (Raise ValueError)
                      [OpExpandDims; OpPadPeriodic; OpExpandDims; OpExtractImagePatches;
                       OpSqueeze; OpEinsum]).
  { unfold apply_coefficients. eapply runs_eq; [|reflexivity|].
    - eapply runs_bind_ok.
      { unfold shape_dim. rewrite Hc. apply runs_py. }
      eapply runs_bind_ok; [exact Hpatch|].
      unfold tf_einsum_bxdi_bxi. rewrite Hc, Hshp.
      assert (E : (b' =? b) && (x' =? x) = false).
      { destruct (Nat.eqb_spec b' b), (Nat.eqb_spec x' x); try reflexivity.
        subst. contradiction. }
      rewrite E. apply runs_op.
    - reflexivity. }
  split; [eapply runs_outcome|eapply runs_invoked]; exact Hrun.
Qed.

End MorePipeline.

Lemma apply_coefficients_periodic_filter_witness :
  let coefficients := tabulate [1; 4; 2; 3] (fun idx => Qnat (ravel [1; 4; 2; 3] idx)) in
  exists r,
    outcome (apply_coefficients example_externals coefficients (example_field 4)) = Ok r
    /\ shape r = [1; 4; 2]
    /\ forall i j c, i < 1 -> j < 4 -> c < 2 ->
         get r [i; j; c]
         = sum_upto 3 (fun k =>
             get coefficients [i; j; c; k]
             * get (example_field 4)
                 [i; wrap (Z.of_nat j + Z.of_nat k
                           - Z.of_nat (centering_offset example_externals (3 - 1))) 4])%Q.
Proof.
  apply (apply_coefficients_periodic_filter example_externals
           (tabulate [1; 4; 2; 3] (fun idx => Qnat (ravel [1; 4; 2; 3] idx)))
           (example_field 4) 1 4 2 3); [reflexivity|reflexivity|lia].
Defined.

Lemma apply_coefficients_low_rank_witness :
  let short := tabulate [1; 4; 2] (fun _ => 1%Q) in
  outcome (apply_coefficients example_externals short (example_field 4)) = Raise IndexError
  /\ invoked (apply_coefficients example_externals short (example_field 4)) = [].
Proof.
  apply (apply_coefficients_low_rank example_externals
           (tabulate [1; 4; 2] (fun _ => 1%Q)) (example_field 4)).
  vm_compute. lia.
Defined.

Lemma apply_coefficients_size_mismatch_witness :
  let wide := tabulate [1; 5; 2; 3] (fun _ => 1%Q) in
  outcome (apply_coefficients example_externals wide (example_field 4)) = Raise ValueError
  /\ invoked (apply_coefficients example_externals wide (example_field 4))
     = [OpExpandDims; OpPadPeriodic; OpExpandDims; OpExtractImagePatches;
        OpSqueeze; OpEinsum].
Proof.
  apply (apply_coefficients_size_mismatch example_externals
           (tabulate [1; 5; 2; 3] (fun _ => 1%Q)) (example_field 4) 1 4 1 5 2 3);
    [reflexivity|lia|reflexivity|congruence].
Defined.

Section ZeroLayerModel.
Variable ext : Externals.

(** With [num_layers = 0] the spatial derivatives are one learned stencil
    applied at every position. *)
Lemma predict_space_derivatives_zero_layers_returns inputs hp et b x :
  shape inputs = [b; x] ->
  equation_catalogue ext (equation hp) (conservative hp) = Ok et ->
  num_layers hp = 0%Z ->
  1 <= length (coefficient_grid ext hp et) ->
  exists r,
    runs (predict_space_derivatives ext inputs (PyHParams hp)) (Ok r)
         [OpGetVariable; OpExpandDims; OpTile;
          OpExpandDims; OpPadPeriodic; OpExpandDims; OpExtractImagePatches;
          OpSqueeze; OpEinsum]
    /\ shape r = [b; x; length (DERIVATIVE_ORDERS et)]
    /\ wf r
    /\ forall i j c, i < b -> j < x -> c < length (DERIVATIVE_ORDERS et) ->
         get r [i; j; c]
         = sum_upto (length (coefficient_grid ext hp et)) (fun k =>
             variable_value ext
               [length (DERIVATIVE_ORDERS et); length (coefficient_grid ext hp et)] [c; k]
             * get inputs
                 [i; wrap (Z.of_nat j + Z.of_nat k
                           - Z.of_nat (centering_offset ext
                                         (length (coefficient_grid ext hp et) - 1))) x])%Q.
Proof.
  intros Hsh Hcat Hzero HG.
  destruct (predict_coefficients_zero_layers ext inputs hp et b x true Hsh Hcat Hzero)
    as (c & Hc & Hcs & Hcg).
  destruct (apply_coefficients_returns ext c inputs b x _ _ Hcs Hsh HG)
    as (r & Hr & Hrs & Hrw & Hrg).
  exists r. split; [|split; [|split]]; try assumption.
  - unfold predict_space_derivatives.
    eapply runs_eq; [|reflexivity|].
    + eapply runs_bind_ok; [exact Hc|exact Hr].
    + reflexivity.
  - intros i j d Hi Hj Hd. rewrite Hrg by assumption.
    apply sum_upto_ext. intros k Hk. rewrite Hcg by assumption. reflexivity.
Qed.

(** X9. With [num_layers = 0], [predict_space_derivatives] applies one
    learned stencil at every position of every example: derivative [c] at
    position [j] is the sum over the stencil slots [k] of the learned weight
    [(c, k)] times the field at [j + k - offset] modulo the width. *)
Theorem predict_space_derivatives_zero_layers_stencil
    (inputs : tensor) (hp : HParams) (et : EquationType) (b x : nat) :
  shape inputs = [b; x] ->
  equation_catalogue ext (equation hp) (conservative hp) = Ok et ->
  num_layers hp = 0%Z ->
  1 <= length (coefficient_grid ext hp et) ->
  let D := length (DERIVATIVE_ORDERS et) in
  let G := length (coefficient_grid ext hp et) in
  exists r,
    outcome (predict_space_derivatives ext inputs (PyHParams hp)) = Ok r
    /\ shape r = [b; x; D]
    /\ forall i j c, i < b -> j < x -> c < D ->
         get r [i; j; c]
         = sum_upto G (fun k =>
             variable_value ext [D; G] [c; k]
             * get inputs
                 [i; wrap (Z.of_nat j + Z.of_nat k
                           - Z.of_nat (centering_offset ext (G - 1))) x])%Q.
Proof.
  intros Hsh Hcat Hzero HG D G.
  destruct (predict_space_derivatives_zero_layers_returns inputs hp et b x
              Hsh Hcat Hzero HG) as (r & Hrun & Hshape & _ & Hget).
  exists r. split; [eapply runs_outcome; exact Hrun|]. split; assumption.
Qed.

(** X10. With [num_layers = 0], [predict_space_derivatives] commutes with
    circular shifts of the field along its position axis. *)
Theorem predict_space_derivatives_zero_layers_shift
    (inputs : tensor) (hp : HParams) (et : EquationType) (b x : nat) (k : Z) :
  shape inputs = [b; x] ->
  equation_catalogue ext (equation hp) (conservative hp) = Ok et ->
  num_layers hp = 0%Z ->
  1 <= length (coefficient_grid ext hp et) ->
  exists r,
    outcome (predict_space_derivatives ext inputs (PyHParams hp)) = Ok r
    /\ outcome (predict_space_derivatives ext (roll_positions k inputs) (PyHParams hp))
       = Ok (roll_positions k r).
Proof.
  intros Hsh Hcat Hzero HG.
  destruct (predict_space_derivatives_zero_layers_returns inputs hp et b x
              Hsh Hcat Hzero HG) as (r & Hrun & Hshape & Hwf & Hget).
  assert (Hsh' : shape (roll_positions k inputs) = [b; x]) by exact Hsh.
  destruct (predict_space_derivatives_zero_layers_returns (roll_positions k inputs)
              hp et b x Hsh' Hcat Hzero HG) as (r' & Hrun' & Hshape' & Hwf' & Hget').
  exists r. split; [eapply runs_outcome; exact Hrun|].
  rewrite (runs_outcome _ _ _ Hrun'). f_equal.
  apply tensor_ext.
  - exact Hwf'.
  - apply wf_tabulate.
  - rewrite Hshape'. cbn [roll_positions shape tabulate]. symmetry. exact Hshape.
  - intros idx Hr. rewrite Hshape' in Hr.
    apply in_range_3 in Hr as (i & j & c & -> & Hi & Hj & Hc).
    rewrite Hget' by assumption.
    rewrite get_roll_positions by (rewrite Hshape; apply in_range_3_intro; assumption).
    assert (Hd : dim r 1 = x) by (unfold dim; rewrite Hshape; reflexivity).
    rewrite Hd. rewrite Hget by (try assumption; apply wrap_lt; lia).
    apply sum_upto_ext. intros s Hs. f_equal.
    rewrite get_roll_positions
      by (rewrite Hsh; apply in_range_2; [assumption|apply wrap_lt; lia]).
    assert (Hd' : dim inputs 1 = x) by (unfold dim; rewrite Hsh; reflexivity).
    rewrite Hd'. rewrite wrap_wrap_sub by lia.
    set (off := Z.of_nat (centering_offset ext (length (coefficient_grid ext hp et) - 1))).
    replace (Z.of_nat (wrap (Z.of_nat j - k) x) + Z.of_nat s - off)%Z
      with (Z.of_nat (wrap (Z.of_nat j - k) x) + (Z.of_nat s - off))%Z by lia.
    rewrite wrap_wrap_add by lia.
    match goal with
    | |- get _ [_; wrap ?a _] = get _ [_; wrap ?b _] => replace a with b by lia
    end.
    reflexivity.
Qed.

End ZeroLayerModel.

Lemma predict_space_derivatives_zero_layers_stencil_witness :
  let ext := example_externals in
  let hp := example_hparams 0 0 false false in
  exists r,
    outcome (predict_space_derivatives ext (example_field 4) (PyHParams hp)) = Ok r
    /\ shape r = [1; 4; 2]
    /\ forall i j c, i < 1 -> j < 4 -> c < 2 ->
         get r [i; j; c]
         = sum_upto 4 (fun k =>
             variable_value ext [2%nat; 4%nat] [c; k]
             * get (example_field 4)
                 [i; wrap (Z.of_nat j + Z.of_nat k
                           - Z.of_nat (centering_offset ext (4 - 1))) 4])%Q.
Proof.
  apply (predict_space_derivatives_zero_layers_stencil example_externals
           (example_field 4) (example_hparams 0 0 false false)
           (example_equation false) 1 4); try reflexivity.
  vm_compute. lia.
Defined.

Lemma predict_space_derivatives_zero_layers_shift_witness :
  let ext := example_externals in
  let hp := example_hparams 0 0 false false in
  exists r,
    outcome (predict_space_derivatives ext (example_field 4) (PyHParams hp)) = Ok r
    /\ outcome (predict_space_derivatives ext (roll_positions 1 (example_field 4))
                  (PyHParams hp))
       = Ok (roll_positions 1 r).
Proof.
  apply (predict_space_derivatives_zero_layers_shift example_externals
           (example_field 4) (example_hparams 0 0 false false)
           (example_equation false) 1 4 1%Z); try reflexivity.
  vm_compute. lia.
Defined.

Section MoreChannels.
Variable ext : Externals.

Lemma derivatives_dict_from_short derivatives : forall orders i acc,
  0 < rank derivatives -> i <= last_dim derivatives ->
  last_dim derivatives < i + length orders ->
  runs (derivatives_dict_from derivatives i orders acc) (Raise ValueError)
       (repeat OpStridedSlice (last_dim derivatives - i + 1)).
Proof.
  induction orders as [|d orders IH]; intros i acc Hrank Hi Hlen; simpl in *; [lia|].
  destruct (Nat.eq_dec i (last_dim derivatives)) as [E|E].
  - apply runs_bind_raise. unfold tf_index_last.
    destruct (Nat.ltb_spec i (last_dim derivatives)); [lia|].
    rewrite andb_false_r. replace (last_dim derivatives - i + 1) with 1 by lia.
    apply runs_op.
  - replace (last_dim derivatives - i + 1) with (S (last_dim derivatives - S i + 1)) by lia.
    change (repeat OpStridedSlice (S (last_dim derivatives - S i + 1)))
      with ([OpStridedSlice] ++ repeat OpStridedSlice (last_dim derivatives - S i + 1)).
    eapply runs_bind_ok; [|apply IH; lia].
    unfold tf_index_last.
    destruct (Nat.ltb_spec 0 (rank derivatives)); [|lia].
    destruct (Nat.ltb_spec i (last_dim derivatives)); [|lia].
    apply runs_op.
Qed.

(** X11. When the derivatives tensor has fewer channels than the equation
    declares derivative orders, [apply_space_derivatives] raises a
    [ValueError] at the first missing channel, after slicing the channels
    that exist; the equation of motion is not evaluated. *)
Theorem apply_space_derivatives_missing_channel
    (derivatives inputs : tensor) (hp : HParams) (et : EquationType) :
  equation_catalogue ext (equation hp) (conservative hp) = Ok et ->
  0 < rank inputs -> 0 < rank derivatives ->
  last_dim derivatives < length (DERIVATIVE_ORDERS et) ->
  outcome (apply_space_derivatives ext derivatives inputs (PyHParams hp))
  = Raise ValueError
  /\ invoked (apply_space_derivatives ext derivatives inputs (PyHParams hp))
     = repeat OpStridedSlice (last_dim derivatives + 1).
Proof.
  intros Hcat Hri Hrd Hlt.
  assert (Hrun : runs (apply_space_derivatives ext derivatives inputs (PyHParams hp))
                      (Raise ValueError)
                      (repeat OpStridedSlice (last_dim derivatives + 1))).
  { unfold apply_space_derivatives. rewrite from_hparams_typed, Hcat.
    eapply runs_eq; [|reflexivity|].
    - eapply runs_bind_ok; [apply runs_py|].
      eapply runs_bind_ok.
      { unfold shape_dim_last. destruct (Nat.ltb_spec 0 (rank inputs)); [|lia].
        apply runs_py. }
      apply runs_bind_raise.
      apply derivatives_dict_from_short; [assumption|lia|simpl; lia].
    - rewrite Nat.sub_0_r. reflexivity. }
  split; [eapply runs_outcome|eapply runs_invoked]; exact Hrun.
Qed.

Lemma apply_space_derivatives_runs_wide derivatives inputs hp et b x n :
  equation_catalogue ext (equation hp) (conservative hp) = Ok et ->
  shape inputs = [b; x] ->
  shape derivatives = [b; x; n] ->
  length (DERIVATIVE_ORDERS et) <= n ->
  runs (apply_space_derivatives ext derivatives inputs (PyHParams hp))
       (Ok (equation_of_motion et x inputs
              (py_dict (channel_pairs derivatives 0 (DERIVATIVE_ORDERS et)))))
       (repeat OpStridedSlice (length (DERIVATIVE_ORDERS et)) ++ [OpEquationOfMotion]).
Proof.
  intros Hcat Hsh Hd Hn. unfold apply_space_derivatives.
  rewrite from_hparams_typed, Hcat.
  eapply runs_eq; [|reflexivity|].
  - eapply runs_bind_ok; [apply runs_py|].
    eapply runs_bind_ok.
    { unfold shape_dim_last, rank, last_dim. rewrite Hsh. apply runs_py. }
    eapply runs_bind_ok.
    { apply derivatives_dict_from_runs; unfold rank, last_dim; rewrite Hd; simpl; lia. }
    apply runs_op.
  - reflexivity.
Qed.

Lemma channel_agree d1 d2 b x n1 n2 c :
  shape d1 = [b; x; n1] -> shape d2 = [b; x; n2] ->
  (forall i j, i < b -> j < x -> get d1 [i; j; c] = get d2 [i; j; c]) ->
  channel d1 c = channel d2 c.
Proof.
  intros H1 H2 Hget. unfold channel. rewrite H1, H2. cbn [removelast].
  apply tabulate_ext. intros idx Hr.
  apply in_range_2_inv in Hr as (i & j & -> & Hi & Hj).
  apply Hget; assumption.
Qed.

Lemma channel_pairs_agree d1 d2 b x n1 n2 orders : forall i,
  shape d1 = [b; x; n1] -> shape d2 = [b; x; n2] ->
  (forall a j c, a < b -> j < x -> c < i + length orders ->
     get d1 [a; j; c] = get d2 [a; j; c]) ->
  channel_pairs d1 i orders = channel_pairs d2 i orders.
Proof.
  induction orders as [|d orders IH]; intros i H1 H2 Hget; simpl in *; [reflexivity|].
  f_equal.
  - f_equal. eapply channel_agree; try eassumption.
    intros a j Ha Hj. apply Hget; try assumption. lia.
  - apply IH; try assumption.
    intros a j c Ha Hj Hc. apply Hget; try assumption. lia.
Qed.

(** X12. [apply_space_derivatives] reads only the leading channels of its
    derivatives tensor, one per declared derivative order: two tensors that
    agree on those channels give the same time derivative, whatever further
    channels (such as a stacked time derivative) they carry. *)
Theorem apply_space_derivatives_leading_channels
    (d1 d2 inputs : tensor) (hp : HParams) (et : EquationType) (b x n1 n2 : nat) :
  equation_catalogue ext (equation hp) (conservative hp) = Ok et ->
  shape inputs = [b; x] ->
  shape d1 = [b; x; n1] -> shape d2 = [b; x; n2] ->
  length (DERIVATIVE_ORDERS et) <= n1 -> length (DERIVATIVE_ORDERS et) <= n2 ->
  (forall i j c, i < b -> j < x -> c < length (DERIVATIVE_ORDERS et) ->
     get d1 [i; j; c] = get d2 [i; j; c]) ->
  is_ok (outcome (apply_space_derivatives ext d1 inputs (PyHParams hp))) = true
  /\ outcome (apply_space_derivatives ext d1 inputs (PyHParams hp))
     = outcome (apply_space_derivatives ext d2 inputs (PyHParams hp)).
Proof.
  intros Hcat Hsh H1 H2 Hn1 Hn2 Hget.
  rewrite (runs_outcome _ _ _
             (apply_space_derivatives_runs_wide d1 inputs hp et b x n1 Hcat Hsh H1 Hn1)).
  rewrite (runs_outcome _ _ _
             (apply_space_derivatives_runs_wide d2 inputs hp et b x n2 Hcat Hsh H2 Hn2)).
  split; [reflexivity|].
  rewrite (channel_pairs_agree d1 d2 b x n1 n2 (DERIVATIVE_ORDERS et) 0 H1 H2 Hget).
  reflexivity.
Qed.

(** X13. With [num_layers = 0] and an equation of motion that returns a
    field of the shape of its input, [predict_all_derivatives] returns a
    [batch, x, D + 1] tensor: its first [D] channels are the spatial
    derivatives [predict_space_derivatives] gives, its last channel the time
    derivative [apply_space_derivatives] computes from them; one variable is
    read and the field is patched once. *)
Theorem predict_all_derivatives_zero_layers
    (inputs : tensor) (hp : HParams) (et : EquationType) (b x : nat) :
  shape inputs = [b; x] ->
  equation_catalogue ext (equation hp) (conservative hp) = Ok et ->
  num_layers hp = 0%Z ->
  1 <= length (coefficient_grid ext hp et) ->
  (forall derivatives_dict,
     shape (equation_of_motion et x inputs derivatives_dict) = [b; x]) ->
  let D := length (DERIVATIVE_ORDERS et) in
  exists r space time,
    outcome (predict_all_derivatives ext inputs (PyHParams hp)) = Ok r
    /\ invoked (predict_all_derivatives ext inputs (PyHParams hp))
       = [OpGetVariable; OpExpandDims; OpTile;
          OpExpandDims; OpPadPeriodic; OpExpandDims; OpExtractImagePatches;
          OpSqueeze; OpEinsum]
         ++ repeat OpStridedSlice D ++ [OpEquationOfMotion; OpExpandDims; OpConcat]
    /\ outcome (predict_space_derivatives ext inputs (PyHParams hp)) = Ok space
    /\ outcome (apply_space_derivatives ext space inputs (PyHParams hp)) = Ok time
    /\ shape r = [b; x; D + 1]
    /\ forall i j, i < b -> j < x ->
         get r [i; j; D] = get time [i; j]
         /\ forall c, c < D -> get r [i; j; c] = get space [i; j; c].
Proof.
  intros Hsh Hcat Hzero HG Heom D.
  destruct (predict_space_derivatives_zero_layers_returns ext inputs hp et b x
              Hsh Hcat Hzero HG) as (space & Hspace & Hss & _ & _).
  pose proof (apply_space_derivatives_runs ext space inputs hp et b x Hcat Hsh Hss) as Htime.
  set (time := equation_of_motion et x inputs
                 (py_dict (channel_pairs space 0 (DERIVATIVE_ORDERS et)))) in *.
  destruct (stack_space_time_runs space time b x D Hss (Heom _))
    as (r & Hr & Hrs & Hrg).
  assert (Hrun : runs (predict_all_derivatives ext inputs (PyHParams hp)) (Ok r)
            ([OpGetVariable; OpExpandDims; OpTile;
              OpExpandDims; OpPadPeriodic; OpExpandDims; OpExtractImagePatches;
              OpSqueeze; OpEinsum]
             ++ repeat OpStridedSlice D ++ [OpEquationOfMotion; OpExpandDims; OpConcat])).
  { unfold predict_all_derivatives. eapply runs_eq; [|reflexivity|].
    - eapply runs_bind_ok; [exact Hspace|].
      eapply runs_bind_ok; [exact Htime|exact Hr].
    - subst D. rewrite <- !app_assoc. reflexivity. }
  exists r, space, time.
  split; [eapply runs_outcome; exact Hrun|].
  split; [eapply runs_invoked; exact Hrun|].
  split; [eapply runs_outcome; exact Hspace|].
  split; [eapply runs_outcome; exact Htime|].
  split; assumption.
Qed.

End MoreChannels.

(** X14. [stack_space_time] returns exactly when the space derivatives
    have a channel axis and their leading dimensions are the shape of the
    time derivative; otherwise the concatenation raises a [ValueError]. *)
Theorem stack_space_time_shape_check (space_derivatives time_derivative : tensor) :
  (is_ok (outcome (stack_space_time space_derivatives time_derivative))
   = (0 <? rank space_derivatives)
     && bool_decide (removelast (shape space_derivatives) = shape time_derivative))
  /\ (is_ok (outcome (stack_space_time space_derivatives time_derivative)) = false ->
      outcome (stack_space_time space_derivatives time_derivative) = Raise ValueError)
  /\ invoked (stack_space_time space_derivatives time_derivative)
     = [OpExpandDims; OpConcat].
Proof.
  set (expanded := with_shape time_derivative (shape time_derivative ++ [1])).
  assert (Hrun : exists r,
            runs (stack_space_time space_derivatives time_derivative) r
                 [OpExpandDims; OpConcat]
            /\ is_ok r
               = (0 <? rank space_derivatives)
                 && bool_decide (removelast (shape space_derivatives)
                                 = shape time_derivative)
            /\ (is_ok r = false -> r = Raise ValueError)).
  { unfold stack_space_time, tf_concat_last.
    eexists. split.
    - eapply (runs_bind_ok _ _ _ [OpExpandDims] _ [OpConcat]); [apply runs_op|].
      apply runs_op.
    - cbn [shape with_shape]. rewrite removelast_last.
      unfold rank. cbn [shape with_shape]. rewrite length_app. cbn [length].
      destruct (Nat.ltb_spec 0 (length (shape space_derivatives))) as [Hpos|Hpos];
        cbn [andb]; [|split; [reflexivity|reflexivity]].
      destruct (decide (removelast (shape space_derivatives) = shape time_derivative))
        as [E|E].
      + rewrite !bool_decide_eq_true_2 by assumption. cbn [andb].
        assert (Hlen : length (shape space_derivatives)
                       = length (shape time_derivative) + 1).
        { rewrite <- E.
          destruct (shape space_derivatives) as [|a l] eqn:Es; [simpl in Hpos; lia|].
          rewrite <- Es. 
          assert (Hne : shape space_derivatives <> []) by (rewrite Es; discriminate).
          rewrite (app_removelast_last 0 Hne) at 1.
          rewrite length_app. reflexivity. }
        rewrite Hlen, Nat.eqb_refl. split; [reflexivity|discriminate].
      + rewrite !bool_decide_eq_false_2 by assumption. cbn [andb].
        split; reflexivity. }
  destruct Hrun as (r & Hrun & Hok & Herr).
  rewrite (runs_outcome _ _ _ Hrun), (runs_invoked _ _ _ Hrun).
  split; [exact Hok|]. split; [exact Herr|reflexivity].
Qed.

Lemma apply_space_derivatives_missing_channel_witness :
  let derivatives := tabulate [1; 4; 1] (fun _ => 1%Q) in
  outcome (apply_space_derivatives example_externals derivatives (example_field 4)
             (PyHParams (example_hparams 0 0 false false)))
  = Raise ValueError
  /\ invoked (apply_space_derivatives example_externals derivatives (example_field 4)
                (PyHParams (example_hparams 0 0 false false)))
     = repeat OpStridedSlice (last_dim derivatives + 1).
Proof.
  apply (apply_space_derivatives_missing_channel example_externals
           (tabulate [1; 4; 1] (fun _ => 1%Q)) (example_field 4)
           (example_hparams 0 0 false false) (example_equation false));
    [reflexivity|vm_compute; lia|vm_compute; lia|vm_compute; lia].
Defined.

Lemma apply_space_derivatives_leading_channels_witness :
  let values idx := Qnat (nth 1 idx 0 + nth 2 idx 0) in
  let d1 := tabulate [1; 4; 2] values in
  let d2 := tabulate [1; 4; 3] values in
  let hp := PyHParams (example_hparams 0 0 false false) in
  is_ok (outcome (apply_space_derivatives example_externals d1 (example_field 4) hp)) = true
  /\ outcome (apply_space_derivatives example_externals d1 (example_field 4) hp)
     = outcome (apply_space_derivatives example_externals d2 (example_field 4) hp).
Proof.
  intros values d1 d2 hp.
  apply (apply_space_derivatives_leading_channels example_externals d1 d2
           (example_field 4) (example_hparams 0 0 false false) (example_equation false)
           1 4 2 3);
    [reflexivity|reflexivity|reflexivity|reflexivity|simpl; lia|simpl; lia|].
  simpl. intros i j c Hi Hj Hc. subst d1 d2.
  rewrite !get_tabulate by (apply in_range_3_intro; lia). reflexivity.
Defined.

Lemma predict_all_derivatives_zero_layers_witness :
  let ext := example_externals in
  let hp := PyHParams (example_hparams 0 0 false false) in
  exists r space time,
    outcome (predict_all_derivatives ext (example_field 4) hp) = Ok r
    /\ invoked (predict_all_derivatives ext (example_field 4) hp)
       = [OpGetVariable; OpExpandDims; OpTile;
          OpExpandDims; OpPadPeriodic; OpExpandDims; OpExtractImagePatches;
          OpSqueeze; OpEinsum]
         ++ repeat OpStridedSlice 2 ++ [OpEquationOfMotion; OpExpandDims; OpConcat]
    /\ outcome (predict_space_derivatives ext (example_field 4) hp) = Ok space
    /\ outcome (apply_space_derivatives ext space (example_field 4) hp) = Ok time
    /\ shape r = [1; 4; 2 + 1]
    /\ forall i j, i < 1 -> j < 4 ->
         get r [i; j; 2] = get time [i; j]
         /\ forall c, c < 2 -> get r [i; j; c] = get space [i; j; c].
Proof.
  apply (predict_all_derivatives_zero_layers example_externals (example_field 4)
           (example_hparams 0 0 false false) (example_equation false) 1 4);
    try reflexivity.
  - vm_compute. lia.
  - intros derivatives_dict. simpl. destruct (derivatives_dict !! 1); reflexivity.
Defined.

(* ================================================================== *)
(** * The training loss                                                 *)
(* ================================================================== *)

(** What [loss_components] computes, entry by entry. *)
Lemma loss_components_returns predictions labels baseline error_floor n x d :
  shape predictions = [n; x; d] -> shape labels = [n; x; d] ->
  shape baseline = [n; x; d] -> shape error_floor = [d] ->
  exists model_error relative_error,
    loss_components predictions labels baseline error_floor
    = Ok (model_error, relative_error)
    /\ shape model_error = [n; x; d]
    /\ shape relative_error = [n; x; d]
    /\ forall i j c, i < n -> j < x -> c < d ->
         get model_error [i; j; c]
         = ((get labels [i; j; c] - get predictions [i; j; c]) ^ 2)%Q
         /\ get relative_error [i; j; c]
            = (get model_error [i; j; c]
               / ((get labels [i; j; c] - get baseline [i; j; c]) ^ 2
                  + get error_floor [c]))%Q.
Proof.
  intros HP HL HB HF.
  destruct (broadcast2_same_shape Qminus labels predictions _ HL HP)
    as (diff & Ediff & Sdiff & Gdiff).
  destruct (broadcast2_same_shape Qminus labels baseline _ HL HB)
    as (diffb & Ediffb & Sdiffb & Gdiffb).
  assert (Sme : shape (np_square diff) = [n; x; d]) by exact Sdiff.
  assert (Sbe : shape (np_square diffb) = [n; x; d]) by exact Sdiffb.
  destruct (broadcast2_channels Qplus (np_square diffb) error_floor n x d Sbe HF)
    as (denominator & Eden & Sden & Gden).
  destruct (broadcast2_same_shape Qdiv (np_square diff) denominator _ Sme Sden)
    as (relative_error & Erel & Srel & Grel).
  exists (np_square diff), relative_error.
  split; [|split; [exact Sme|split; [exact Srel|]]].
  - unfold loss_components, np_sub, np_add, np_div.
    rewrite Ediff. cbn [mbind result_bind]. rewrite Ediffb. cbn [mbind result_bind].
    rewrite Eden. cbn [mbind result_bind]. rewrite Erel. reflexivity.
  - intros i j c Hi Hj Hc.
    pose proof (in_range_3_intro n x d i j c Hi Hj Hc) as Hr.
    split.
    + rewrite get_np_square by (rewrite Sdiff; exact Hr).
      rewrite Gdiff by exact Hr. reflexivity.
    + rewrite Grel by exact Hr. rewrite Gden by assumption.
      rewrite (get_np_square diffb) by (rewrite Sdiffb; exact Hr).
      rewrite Gdiffb by exact Hr. reflexivity.
Qed.

Lemma sum_upto_nonneg n f :
  (forall k, k < n -> (0 <= f k)%Q) -> (0 <= sum_upto n f)%Q.
Proof.
  induction n as [|n IH]; intros H.
  - unfold sum_upto. simpl. apply Qle_refl.
  - rewrite sum_upto_S.
    replace 0%Q with (0 + 0)%Q by reflexivity.
    apply Qplus_le_compat; [apply IH; intros; apply H; lia|apply H; lia].
Qed.

Lemma sum_upto_lower n f k :
  (forall i, i < n -> (0 <= f i)%Q) -> k < n -> (f k <= sum_upto n f)%Q.
Proof.
  induction n as [|n IH]; intros H Hk; [lia|].
  rewrite sum_upto_S.
  destruct (Nat.eq_dec k n) as [->|Hne].
  - rewrite <- (Qplus_0_l (f n)) at 1.
    apply Qplus_le_compat; [|apply Qle_refl].
    apply sum_upto_nonneg. intros; apply H; lia.
  - rewrite <- (Qplus_0_r (f k)).
    apply Qplus_le_compat; [apply IH; [intros; apply H; lia|lia]|apply H; lia].
Qed.

Lemma sum_upto_zero n f :
  (forall k, k < n -> (f k == 0)%Q) -> (sum_upto n f == 0)%Q.
Proof.
  induction n as [|n IH]; intros H.
  - reflexivity.
  - rewrite sum_upto_S, IH, H by (intros; try apply H; lia). ring.
Qed.

Lemma sum_upto_const n c : (sum_upto n (fun _ => c) == Qnat n * c)%Q.
Proof.
  induction n as [|n IH].
  - unfold sum_upto, Qnat. simpl. ring.
  - rewrite sum_upto_S, IH. unfold Qnat. rewrite Nat2Z.inj_succ, <- Z.add_1_r.
    rewrite inject_Z_plus. ring.
Qed.

Lemma Qsquare_pos a : ~ (a == 0)%Q -> (0 < a ^ 2)%Q.
Proof.
  intros Ha. destruct (Qlt_le_dec 0 (a ^ 2)) as [H|H]; [exact H|].
  exfalso. apply Ha.
  assert (E : (a ^ 2 == 0)%Q) by (apply Qle_antisym; [exact H|apply Qsquare_nonneg]).
  simpl in E. apply Qmult_integral in E. destruct E; assumption.
Qed.

Lemma dataset_mean_nonneg t n x c :
  (forall i j, i < n -> j < x -> (0 <= get t [i; j; c])%Q) ->
  (0 <= dataset_mean t n x c)%Q.
Proof.
  intros H. unfold dataset_mean.
  destruct (Nat.eq_dec (n * x) 0) as [E|E].
  - rewrite E. unfold Qdiv, Qnat. simpl. rewrite Qmult_0_r. apply Qle_refl.
  - apply Qle_shift_div_l.
    + unfold Qnat, Qlt. simpl. lia.
    + rewrite Qmult_0_l. apply sum_upto_nonneg. intros i Hi.
      apply sum_upto_nonneg. intros j Hj. apply H; assumption.
Qed.

Lemma dataset_mean_pos t n x c i0 j0 :
  (forall i j, i < n -> j < x -> (0 <= get t [i; j; c])%Q) ->
  i0 < n -> j0 < x -> (0 < get t [i0; j0; c])%Q ->
  (0 < dataset_mean t n x c)%Q.
Proof.
  intros H Hi Hj Hpos. unfold dataset_mean.
  apply Qlt_shift_div_l.
  - unfold Qnat, Qlt. simpl. nia.
  - rewrite Qmult_0_l.
    eapply Qlt_le_trans; [exact Hpos|].
    eapply Qle_trans.
    + apply (sum_upto_lower x (fun j => get t [i0; j; c]) j0); [|exact Hj].
      intros j Hj'. apply H; assumption.
    + apply (sum_upto_lower n (fun i => sum_upto x (fun j => get t [i; j; c])) i0);
        [|exact Hi].
      intros i Hi'. apply sum_upto_nonneg. intros j Hj'. apply H; assumption.
Qed.

Lemma dataset_mean_zero t n x c :
  (forall i j, i < n -> j < x -> (get t [i; j; c] == 0)%Q) ->
  (dataset_mean t n x c == 0)%Q.
Proof.
  intros H. unfold dataset_mean.
  rewrite sum_upto_zero.
  - unfold Qdiv. apply Qmult_0_l.
  - intros i Hi. apply sum_upto_zero. intros j Hj. apply H; assumption.
Qed.

Lemma tf_reduce_mean_axes01_channels t n x d :
  shape t = [n; x; d] ->
  exists m, tf_reduce_mean_axes01 t = Ok m /\ shape m = [d]
            /\ forall c, c < d -> get m [c] = dataset_mean t n x c.
Proof.
  intros Ht. unfold tf_reduce_mean_axes01. rewrite Ht.
  eexists. split; [reflexivity|]. split; [reflexivity|].
  intros c Hc. rewrite get_tabulate by (apply in_range_1; assumption). reflexivity.
Qed.

Lemma np_stack2_rows a b d :
  shape a = [d] -> shape b = [d] ->
  exists t, np_stack2 a b = Ok t /\ shape t = [2; d]
            /\ forall c, c < d ->
                 get t [0; c] = get a [c] /\ get t [1; c] = get b [c].
Proof.
  intros Ha Hb. unfold np_stack2. rewrite Ha, Hb, decide_True by reflexivity.
  eexists. split; [reflexivity|]. split; [reflexivity|].
  intros c Hc. rewrite !get_tabulate by (apply in_range_2; lia). split; reflexivity.
Qed.

Lemma np_reshape_2_rows_returns l d :
  length l = 2 * d ->
  exists t, np_reshape_2_rows l = Ok t /\ shape t = [2; d] /\ data t = l
            /\ forall h c, get t [h; c] = nth (h * d + c) l 0%Q.
Proof.
  intros Hl. unfold np_reshape_2_rows. rewrite Hl.
  assert (E : Nat.even (2 * d) = true).
  { rewrite Nat.even_spec. exists d. reflexivity. }
  rewrite E. rewrite (Nat.mul_comm 2 d), Nat.div_mul by lia.
  eexists. split; [reflexivity|]. split; [reflexivity|]. split; [reflexivity|].
  intros h c. unfold get. cbn [shape data ravel num_elements].
  f_equal. lia.
Qed.

Lemma list_as_map_nth (l : list Q) :
  l = map (fun k => nth k l 0%Q) (seq 0 (length l)).
Proof.
  apply (nth_ext _ _ 0%Q 0%Q).
  - rewrite length_map, length_seq. reflexivity.
  - intros k Hk. symmetry. apply (nth_map_seq (fun k => nth k l 0%Q)). exact Hk.
Qed.

(** The sum of all entries of a matrix, row by row. *)
Lemma qsum_data_rows t a b :
  wf t -> shape t = [a; b] ->
  (qsum (data t) == sum_upto a (fun i => sum_upto b (fun j => get t [i; j])))%Q.
Proof.
  intros Hwf Hsh. unfold wf in Hwf. rewrite Hsh in Hwf. cbn [num_elements] in Hwf.
  assert (E : qsum (data t) = sum_upto (length (data t)) (fun k => nth k (data t) 0%Q)).
  { unfold sum_upto. rewrite <- list_as_map_nth. reflexivity. }
  rewrite E, Hwf, Nat.mul_1_r, sum_upto_blocks.
  apply sum_upto_eq. intros i Hi. apply sum_upto_eq. intros j Hj.
  unfold get. rewrite Hsh. cbn [ravel num_elements].
  replace (i * (b * 1) + (j * 1 + 0)) with (b * i + j) by lia.
  reflexivity.
Qed.

Lemma nth_space_time_weights p w m c :
  c <= m -> nth c (repeat p m ++ [w]) 0%Q = if c <? m then p else w.
Proof.
  intros Hc. destruct (Nat.ltb_spec c m) as [H|H].
  - rewrite app_nth1 by (rewrite repeat_length; exact H). apply nth_repeat_lt. exact H.
  - assert (c = m) by lia. subst c.
    rewrite app_nth2 by (rewrite repeat_length; lia).
    rewrite repeat_length, Nat.sub_diag. reflexivity.
Qed.

Lemma sum_upto_plus n f g :
  (sum_upto n f + sum_upto n g == sum_upto n (fun k => f k + g k))%Q.
Proof.
  induction n as [|n IH].
  - unfold sum_upto. simpl. ring.
  - rewrite !sum_upto_S, <- IH. ring.
Qed.

Lemma get_scalar c : get (scalar c) [] = c.
Proof. unfold scalar. apply get_tabulate. constructor. Qed.

(** What [calculate_loss] computes on [batch, x, channel] tensors of at
    least two channels. *)
Lemma calculate_loss_returns predictions labels baseline hparams scale floor n x d :
  shape predictions = [n; x; d] -> shape labels = [n; x; d] ->
  shape baseline = [n; x; d] ->
  error_scale hparams = Some scale -> length scale = 2 * d ->
  error_floor hparams = Some floor -> shape floor = [d] ->
  2 <= d ->
  exists loss model_error relative_error,
    calculate_loss predictions labels baseline hparams = Ok loss
    /\ loss_components predictions labels baseline floor
       = Ok (model_error, relative_error)
    /\ shape loss = []
    /\ (get loss []
        == weighted_loss (base_hparams hparams) scale model_error relative_error n x d)%Q.
Proof.
  intros HP HL HB Hscale Hlen Hfloor HF Hd.
  destruct (np_reshape_2_rows_returns scale d Hlen) as (es & Ees & Ses & _ & Ges).
  destruct (loss_components_returns predictions labels baseline floor n x d HP HL HB HF)
    as (me & re & Eloss & Sme & Sre & _).
  destruct (tf_reduce_mean_axes01_channels me n x d Sme) as (m0 & Em0 & Sm0 & Gm0).
  destruct (tf_reduce_mean_axes01_channels re n x d Sre) as (m1 & Em1 & Sm1 & Gm1).
  destruct (np_stack2_rows m0 m1 d Sm0 Sm1) as (lph & Elph & Slph & Glph).
  destruct (broadcast2_same_shape Qmult lph es [2; d] Slph Ses)
    as (normalized & Enorm & Snorm & Gnorm).
  set (hp := base_hparams hparams).
  set (p := ((1 - time_derivative_weight hp) / inject_Z (Z.of_nat d - 1))%Q).
  set (stw := repeat p (Z.to_nat (Z.of_nat d - 1)) ++ [time_derivative_weight hp]).
  set (arw := [(1 - relative_error_weight hp)%Q; relative_error_weight hp]).
  assert (Lstw : length stw = d).
  { subst stw. rewrite length_app, repeat_length. simpl. lia. }
  assert (Sw : shape (outer_product arw stw) = [2; d]).
  { unfold outer_product. cbn [shape tabulate]. rewrite Lstw. reflexivity. }
  destruct (broadcast2_same_shape Qmult (outer_product arw stw) normalized [2; d] Sw Snorm)
    as (weighted & Eweighted & Sweighted & Gweighted).
  assert (Wweighted : wf weighted).
  { unfold broadcast2 in Eweighted. rewrite Sw, Snorm, broadcast_shapes_refl in Eweighted.
    injection Eweighted as <-. apply wf_tabulate. }
  exists (tf_reduce_sum weighted), me, re.
  split; [|split; [exact Eloss|split; [reflexivity|]]].
  - unfold calculate_loss. rewrite Hscale, Hfloor. cbn [hparam mbind result_bind].
    rewrite Ees. cbn [mbind result_bind]. rewrite Eloss. cbn [mbind result_bind].
    rewrite Em0. cbn [mbind result_bind]. rewrite Em1. cbn [mbind result_bind].
    rewrite Elph. cbn [mbind result_bind].
    unfold np_mul. rewrite Enorm. cbn [mbind result_bind].
    unfold shape_dim_last, rank, last_dim. rewrite HL. cbn [length List.last Nat.ltb Nat.leb].
    cbn [mbind result_bind].
    unfold py_truediv. destruct (Z.eqb_spec (Z.of_nat d - 1) 0) as [E|_]; [lia|].
    cbn [mbind result_bind]. fold hp. fold p. fold stw. fold arw.
    rewrite Eweighted. reflexivity.
  - unfold tf_reduce_sum. rewrite get_scalar.
    rewrite (qsum_data_rows weighted 2 d Wweighted Sweighted).
    unfold weighted_loss. fold hp.
    assert (Hrow : forall h, h < 2 ->
              (sum_upto d (fun c => get weighted [h; c])
               == sum_upto d (fun c =>
                    nth h arw 0 * space_time_weight hp d c
                    * (dataset_mean (if h =? 0 then me else re) n x c
                       * nth (h * d + c) scale 0)))%Q).
    { intros h Hh. apply sum_upto_eq. intros c Hc.
      rewrite Gweighted by (apply in_range_2; assumption).
      rewrite Gnorm by (apply in_range_2; assumption).
      unfold outer_product. rewrite get_tabulate
        by (rewrite Lstw; apply in_range_2; assumption).
      cbn [nth]. rewrite Ges.
      assert (Hw : nth c stw 0%Q = space_time_weight hp d c).
      { subst stw. rewrite nth_space_time_weights by lia.
        unfold space_time_weight.
        replace (Z.to_nat (Z.of_nat d - 1)) with (d - 1) by lia.
        destruct (c <? d - 1); [|reflexivity].
        subst p. unfold Qnat. rewrite Nat2Z.inj_sub by lia. reflexivity. }
      rewrite Hw.
      destruct (Glph c Hc) as [G0 G1].
      destruct h as [|[|h]]; [| |lia].
      - rewrite G0, Gm0 by assumption. reflexivity.
      - rewrite G1, Gm1 by assumption. reflexivity. }
    pose proof (Hrow 0 ltac:(lia)) as Hrow0. pose proof (Hrow 1 ltac:(lia)) as Hrow1.
    rewrite !sum_upto_S. cbv beta. rewrite Hrow0, Hrow1.
    change (sum_upto 0 (fun i => sum_upto d (fun j => get weighted [i; j]))) with 0%Q.
    rewrite Qplus_0_l, sum_upto_plus.
    apply sum_upto_eq. intros c Hc.
    cbn [nth Nat.eqb arw].
    replace (0 * d + c) with c by lia. replace (1 * d + c) with (d + c) by lia.
    ring.
Qed.

Lemma sum_space_time_weight hp d :
  2 <= d -> (sum_upto d (space_time_weight hp d) == 1)%Q.
Proof.
  intros Hd. destruct d as [|m]; [lia|].
  rewrite sum_upto_S.
  rewrite (sum_upto_eq m _ (fun _ => ((1 - time_derivative_weight hp) / Qnat m)%Q)).
  - rewrite sum_upto_const. unfold space_time_weight.
    replace (S m - 1) with m by lia. rewrite Nat.ltb_irrefl.
    field. apply Qnat_nonzero. lia.
  - intros c Hc. unfold space_time_weight.
    replace (S m - 1) with m by lia.
    destruct (Nat.ltb_spec c m); [reflexivity|lia].
Qed.

Lemma space_time_weight_nonneg hp d c :
  (0 <= time_derivative_weight hp)%Q -> (time_derivative_weight hp <= 1)%Q ->
  (0 <= space_time_weight hp d c)%Q.
Proof.
  intros H0 H1. unfold space_time_weight.
  destruct (c <? d - 1) eqn:E; [|exact H0].
  apply Nat.ltb_lt in E.
  apply Qle_shift_div_l.
  - unfold Qnat, Qlt. simpl. lia.
  - rewrite Qmult_0_l. apply (Qplus_le_r _ _ (time_derivative_weight hp)).
    ring_simplify. exact H1.
Qed.

(** One entry of the two loss components, as numbers. *)
Lemma relative_error_bounds (l p b f : Q) :
  (0 < f)%Q ->
  (0 <= (l - p) ^ 2 / ((l - b) ^ 2 + f))%Q
  /\ ((p == l)%Q ->
      ((l - p) ^ 2 == 0)%Q /\ ((l - p) ^ 2 / ((l - b) ^ 2 + f) == 0)%Q)
  /\ ((p == b)%Q -> ((l - p) ^ 2 / ((l - b) ^ 2 + f) < 1)%Q).
Proof.
  intros Hf.
  assert (Hden : (0 < (l - b) ^ 2 + f)%Q).
  { apply Qlt_le_trans with (y := (0 + f)%Q); [rewrite Qplus_0_l; exact Hf|].
    apply Qplus_le_compat; [apply Qsquare_nonneg|apply Qle_refl]. }
  split; [|split].
  - apply Qle_shift_div_l; [exact Hden|]. rewrite Qmult_0_l. apply Qsquare_nonneg.
  - intros E.
    assert (Z : ((l - p) ^ 2 == 0)%Q) by (rewrite E; simpl; ring).
    split; [exact Z|]. rewrite Z. unfold Qdiv. apply Qmult_0_l.
  - intros E. apply Qlt_shift_div_r; [exact Hden|].
    rewrite E, Qmult_1_l.
    rewrite <- (Qplus_0_r ((l - b) ^ 2)) at 1.
    apply Qplus_lt_r. exact Hf.
Qed.

(** X15. [loss_components] on [batch, x, channel] tensors with a positive
    per-channel floor: both components are non-negative everywhere, both
    vanish where the prediction equals the label, and the relative error is
    below 1 where the prediction equals the baseline. *)
Theorem loss_components_bounds
    (predictions labels baseline error_floor : tensor) (n x d : nat) :
  shape predictions = [n; x; d] -> shape labels = [n; x; d] ->
  shape baseline = [n; x; d] -> shape error_floor = [d] ->
  (forall c, c < d -> (0 < get error_floor [c])%Q) ->
  exists model_error relative_error,
    loss_components predictions labels baseline error_floor
    = Ok (model_error, relative_error)
    /\ forall i j c, i < n -> j < x -> c < d ->
         (0 <= get model_error [i; j; c])%Q
         /\ (0 <= get relative_error [i; j; c])%Q
         /\ ((get predictions [i; j; c] == get labels [i; j; c])%Q ->
             (get model_error [i; j; c] == 0)%Q
             /\ (get relative_error [i; j; c] == 0)%Q)
         /\ ((get predictions [i; j; c] == get baseline [i; j; c])%Q ->
             (get relative_error [i; j; c] < 1)%Q).
Proof.
  intros HP HL HB HF Hpos.
  destruct (loss_components_returns predictions labels baseline error_floor n x d
              HP HL HB HF) as (me & re & Eloss & _ & _ & Hget).
  exists me, re. split; [exact Eloss|].
  intros i j c Hi Hj Hc. destruct (Hget i j c Hi Hj Hc) as [Gme Gre].
  rewrite Gre, Gme.
  destruct (relative_error_bounds (get labels [i; j; c]) (get predictions [i; j; c])
              (get baseline [i; j; c]) (get error_floor [c]) (Hpos c Hc))
    as (Hre & Hzero & Hone).
  split; [apply Qsquare_nonneg|]. split; [exact Hre|]. split; assumption.
Qed.

(** X16. On labels with a single channel there is no space derivative to
    share the weight: [calculate_loss] raises a [ZeroDivisionError] when it
    divides the space weight among zero channels, whatever the time
    derivative weight. *)
Theorem calculate_loss_single_channel
    (predictions labels baseline : tensor) (hparams : TrainingHParams)
    (scale : list Q) (floor : tensor) (n x : nat) :
  shape predictions = [n; x; 1] -> shape labels = [n; x; 1] ->
  shape baseline = [n; x; 1] ->
  error_scale hparams = Some scale -> length scale = 2 ->
  error_floor hparams = Some floor -> shape floor = [1] ->
  calculate_loss predictions labels baseline hparams = Raise ZeroDivisionError.
Proof.
  intros HP HL HB Hscale Hlen Hfloor HF.
  destruct (np_reshape_2_rows_returns scale 1 Hlen) as (es & Ees & Ses & _ & _).
  destruct (loss_components_returns predictions labels baseline floor n x 1 HP HL HB HF)
    as (me & re & Eloss & Sme & Sre & _).
  destruct (tf_reduce_mean_axes01_channels me n x 1 Sme) as (m0 & Em0 & Sm0 & _).
  destruct (tf_reduce_mean_axes01_channels re n x 1 Sre) as (m1 & Em1 & Sm1 & _).
  destruct (np_stack2_rows m0 m1 1 Sm0 Sm1) as (lph & Elph & Slph & _).
  destruct (broadcast2_same_shape Qmult lph es [2; 1] Slph Ses)
    as (normalized & Enorm & _ & _).
  unfold calculate_loss. rewrite Hscale, Hfloor. cbn [hparam mbind result_bind].
  rewrite Ees. cbn [mbind result_bind]. rewrite Eloss. cbn [mbind result_bind].
  rewrite Em0. cbn [mbind result_bind]. rewrite Em1. cbn [mbind result_bind].
  rewrite Elph. cbn [mbind result_bind].
  unfold np_mul. rewrite Enorm. cbn [mbind result_bind].
  unfold shape_dim_last, rank, last_dim. rewrite HL. reflexivity.
Qed.

Lemma Forall_nth_nonneg (l : list Q) k :
  Forall (Qle 0) l -> (0 <= nth k l 0)%Q.
Proof.
  intros H. revert k. induction H as [|a l Ha _ IH]; intros [|k]; simpl;
    try apply Qle_refl; auto.
Qed.

(** X17. With weights in [0, 1], non-negative scales and a positive floor,
    the loss of [calculate_loss] on a non-empty [batch, x, channel] dataset
    of at least two channels is a non-negative scalar, and it is zero when
    the predictions are the labels. *)
Theorem calculate_loss_nonnegative
    (predictions labels baseline : tensor) (hparams : TrainingHParams)
    (scale : list Q) (floor : tensor) (n x d : nat) :
  shape predictions = [n; x; d] -> shape labels = [n; x; d] ->
  shape baseline = [n; x; d] ->
  error_scale hparams = Some scale -> length scale = 2 * d ->
  error_floor hparams = Some floor -> shape floor = [d] ->
  2 <= d -> 0 < n -> 0 < x ->
  Forall (Qle 0) scale ->
  (forall c, c < d -> (0 < get floor [c])%Q) ->
  (0 <= relative_error_weight (base_hparams hparams))%Q ->
  (relative_error_weight (base_hparams hparams) <= 1)%Q ->
  (0 <= time_derivative_weight (base_hparams hparams))%Q ->
  (time_derivative_weight (base_hparams hparams) <= 1)%Q ->
  exists loss,
    calculate_loss predictions labels baseline hparams = Ok loss
    /\ shape loss = []
    /\ (0 <= get loss [])%Q
    /\ ((forall i j c, i < n -> j < x -> c < d ->
           (get predictions [i; j; c] == get labels [i; j; c])%Q) ->
        (get loss [] == 0)%Q).
Proof.
  intros HP HL HB Hscale Hlen Hfloor HF Hd Hn Hx Hnonneg Hpos Hr0 Hr1 Hw0 Hw1.
  destruct (calculate_loss_returns predictions labels baseline hparams scale floor n x d
              HP HL HB Hscale Hlen Hfloor HF Hd)
    as (loss & me & re & Ecalc & Eloss & Sloss & Gloss).
  destruct (loss_components_returns predictions labels baseline floor n x d
              HP HL HB HF) as (me' & re' & Eloss' & _ & _ & Hget).
  rewrite Eloss in Eloss'. injection Eloss' as <- <-.
  assert (Hb : forall i j c, i < n -> j < x -> c < d ->
            (0 <= get me [i; j; c])%Q /\ (0 <= get re [i; j; c])%Q
            /\ ((get predictions [i; j; c] == get labels [i; j; c])%Q ->
                (get me [i; j; c] == 0)%Q /\ (get re [i; j; c] == 0)%Q)).
  { intros i j c Hi Hj Hc. destruct (Hget i j c Hi Hj Hc) as [Gme Gre].
    rewrite Gre, Gme.
    destruct (relative_error_bounds (get labels [i; j; c]) (get predictions [i; j; c])
                (get baseline [i; j; c]) (get floor [c]) (Hpos c Hc))
      as (Hre & Hzero & _).
    split; [apply Qsquare_nonneg|]. split; assumption. }
  exists loss. split; [exact Ecalc|]. split; [exact Sloss|].
  set (hp := base_hparams hparams) in *.
  split.
  - rewrite Gloss. unfold weighted_loss. apply sum_upto_nonneg. intros c Hc.
    apply Qmult_le_0_compat; [apply space_time_weight_nonneg; assumption|].
    replace 0%Q with (0 + 0)%Q by reflexivity.
    apply Qplus_le_compat; apply Qmult_le_0_compat.
    + apply (Qplus_le_r _ _ (relative_error_weight hp)). ring_simplify. exact Hr1.
    + apply Qmult_le_0_compat; [|apply Forall_nth_nonneg; exact Hnonneg].
      apply dataset_mean_nonneg. intros i j Hi Hj. apply Hb; assumption.
    + exact Hr0.
    + apply Qmult_le_0_compat; [|apply Forall_nth_nonneg; exact Hnonneg].
      apply dataset_mean_nonneg. intros i j Hi Hj. apply Hb; assumption.
  - intros Heq. rewrite Gloss. unfold weighted_loss.
    apply sum_upto_zero. intros c Hc.
    rewrite (dataset_mean_zero me n x c), (dataset_mean_zero re n x c).
    + ring.
    + intros i j Hi Hj. apply Hb; try assumption. apply Heq; assumption.
    + intros i j Hi Hj. apply Hb; try assumption. apply Heq; assumption.
Qed.

Lemma np_mean_axes12_wf t m : np_mean_axes12 t = Ok m -> wf m.
Proof.
  unfold np_mean_axes12. intros H.
  destruct (shape t) as [|h [|n [|x rest]]]; try discriminate H.
  injection H as <-. apply wf_tabulate.
Qed.

Lemma np_where_positive_reciprocal_wf t r :
  wf t -> np_where_positive_reciprocal t = Ok r -> wf r.
Proof.
  intros Hwf Hr.
  destruct (np_where_positive_reciprocal_returns t) as (r' & Er & Sr & Lr & _).
  rewrite Er in Hr. injection Hr as <-.
  unfold wf in *. rewrite Lr, Sr. exact Hwf.
Qed.

Lemma determine_loss_scales_wf data hparams error_floor error_scale :
  determine_loss_scales data hparams = Ok (error_floor, error_scale) ->
  wf error_scale.
Proof.
  unfold determine_loss_scales. intros H.
  repeat match type of H with
         | context [mbind _ ?m] =>
             let E := fresh "E" in
             destruct m as [[? ?]|?] eqn:E || destruct m eqn:E;
             cbn [mbind result_bind] in H; try discriminate H
         end.
  injection H as <- <-.
  match goal with
  | Em : np_mean_axes12 _ = Ok ?m, Es : np_where_positive_reciprocal ?m = Ok _ |- _ =>
      exact (np_where_positive_reciprocal_wf _ _ (np_mean_axes12_wf _ _ Em) Es)
  end.
Qed.

Lemma error_floor_minimum_pos : (0 < error_floor_minimum)%Q.
Proof. reflexivity. Qed.

(** X18. The calibration is what the loss needs.  On a [batch, x, channel]
    dataset of at least two channels in which every channel has a non-zero
    label, [add_data_dependent_hparams] adds both entries, and
    [calculate_loss] of all-zero predictions over that dataset, under the
    hyper-parameters so completed, is 1. *)
Theorem calibrated_loss_of_zero_predictions
    (hparams : TrainingHParams) (data : LoadedData) (n x d : nat) :
  shape (labels data) = [n; x; d] ->
  shape (baseline data) = [n; x; d] ->
  (0 <= error_floor_quantile (base_hparams hparams))%Q ->
  (error_floor_quantile (base_hparams hparams) <= 1)%Q ->
  error_scale hparams = None -> error_floor hparams = None ->
  2 <= d ->
  (forall c, c < d ->
     exists i j, i < n /\ j < x /\ ~ (get (labels data) [i; j; c] == 0)%Q) ->
  exists completed loss,
    add_data_dependent_hparams hparams data = (completed, Ok tt)
    /\ base_hparams completed = base_hparams hparams
    /\ calculate_loss (np_zeros_like (labels data)) (labels data) (baseline data)
         completed = Ok loss
    /\ shape loss = []
    /\ (get loss [] == 1)%Q.
Proof.
  intros HL HB Hq0 Hq1 Hns Hnf Hd Hlabels.
  destruct (determine_loss_scales_calibration data (base_hparams hparams) n x d
              HL HB Hq0 Hq1)
    as (floor & scale & me & re & Hrun & Hloss & Sfloor & Sscale & Gfloor & Gerr & Gscale).
  pose proof (determine_loss_scales_wf _ _ _ _ Hrun) as Wscale.
  set (completed := {| base_hparams := base_hparams hparams;
                       base_batch_size := base_batch_size hparams;
                       learning_rates := learning_rates hparams;
                       learning_stops := learning_stops hparams;
                       frac_training := frac_training hparams;
                       eval_interval := eval_interval hparams;
                       error_scale := Some (Tensor.data scale);
                       error_floor := Some floor |}).
  assert (Hlen : length (Tensor.data scale) = 2 * d).
  { unfold wf in Wscale. rewrite Wscale, Sscale. cbn [num_elements]. lia. }
  assert (HZ : shape (np_zeros_like (labels data)) = [n; x; d]) by exact HL.
  destruct (calculate_loss_returns (np_zeros_like (labels data)) (labels data)
              (baseline data) completed (Tensor.data scale) floor n x d
              HZ HL HB eq_refl Hlen eq_refl Sfloor Hd)
    as (loss & me' & re' & Ecalc & Eloss & Sloss & Gloss).
  rewrite Hloss in Eloss. injection Eloss as <- <-.
  exists completed, loss.
  split; [|split; [reflexivity|split; [exact Ecalc|split; [exact Sloss|]]]].
  - unfold add_data_dependent_hparams, add_hparam_error_scale, add_hparam_error_floor.
    rewrite Hrun, Hns. cbn [error_floor]. rewrite Hnf. reflexivity.
  - rewrite Gloss. unfold weighted_loss. cbn [base_hparams completed].
    rewrite <- (sum_space_time_weight (base_hparams hparams) d Hd).
    apply sum_upto_eq. intros c Hc.
    destruct (Hlabels c Hc) as (i0 & j0 & Hi0 & Hj0 & Hnz).
    assert (Hfloor : (0 < get floor [c])%Q).
    { rewrite Gfloor by exact Hc.
      eapply Qlt_le_trans; [exact error_floor_minimum_pos|apply qmaximum_lower]. }
    assert (Hme : forall i j, i < n -> j < x -> (0 <= get me [i; j; c])%Q).
    { intros i j Hi Hj. destruct (Gerr i j c Hi Hj Hc) as [G _]. rewrite G.
      apply Qsquare_nonneg. }
    assert (Hden : forall i j,
              (0 < (get (labels data) [i; j; c] - get (baseline data) [i; j; c]) ^ 2
                   + get floor [c])%Q).
    { intros i j. apply Qlt_le_trans with (y := (0 + get floor [c])%Q).
      - rewrite Qplus_0_l. exact Hfloor.
      - apply Qplus_le_compat; [apply Qsquare_nonneg|apply Qle_refl]. }
    assert (Hre : forall i j, i < n -> j < x -> (0 <= get re [i; j; c])%Q).
    { intros i j Hi Hj. destruct (Gerr i j c Hi Hj Hc) as [_ G]. rewrite G.
      apply Qle_shift_div_l; [apply Hden|]. rewrite Qmult_0_l. apply Hme; assumption. }
    assert (Hme0 : (0 < get me [i0; j0; c])%Q).
    { destruct (Gerr i0 j0 c Hi0 Hj0 Hc) as [G _]. rewrite G.
      apply Qsquare_pos. intros E. apply Hnz. rewrite <- E. ring. }
    assert (Hre0 : (0 < get re [i0; j0; c])%Q).
    { destruct (Gerr i0 j0 c Hi0 Hj0 Hc) as [_ G]. rewrite G.
      apply Qlt_shift_div_l; [apply Hden|]. rewrite Qmult_0_l. exact Hme0. }
    pose proof (dataset_mean_pos me n x c i0 j0 Hme Hi0 Hj0 Hme0) as Pme.
    pose proof (dataset_mean_pos re n x c i0 j0 Hre Hi0 Hj0 Hre0) as Pre.
    destruct (Gscale c Hc) as [G0 G1].
    assert (N0 : nth c (Tensor.data scale) 0%Q = get scale [0; c]).
    { unfold get. rewrite Sscale. cbn [ravel num_elements]. f_equal. lia. }
    assert (N1 : nth (d + c) (Tensor.data scale) 0%Q = get scale [1; c]).
    { unfold get. rewrite Sscale. cbn [ravel num_elements]. f_equal. lia. }
    rewrite N0, N1, G0, G1.
    rewrite (proj2 (Qpositive_spec _) Pme), (proj2 (Qpositive_spec _) Pre).
    field. split; intros E.
    + rewrite E in Pre. exact (Qlt_irrefl _ Pre).
    + rewrite E in Pme. exact (Qlt_irrefl _ Pme).
Qed.

Lemma loss_components_bounds_witness :
  let floor := tabulate [2] (fun _ => 1%Q) in
  exists model_error relative_error,
    loss_components (baseline example_data) (labels example_data) (baseline example_data)
      floor = Ok (model_error, relative_error)
    /\ forall i j c, i < 2 -> j < 2 -> c < 2 ->
         (0 <= get model_error [i; j; c])%Q
         /\ (0 <= get relative_error [i; j; c])%Q
         /\ ((get (baseline example_data) [i; j; c] == get (labels example_data) [i; j; c])%Q ->
             (get model_error [i; j; c] == 0)%Q
             /\ (get relative_error [i; j; c] == 0)%Q)
         /\ ((get (baseline example_data) [i; j; c]
              == get (baseline example_data) [i; j; c])%Q ->
             (get relative_error [i; j; c] < 1)%Q).
Proof.
  intros floor.
  apply (loss_components_bounds (baseline example_data) (labels example_data)
           (baseline example_data) floor 2 2 2);
    [reflexivity|reflexivity|reflexivity|reflexivity|].
  intros c Hc. subst floor. rewrite get_tabulate by (apply in_range_1; exact Hc).
  reflexivity.
Defined.

Lemma calculate_loss_single_channel_witness :
  let t := tabulate [2; 2; 1] (fun idx => Qnat (ravel [2; 2; 1] idx)) in
  calculate_loss t t t (example_scaled_hparams 1) = Raise ZeroDivisionError.
Proof.
  intros t.
  apply (calculate_loss_single_channel t t t (example_scaled_hparams 1)
           (repeat 1%Q 2) (tabulate [1] (fun _ => 1%Q)) 2 2); reflexivity.
Defined.

Lemma calculate_loss_nonnegative_witness :
  exists loss,
    calculate_loss (baseline example_data) (labels example_data) (baseline example_data)
      (example_scaled_hparams 2) = Ok loss
    /\ shape loss = []
    /\ (0 <= get loss [])%Q
    /\ ((forall i j c, i < 2 -> j < 2 -> c < 2 ->
           (get (baseline example_data) [i; j; c]
            == get (labels example_data) [i; j; c])%Q) ->
        (get loss [] == 0)%Q).
Proof.
  apply (calculate_loss_nonnegative (baseline example_data) (labels example_data)
           (baseline example_data) (example_scaled_hparams 2)
           (repeat 1%Q 4) (tabulate [2] (fun _ => 1%Q)) 2 2 2);
    try reflexivity; try lia.
  - cbn [repeat Nat.mul Nat.add].
    repeat (constructor; [unfold Qle; simpl; lia|]). constructor.
  - intros c Hc. rewrite get_tabulate by (apply in_range_1; exact Hc). reflexivity.
  - unfold Qle; simpl; lia.
  - unfold Qle; simpl; lia.
  - unfold Qle; simpl; lia.
  - unfold Qle; simpl; lia.
Defined.

Lemma calibrated_loss_of_zero_predictions_witness :
  exists completed loss,
    add_data_dependent_hparams example_training_hparams example_data
    = (completed, Ok tt)
    /\ base_hparams completed = base_hparams example_training_hparams
    /\ calculate_loss (np_zeros_like (labels example_data)) (labels example_data)
         (baseline example_data) completed = Ok loss
    /\ shape loss = []
    /\ (get loss [] == 1)%Q.
Proof.
  apply (calibrated_loss_of_zero_predictions example_training_hparams example_data 2 2 2);
    try reflexivity; try lia.
  - unfold Qle; simpl; lia.
  - unfold Qle; simpl; lia.
  - intros c Hc. exists 0, 0.
    split; [lia|]. split; [lia|].
    destruct c as [|[|c]]; [vm_compute; discriminate|vm_compute; discriminate|lia].
Defined.

(* ================================================================== *)
(** * The model inputs                                                  *)
(* ================================================================== *)

Lemma runs_mapM {A B} (f : A -> TF B) (P : A -> B -> Prop) ops l :
  Forall (fun a => exists b, runs (f a) (Ok b) ops /\ P a b) l ->
  exists bs, runs (mapM f l) (Ok bs) (concat (repeat ops (length l)))
             /\ Forall2 P l bs.
Proof.
  induction 1 as [|a l (b & Hb & HP) _ (bs & Hbs & HPs)].
  - exists []. split; [apply runs_ret|constructor].
  - exists (b :: bs). split; [|constructor; assumption].
    cbn [mapM length repeat concat].
    eapply runs_bind_ok; [exact Hb|].
    eapply runs_eq; [|reflexivity|apply app_nil_r].
    eapply runs_bind_ok; [exact Hbs|apply runs_ret].
Qed.

Lemma resample_func_cases method resample :
  _RESAMPLE_FUNCS method = Ok resample ->
  resample = resample_mean \/ resample = subsample.
Proof.
  unfold _RESAMPLE_FUNCS. intros H.
  destruct (String.eqb method "mean"); [left; congruence|].
  destruct (String.eqb method "subsample"); [right; congruence|discriminate].
Qed.

Lemma calculate_baseline_derivatives_shapes ext et inputs n :
  shape_preserving ext et ->
  length (calculate_baseline_derivatives ext inputs
            {| equation_type_of := et; num_points := n |})
  = length (DERIVATIVE_ORDERS et) + 1
  /\ Forall (fun t => shape t = shape inputs)
       (calculate_baseline_derivatives ext inputs
          {| equation_type_of := et; num_points := n |}).
Proof.
  intros [Hfd Heom]. unfold calculate_baseline_derivatives.
  cbn [equation_type_of num_points]. split.
  - rewrite length_app, length_map. reflexivity.
  - apply Forall_app. split.
    + apply List.Forall_map. apply List.Forall_forall. intros order _. apply Hfd.
    + constructor; [apply Heom|constructor].
Qed.

Lemma tf_stack_last_runs ts b x :
  ts <> [] -> Forall (fun t => shape t = [b; x]) ts ->
  exists r,
    runs (tf_stack_last ts) (Ok r) [OpStack]
    /\ shape r = [b; x; length ts]
    /\ forall i j c d, i < b -> j < x -> c < length ts ->
         get r [i; j; c] = get (nth c ts d) [i; j].
Proof.
  intros Hne Hall. destruct ts as [|t0 ts']; [contradiction|].
  remember (t0 :: ts') as ts eqn:Ets.
  assert (H0 : shape t0 = [b; x]) by (subst ts; inversion Hall; assumption).
  assert (Hcheck : forallb (fun t => bool_decide (shape t = shape t0)) ts = true).
  { apply forallb_forall. intros t Ht. apply bool_decide_eq_true_2.
    rewrite List.Forall_forall in Hall. rewrite H0. apply Hall. exact Ht. }
  eexists. split; [|split].
  - unfold tf_stack_last. rewrite Ets at 1. rewrite Hcheck. apply runs_op.
  - cbn [shape tabulate]. rewrite H0. reflexivity.
  - intros i j c d Hi Hj Hc.
    rewrite get_tabulate by (rewrite H0; apply in_range_3_intro; assumption).
    cbn [List.last removelast]. f_equal. apply nth_indep. exact Hc.
Qed.

(** What [model_inputs] returns for a resampling function that takes
    [batch, w] fields to [batch, coarse] fields. *)
Lemma model_inputs_returns ext fine_inputs hp et resample ops b w :
  shape fine_inputs = [b; w] ->
  (0 < resample_factor hp)%Z ->
  _RESAMPLE_FUNCS (resample_method hp) = Ok resample ->
  equation_catalogue ext (equation hp) (conservative hp) = Ok et ->
  shape_preserving ext et ->
  (forall t, shape t = [b; w] ->
     exists r, runs (resample t (resample_factor hp)) (Ok r) ops
               /\ shape r = [b; w / Z.to_nat (resample_factor hp)]) ->
  let factor := resample_factor hp in
  let coarse := w / Z.to_nat factor in
  let D := length (DERIVATIVE_ORDERS et) in
  let fine_derivatives :=
    calculate_baseline_derivatives ext fine_inputs
      {| equation_type_of := et; num_points := w |} in
  exists labels baseline inputs,
    runs (model_inputs ext fine_inputs hp)
         (Ok (<["labels" := labels]>
                (<["baseline" := baseline]> (<["inputs" := inputs]> ∅))))
         (concat (repeat ops (D + 1)) ++ [OpStack] ++ ops ++ [OpStack])
    /\ outcome (resample fine_inputs factor) = Ok inputs
    /\ shape inputs = [b; coarse]
    /\ shape labels = [b; coarse; D + 1]
    /\ shape baseline = [b; coarse; D + 1]
    /\ (forall c, c < D + 1 ->
          exists r,
            outcome (resample (nth c fine_derivatives fine_inputs) factor) = Ok r
            /\ forall i j, i < b -> j < coarse -> get labels [i; j; c] = get r [i; j])
    /\ (forall c i j, c < D + 1 -> i < b -> j < coarse ->
          get baseline [i; j; c]
          = get (nth c (calculate_baseline_derivatives ext inputs
                          {| equation_type_of := et; num_points := coarse |}) inputs)
                [i; j]).
Proof.
  intros Hsh Hf Hres Hcat Hext Hresample factor coarse D fine_derivatives.
  destruct (calculate_baseline_derivatives_shapes ext et fine_inputs w Hext)
    as [Lfd Sfd].
  fold fine_derivatives in Lfd, Sfd. rewrite Hsh in Sfd.
  set (P := fun (t r : tensor) =>
              outcome (resample t factor) = Ok r /\ shape r = [b; coarse]).
  assert (Hall : Forall (fun t => exists r, runs (resample t factor) (Ok r) ops /\ P t r)
                   fine_derivatives).
  { eapply Forall_impl; [exact Sfd|]. intros t Ht. cbv beta in Ht.
    destruct (Hresample t Ht) as (r & Hr & Sr).
    exists r. split; [exact Hr|]. split; [eapply runs_outcome; exact Hr|exact Sr]. }
  destruct (runs_mapM _ P ops fine_derivatives Hall) as (rs & Hrs & HP).
  pose proof (Forall2_length _ _ _ HP) as Lrs.
  assert (Srs : Forall (fun r => shape r = [b; coarse]) rs).
  { clear -HP. induction HP as [|t r ts rs' [_ Hr] _ IH]; constructor; assumption. }
  assert (Nrs : rs <> []) by (intros ->; simpl in Lrs; lia).
  destruct (tf_stack_last_runs rs b coarse Nrs Srs) as (labels & Hlabels & Slabels & Glabels).
  destruct (Hresample fine_inputs Hsh) as (inputs & Hinputs & Sinputs).
  destruct (calculate_baseline_derivatives_shapes ext et inputs coarse Hext)
    as [Lbl Sbl].
  set (coarse_derivatives :=
         calculate_baseline_derivatives ext inputs
           {| equation_type_of := et; num_points := coarse |}) in *.
  rewrite Sinputs in Sbl.
  assert (Nbl : coarse_derivatives <> []) by (intros E; rewrite E in Lbl; simpl in Lbl; lia).
  destruct (tf_stack_last_runs coarse_derivatives b coarse Nbl Sbl)
    as (baseline & Hbaseline & Sbaseline & Gbaseline).
  exists labels, baseline, inputs.
  split; [|split; [|split; [|split; [|split; [|split]]]]].
  - unfold model_inputs.
    eapply runs_eq; [|reflexivity|].
    + eapply runs_bind_ok.
      { unfold shape_dim_last, rank, last_dim. rewrite Hsh. apply runs_py. }
      cbn [List.last]. rewrite Hres.
      eapply runs_bind_ok; [apply runs_py|].
      rewrite from_hparams_typed, Hcat.
      eapply runs_bind_ok; [apply runs_py|].
      eapply runs_bind_ok; [exact Hrs|].
      eapply runs_bind_ok; [exact Hlabels|].
      unfold py_floordiv. destruct (Z.eqb_spec (resample_factor hp) 0) as [E|_]; [lia|].
      eapply runs_bind_ok; [apply runs_py|].
      eapply runs_bind_ok; [exact Hinputs|].
      replace (Z.to_nat (Z.of_nat w / resample_factor hp)) with coarse.
      2:{ subst coarse factor.
          rewrite <- (Z2Nat.id (resample_factor hp)) at 2 by lia.
          rewrite <- Nat2Z.inj_div, Nat2Z.id. reflexivity. }
      eapply runs_bind_ok; [exact Hbaseline|apply runs_ret].
    + fold fine_derivatives. rewrite Lfd. subst D. cbn [app]. reflexivity.
  - eapply runs_outcome. exact Hinputs.
  - exact Sinputs.
  - rewrite Slabels, <- Lrs, Lfd. reflexivity.
  - rewrite Sbaseline, Lbl. reflexivity.
  - intros c Hc.
    destruct (lookup_lt_is_Some_2 fine_derivatives c ltac:(lia)) as [t Ht].
    destruct (Forall2_lookup_l _ _ _ _ _ HP Ht) as (r & Hr & Hout & _).
    exists r. split.
    + rewrite (nth_lookup_Some _ _ _ _ Ht). exact Hout.
    + intros i j Hi Hj.
      rewrite (Glabels i j c r Hi Hj ltac:(lia)).
      rewrite (nth_lookup_Some _ _ _ _ Hr). reflexivity.
  - intros c i j Hc Hi Hj. apply Gbaseline; try assumption. lia.
Qed.

(** X19. [model_inputs] looks the resampling method up before it builds
    anything: a method other than 'mean' and 'subsample' is a [KeyError],
    and no tensor operation is invoked. *)
Theorem model_inputs_unknown_method
    (ext : Externals) (fine_inputs : tensor) (hp : HParams) :
  0 < rank fine_inputs ->
  resample_method hp <> "mean" -> resample_method hp <> "subsample" ->
  outcome (model_inputs ext fine_inputs hp) = Raise KeyError
  /\ invoked (model_inputs ext fine_inputs hp) = [].
Proof.
  intros Hr Hm Hs.
  assert (Hrun : runs (model_inputs ext fine_inputs hp) (Raise KeyError) []).
  { unfold model_inputs.
    eapply (runs_bind_ok _ _ _ [] _ []).
    { unfold shape_dim_last. destruct (Nat.ltb_spec 0 (rank fine_inputs)); [|lia].
      apply runs_py. }
    apply runs_bind_raise. unfold _RESAMPLE_FUNCS.
    destruct (String.eqb_spec (resample_method hp) "mean"); [contradiction|].
    destruct (String.eqb_spec (resample_method hp) "subsample"); [contradiction|].
    apply runs_py. }
  split; [eapply runs_outcome|eapply runs_invoked]; exact Hrun.
Qed.

(** X20. The contract of [model_inputs].  On a non-empty [batch, w] field,
    with a positive factor that divides [w], a known resampling method, and
    finite differences and an equation of motion that keep the shape of the
    field, it returns a dictionary whose 'inputs' entry is the resampled
    field, of shape [batch, w/factor], and whose 'labels' and 'baseline'
    entries have shape [batch, w/factor, D + 1]: channel [c] of the labels
    is the resampled [c]-th derivative of the fine field, channel [c] of the
    baseline the [c]-th derivative of the resampled field, computed on
    [w/factor] grid points. *)
Theorem model_inputs_contract
    (ext : Externals) (fine_inputs : tensor) (hp : HParams) (et : EquationType)
    (resample : tensor -> Z -> TF tensor) (b w : nat) :
  shape fine_inputs = [b; w] -> 0 < w ->
  (0 < resample_factor hp)%Z -> (resample_factor hp | Z.of_nat w)%Z ->
  _RESAMPLE_FUNCS (resample_method hp) = Ok resample ->
  equation_catalogue ext (equation hp) (conservative hp) = Ok et ->
  shape_preserving ext et ->
  let factor := resample_factor hp in
  let coarse := w / Z.to_nat factor in
  let D := length (DERIVATIVE_ORDERS et) in
  let fine_derivatives :=
    calculate_baseline_derivatives ext fine_inputs
      {| equation_type_of := et; num_points := w |} in
  exists result labels baseline inputs,
    outcome (model_inputs ext fine_inputs hp) = Ok result
    /\ result !! "labels" = Some labels
    /\ result !! "baseline" = Some baseline
    /\ result !! "inputs" = Some inputs
    /\ outcome (resample fine_inputs factor) = Ok inputs
    /\ shape inputs = [b; coarse]
    /\ shape labels = [b; coarse; D + 1]
    /\ shape baseline = [b; coarse; D + 1]
    /\ (forall c, c < D + 1 ->
          exists r,
            outcome (resample (nth c fine_derivatives fine_inputs) factor) = Ok r
            /\ forall i j, i < b -> j < coarse -> get labels [i; j; c] = get r [i; j])
    /\ (forall c i j, c < D + 1 -> i < b -> j < coarse ->
          get baseline [i; j; c]
          = get (nth c (calculate_baseline_derivatives ext inputs
                          {| equation_type_of := et; num_points := coarse |}) inputs)
                [i; j]).
Proof.
  intros Hsh Hw Hf Hdiv Hres Hcat Hext factor coarse D fine_derivatives.
  assert (Hresample : exists ops, forall t, shape t = [b; w] ->
            exists r, runs (resample t (resample_factor hp)) (Ok r) ops
                      /\ shape r = [b; w / Z.to_nat (resample_factor hp)]).
  { destruct (resample_func_cases _ _ Hres) as [-> | ->].
    - exists [OpReshape; OpMean]. intros t Ht.
      destruct (resample_mean_returns t b w _ Ht Hw Hf Hdiv) as (r & Hr & Sr & _).
      exists r. split; assumption.
    - exists [OpStridedSlice]. intros t Ht.
      destruct (subsample_returns t b w _ Ht Hf Hdiv) as (r & Hr & Sr & _).
      exists r. split; assumption. }
  destruct Hresample as (ops & Hresample).
  destruct (model_inputs_returns ext fine_inputs hp et resample ops b w
              Hsh Hf Hres Hcat Hext Hresample)
    as (labels & baseline & inputs & Hrun & Hin & Sin & Slab & Sbase & Glab & Gbase).
  eexists. exists labels, baseline, inputs.
  split; [eapply runs_outcome; exact Hrun|].
  split; [apply lookup_insert_eq|].
  split; [rewrite lookup_insert_ne by discriminate; apply lookup_insert_eq|].
  split; [rewrite !lookup_insert_ne by discriminate; apply lookup_insert_eq|].
  repeat (split; [assumption|]). assumption.
Qed.

(** X21. When the positive factor does not divide the width of the fine
    field, [model_inputs] raises a [ValueError]: it is the resampling guard
    that refuses the first of the fine derivatives, which have been
    computed by then. *)
Theorem model_inputs_indivisible
    (ext : Externals) (fine_inputs : tensor) (hp : HParams) (et : EquationType)
    (resample : tensor -> Z -> TF tensor) (b w : nat) :
  shape fine_inputs = [b; w] ->
  (0 < resample_factor hp)%Z -> ~ (resample_factor hp | Z.of_nat w)%Z ->
  _RESAMPLE_FUNCS (resample_method hp) = Ok resample ->
  equation_catalogue ext (equation hp) (conservative hp) = Ok et ->
  shape_preserving ext et ->
  outcome (model_inputs ext fine_inputs hp) = Raise ValueError
  /\ exists first,
       calculate_baseline_derivatives ext fine_inputs
         {| equation_type_of := et; num_points := w |} !! 0 = Some first
       /\ shape first = [b; w]
       /\ outcome (resample first (resample_factor hp)) = Raise ValueError.
Proof.
  intros Hsh Hf Hndiv Hres Hcat Hext.
  destruct (calculate_baseline_derivatives_shapes ext et fine_inputs w Hext) as [Lfd Sfd].
  destruct (calculate_baseline_derivatives ext fine_inputs
              {| equation_type_of := et; num_points := w |}) as [|first rest] eqn:Efd;
    [simpl in Lfd; lia|].
  assert (Hfirst : shape first = [b; w]).
  { inversion Sfd; subst. rewrite Hsh in *. assumption. }
  assert (Hinv : invalid_input_shape first (resample_factor hp) = Ok true).
  { destruct (invalid_input_shape_spec first (resample_factor hp) Hf)
      as [[H _]|[_ H]]; [exact H|].
    exfalso. apply H. right. unfold dim. rewrite Hfirst. exact Hndiv. }
  assert (Hguard : runs (resample first (resample_factor hp)) (Raise ValueError) []).
  { destruct (resample_func_cases _ _ Hres) as [-> | ->].
    - apply resample_mean_runs_invalid. exact Hinv.
    - apply subsample_runs_invalid. exact Hinv. }
  split.
  - eapply runs_outcome. unfold model_inputs.
    eapply (runs_bind_ok _ _ _ [] _ []).
    { unfold shape_dim_last, rank, last_dim. rewrite Hsh. apply runs_py. }
    cbn [List.last]. rewrite Hres.
    eapply (runs_bind_ok _ _ _ [] _ []); [apply runs_py|].
    rewrite from_hparams_typed, Hcat.
    eapply (runs_bind_ok _ _ _ [] _ []); [apply runs_py|].
    apply runs_bind_raise. rewrite Efd.
    cbn [mapM]. apply runs_bind_raise. exact Hguard.
  - exists first. split; [reflexivity|]. split; [exact Hfirst|].
    eapply runs_outcome. exact Hguard.
Qed.

Lemma example_shape_preserving conservative :
  shape_preserving example_externals (example_equation conservative).
Proof.
  split.
  - intros t grid order. reflexivity.
  - intros n u derivatives. simpl. destruct (derivatives !! 1); reflexivity.
Qed.

Lemma model_inputs_unknown_method_witness :
  let hp := {| equation := "burgers"; conservative := true; resample_factor := 4;
               resample_method := "median"; num_layers := 3; filter_size := 2;
               polynomial_accuracy_order := 2; polynomial_accuracy_scale := 1;
               ensure_unbiased_coefficients := false; coefficient_grid_min_size := 4;
               relative_error_weight := 1 # 1000000; time_derivative_weight := 1;
               error_floor_quantile := 1 # 10 |} in
  outcome (model_inputs example_externals (example_field 8) hp) = Raise KeyError
  /\ invoked (model_inputs example_externals (example_field 8) hp) = [].
Proof.
  intros hp.
  apply (model_inputs_unknown_method example_externals (example_field 8) hp);
    [vm_compute; lia|discriminate|discriminate].
Defined.

Lemma model_inputs_contract_witness :
  let ext := example_externals in
  let hp := example_hparams 3 2 false true in
  let et := example_equation true in
  let fine_inputs := example_field 8 in
  let fine_derivatives :=
    calculate_baseline_derivatives ext fine_inputs
      {| equation_type_of := et; num_points := 8 |} in
  exists result labels baseline inputs,
    outcome (model_inputs ext fine_inputs hp) = Ok result
    /\ result !! "labels" = Some labels
    /\ result !! "baseline" = Some baseline
    /\ result !! "inputs" = Some inputs
    /\ outcome (subsample fine_inputs 4) = Ok inputs
    /\ shape inputs = [1; 2]
    /\ shape labels = [1; 2; 3]
    /\ shape baseline = [1; 2; 3]
    /\ (forall c, c < 3 ->
          exists r,
            outcome (subsample (nth c fine_derivatives fine_inputs) 4) = Ok r
            /\ forall i j, i < 1 -> j < 2 -> get labels [i; j; c] = get r [i; j])
    /\ (forall c i j, c < 3 -> i < 1 -> j < 2 ->
          get baseline [i; j; c]
          = get (nth c (calculate_baseline_derivatives ext inputs
                          {| equation_type_of := et; num_points := 2 |}) inputs)
                [i; j]).
Proof.
  apply (model_inputs_contract example_externals (example_field 8)
           (example_hparams 3 2 false true) (example_equation true) subsample 1 8);
    [reflexivity|lia|reflexivity|exists 2%Z; reflexivity|reflexivity|reflexivity
    |apply example_shape_preserving].
Defined.

Lemma model_inputs_indivisible_witness :
  let ext := example_externals in
  let hp := example_hparams 3 2 false true in
  outcome (model_inputs ext (example_field 6) hp) = Raise ValueError
  /\ exists first,
       calculate_baseline_derivatives ext (example_field 6)
         {| equation_type_of := example_equation true; num_points := 6 |} !! 0
       = Some first
       /\ shape first = [1; 6]
       /\ outcome (subsample first (resample_factor hp)) = Raise ValueError.
Proof.
  apply (model_inputs_indivisible example_externals (example_field 6)
           (example_hparams 3 2 false true) (example_equation true) subsample 1 6);
    [reflexivity|reflexivity|intros [q Hq]; simpl in Hq; lia|reflexivity|reflexivity
    |apply example_shape_preserving].
Defined.

(* ================================================================== *)
(** * The dataset split                                                 *)
(* ================================================================== *)

Lemma py_round_close q :
  (q - (1 # 2) <= inject_Z (py_round q))%Q /\ (inject_Z (py_round q) <= q + (1 # 2))%Q.
Proof.
  unfold py_round.
  pose proof (Qfloor_le q) as Hlo. pose proof (Qlt_floor q) as Hhi.
  rewrite inject_Z_plus in Hhi.
  destruct (Qcompare_spec (q - inject_Z (Qfloor q)) (1 # 2)) as [E|E|E];
    [destruct (Z.even (Qfloor q))| |]; rewrite ?inject_Z_plus;
    revert Hlo Hhi E; generalize (inject_Z (Qfloor q)); intros F Hlo Hhi E;
    change (inject_Z 1) with 1%Q in *; split; lra.
Qed.

(** Between 0 and [n], rounding stays between 0 and [n]. *)
Lemma py_round_range q n :
  (0 <= q)%Q -> (q <= Qnat n)%Q -> (0 <= py_round q <= Z.of_nat n)%Z.
Proof.
  intros H0 Hn. destruct (py_round_close q) as [Hlo Hhi].
  unfold Qnat in Hn. split.
  - assert (H : (inject_Z (-1) < inject_Z (py_round q))%Q).
    { change (inject_Z (-1)) with (-1)%Q. lra. }
    rewrite <- Zlt_Qlt in H. lia.
  - assert (H : (inject_Z (py_round q) < inject_Z (Z.of_nat n + 1))%Q).
    { rewrite inject_Z_plus. change (inject_Z 1) with 1%Q. lra. }
    rewrite <- Zlt_Qlt in H. lia.
Qed.

Lemma py_slice_index_le k n : py_slice_index k n <= n.
Proof. unfold py_slice_index. destruct (Z.ltb_spec k 0); lia. Qed.

Lemma get_np_rows t n w start stop i j :
  shape t = [n; w] -> start + i < stop -> j < w ->
  get (np_rows t start stop) [i; j] = get t [start + i; j].
Proof.
  intros Hsh Hi Hj. unfold np_rows. rewrite Hsh. cbn [tl].
  rewrite get_tabulate by (apply in_range_2; lia). reflexivity.
Qed.

(** X22. The split of [make_dataset].  Whatever [frac_training] is, and
    however the float product of the number of examples and the fraction
    rounds, the snapshots selected for training and those selected for
    validation partition the [examples, x] snapshots in order: the first
    [k] rows and the remaining ones, for one [k] between 0 and the number
    of examples.  When the float product lies between 0 and the number of
    examples, [k] is that product rounded to the nearest integer (ties to
    even), hence within one half of it. *)
Theorem make_dataset_split
    (float_mul : Q -> Q -> Q) (snapshots : tensor) (hparams : TrainingHParams)
    (n w : nat) :
  shape snapshots = [n; w] ->
  let product := float_mul (Qnat n) (frac_training hparams) in
  exists training validation k,
    make_dataset_snapshots float_mul snapshots hparams true = Ok training
    /\ make_dataset_snapshots float_mul snapshots hparams false = Ok validation
    /\ k <= n
    /\ shape training = [k; w]
    /\ shape validation = [n - k; w]
    /\ (forall i j, i < k -> j < w -> get training [i; j] = get snapshots [i; j])
    /\ (forall i j, i < n - k -> j < w ->
          get validation [i; j] = get snapshots [k + i; j])
    /\ ((0 <= product)%Q -> (product <= Qnat n)%Q ->
        Z.of_nat k = py_round product
        /\ (product - (1 # 2) <= Qnat k)%Q
        /\ (Qnat k <= product + (1 # 2))%Q).
Proof.
  intros Hsh product.
  set (k := py_slice_index (py_round product) n).
  pose proof (py_slice_index_le (py_round product) n) as Hk.
  fold k in Hk.
  exists (np_rows snapshots 0 k), (np_rows snapshots k n), k.
  split; [|split; [|split; [exact Hk|split; [|split; [|split; [|split]]]]]].
  - unfold make_dataset_snapshots, shape_dim. rewrite Hsh. reflexivity.
  - unfold make_dataset_snapshots, shape_dim. rewrite Hsh. reflexivity.
  - unfold np_rows. rewrite Hsh. cbn [shape tabulate tl]. rewrite Nat.sub_0_r. reflexivity.
  - unfold np_rows. rewrite Hsh. reflexivity.
  - intros i j Hi Hj. rewrite (get_np_rows snapshots n w 0 k i j Hsh) by lia. reflexivity.
  - intros i j Hi Hj. rewrite (get_np_rows snapshots n w k n i j Hsh) by lia. reflexivity.
  - intros Hq0 Hqn.
    pose proof (py_round_range _ n Hq0 Hqn) as Hr.
    assert (Ek : Z.of_nat k = py_round product).
    { subst k. unfold py_slice_index.
      destruct (Z.ltb_spec (py_round product) 0); lia. }
    split; [exact Ek|].
    assert (Eq : Qnat k = inject_Z (py_round product)).
    { unfold Qnat at 1. rewrite Ek. reflexivity. }
    rewrite Eq. apply py_round_close.
Qed.

Lemma make_dataset_split_witness :
  let snapshots := tabulate [10; 2] (fun idx => Qnat (ravel [10; 2] idx)) in
  let hparams :=
    {| base_hparams := example_hparams 3 2 false true;
       base_batch_size := 2;
       learning_rates := [1 # 1000];
       learning_stops := [10]%Z;
       frac_training := 45 # 100;
       eval_interval := 5;
       error_scale := None;
       error_floor := None |} in
  let product := Qmult (Qnat 10) (frac_training hparams) in
  exists training validation k,
    make_dataset_snapshots Qmult snapshots hparams true = Ok training
    /\ make_dataset_snapshots Qmult snapshots hparams false = Ok validation
    /\ k <= 10
    /\ shape training = [k; 2]
    /\ shape validation = [10 - k; 2]
    /\ (forall i j, i < k -> j < 2 -> get training [i; j] = get snapshots [i; j])
    /\ (forall i j, i < 10 - k -> j < 2 ->
          get validation [i; j] = get snapshots [k + i; j])
    /\ ((0 <= product)%Q -> (product <= Qnat 10)%Q ->
        Z.of_nat k = py_round product
        /\ (product - (1 # 2) <= Qnat k)%Q
        /\ (Qnat k <= product + (1 # 2))%Q).
Proof.
  intros snapshots hparams.
  apply (make_dataset_split Qmult snapshots hparams 10 2).
  reflexivity.
Defined.

(** A product that rounds to exactly 4.5 selects 4 training snapshots out
    of 10: ties go to the even integer. *)
Example make_dataset_tie_to_even :
  py_slice_index (py_round (45 # 10)) 10 = 4
  /\ py_slice_index (py_round (55 # 10)) 10 = 6.
Proof. split; reflexivity. Qed.

(* ================================================================== *)
(** * The logged metrics                                                *)
(* ================================================================== *)

#[local] Instance append_inj (prefix : string) : Inj (=) (=) (String.append prefix).
Proof.
  intros s1 s2 H. induction prefix as [|a prefix IH]; simpl in H; [exact H|].
  injection H as H. apply IH. exact H.
Qed.

(** X23. A row of [metrics_to_dataframe] loses nothing and mixes nothing:
    every test metric is found under 'test_' + name, every train metric
    under 'train_' + name, the step under 'step', and the row has no other
    entry. *)
Theorem metrics_to_dataframe_rows
    (logged_metrics : list (Z * gmap string Q * gmap string Q)) (i : nat)
    (step : Z) (test_metrics train_metrics : gmap string Q) :
  logged_metrics !! i = Some (step, test_metrics, train_metrics) ->
  length (metrics_to_dataframe logged_metrics) = length logged_metrics
  /\ exists row,
       metrics_to_dataframe logged_metrics !! i = Some row
       /\ (forall name, row !! String.append "test_" name = test_metrics !! name)
       /\ (forall name, row !! String.append "train_" name = train_metrics !! name)
       /\ row !! "step" = Some (inject_Z step)
       /\ forall key value, row !! key = Some value ->
            key = "step"
            \/ (exists name, key = String.append "test_" name
                             /\ test_metrics !! name = Some value)
            \/ (exists name, key = String.append "train_" name
                             /\ train_metrics !! name = Some value).
Proof.
  intros Hi. split; [apply length_map|].
  exists (metrics_row step test_metrics train_metrics). split.
  { unfold metrics_to_dataframe.
    change (map ?f logged_metrics) with (f <$> logged_metrics).
    rewrite list_lookup_fmap, Hi. reflexivity. }
  unfold metrics_row.
  split; [|split; [|split]].
  - intros name. rewrite lookup_insert_ne by discriminate.
    rewrite lookup_union_r.
    + apply (lookup_kmap (String.append "test_")).
    + apply lookup_kmap_None; [apply append_inj|].
      intros name' E. discriminate E.
  - intros name. rewrite lookup_insert_ne by discriminate.
    destruct (train_metrics !! name) as [v|] eqn:E.
    + apply lookup_union_Some_l. rewrite (lookup_kmap (String.append "train_")). exact E.
    + apply lookup_union_None. split.
      * rewrite (lookup_kmap (String.append "train_")). exact E.
      * apply lookup_kmap_None; [apply append_inj|].
        intros name' E'. discriminate E'.
  - apply lookup_insert_eq.
  - intros key value Hkey.
    destruct (decide (key = "step")) as [->|Hne]; [left; reflexivity|right].
    rewrite lookup_insert_ne in Hkey by congruence.
    apply lookup_union_Some_raw in Hkey as [Htrain|[_ Htest]].
    + right. apply lookup_kmap_Some in Htrain; [|apply append_inj].
      destruct Htrain as (name & -> & Hv). exists name. split; [reflexivity|exact Hv].
    + left. apply lookup_kmap_Some in Htest; [|apply append_inj].
      destruct Htest as (name & -> & Hv). exists name. split; [reflexivity|exact Hv].
Qed.

Lemma metrics_to_dataframe_rows_witness :
  let test_metrics : gmap string Q := {[ "loss" := 1 # 2 ]} in
  let train_metrics : gmap string Q := {[ "loss" := 1 # 4 ]} in
  let logged_metrics := [(249%Z, test_metrics, train_metrics)] in
  length (metrics_to_dataframe logged_metrics) = length logged_metrics
  /\ exists row,
       metrics_to_dataframe logged_metrics !! 0 = Some row
       /\ (forall name, row !! String.append "test_" name = test_metrics !! name)
       /\ (forall name, row !! String.append "train_" name = train_metrics !! name)
       /\ row !! "step" = Some (inject_Z 249)
       /\ forall key value, row !! key = Some value ->
            key = "step"
            \/ (exists name, key = String.append "test_" name
                             /\ test_metrics !! name = Some value)
            \/ (exists name, key = String.append "train_" name
                             /\ train_metrics !! name = Some value).
Proof.
  intros test_metrics train_metrics logged_metrics.
  apply (metrics_to_dataframe_rows logged_metrics 0 249%Z test_metrics train_metrics).
  reflexivity.
Defined.

(* ================================================================== *)
(** * The learning rate                                                 *)
(* ================================================================== *)

(** X24. [create_training_step] accepts exactly two shapes of schedule: a
    single learning rate, which is then used at every step whatever
    [learning_stops] holds, or several rates with as many stops.  Anything
    else is a [ValueError] when the graph is built. *)
Theorem create_training_step_learning_rate_checks (hparams : TrainingHParams) :
  let rates := learning_rates hparams in
  let stops := learning_stops hparams in
  (is_ok (create_training_step_learning_rate hparams)
   = (length rates =? 1) || ((1 <? length rates) && (length stops =? length rates)))
  /\ (is_ok (create_training_step_learning_rate hparams) = false ->
      create_training_step_learning_rate hparams = Raise ValueError)
  /\ (forall rate, rates = [rate] ->
        exists schedule,
          create_training_step_learning_rate hparams = Ok schedule
          /\ forall step, schedule step = Ok rate).
Proof.
  intros rates stops. unfold create_training_step_learning_rate.
  fold rates. fold stops.
  assert (Hpred : length (removelast stops) = length stops - 1).
  { destruct stops as [|s stops'] using rev_ind; [reflexivity|].
    rewrite removelast_last, length_app. simpl. lia. }
  destruct rates as [|r0 [|r1 rates']].
  - split; [reflexivity|]. split; [|discriminate].
    intros _. reflexivity.
  - split; [reflexivity|]. split; [discriminate|].
    intros rate E. injection E as <-. eexists. split; [reflexivity|reflexivity].
  - change (1 <? length (r0 :: r1 :: rates')) with true.
    change (length (r0 :: r1 :: rates') =? 1) with false.
    cbn [orb andb].
    unfold tf_piecewise_constant. rewrite Hpred.
    destruct (Nat.eqb_spec (length stops - 1) (length (r0 :: r1 :: rates') - 1)) as [E|E];
      destruct (Nat.eqb_spec (length stops) (length (r0 :: r1 :: rates'))) as [E'|E'];
      cbn [negb length] in *.
    + destruct (removelast stops) as [|first rest] eqn:Er.
      { exfalso. simpl in Hpred. lia. }
      split; [reflexivity|]. split; discriminate.
    + destruct stops as [|s0 stops']; [|simpl in E, E'; lia].
      simpl in E. lia.
    + lia.
    + split; [reflexivity|]. split; [|discriminate].
      intros _. reflexivity.
Qed.

Lemma filter_step {A} (f : A -> bool) a l :
  List.filter f (a :: l) = if f a then a :: List.filter f l else List.filter f l.
Proof. reflexivity. Qed.

Lemma nondecreasing_cons a b rest :
  nondecreasing (a :: b :: rest) = true <-> (a <= b)%Z /\ nondecreasing (b :: rest) = true.
Proof.
  cbn [nondecreasing]. rewrite andb_true_iff, Z.leb_le. reflexivity.
Qed.

Lemma nondecreasing_head_least x : forall l a,
  nondecreasing (a :: l) = true -> (x <= a)%Z ->
  List.filter (fun b => (b <? x)%Z) (a :: l) = [].
Proof.
  induction l as [|b l IH]; intros a Hs Hx.
  - cbn [List.filter]. destruct (Z.ltb_spec a x); [lia|reflexivity].
  - apply nondecreasing_cons in Hs as [Hab Hs].
    change (List.filter (fun b0 => (b0 <? x)%Z) (a :: b :: l))
      with (if (a <? x)%Z then a :: List.filter (fun b0 => (b0 <? x)%Z) (b :: l)
            else List.filter (fun b0 => (b0 <? x)%Z) (b :: l)).
    destruct (Z.ltb_spec a x); [lia|]. apply IH; [exact Hs|lia].
Qed.

Lemma nondecreasing_last_greatest x : forall l a,
  nondecreasing (a :: l) = true -> (List.last (a :: l) 0%Z < x)%Z ->
  List.filter (fun b => (b <? x)%Z) (a :: l) = a :: l.
Proof.
  induction l as [|b l IH]; intros a Hs Hx.
  - cbn [List.filter]. cbn [List.last] in Hx. destruct (Z.ltb_spec a x); [reflexivity|lia].
  - apply nondecreasing_cons in Hs as [Hab Hs].
    change (List.last (a :: b :: l) 0%Z) with (List.last (b :: l) 0%Z) in Hx.
    pose proof (IH b Hs Hx) as E.
    change (List.filter (fun b0 => (b0 <? x)%Z) (a :: b :: l))
      with (if (a <? x)%Z then a :: List.filter (fun b0 => (b0 <? x)%Z) (b :: l)
            else List.filter (fun b0 => (b0 <? x)%Z) (b :: l)).
    rewrite E.
    assert (Hb : (b < x)%Z).
    { assert (In b (List.filter (fun b0 => (b0 <? x)%Z) (b :: l)))
        by (rewrite E; left; reflexivity).
      apply filter_In in H as [_ H]. apply Z.ltb_lt in H. exact H. }
    destruct (Z.ltb_spec a x); [reflexivity|lia].
Qed.

Lemma nondecreasing_removelast : forall l,
  nondecreasing l = true -> nondecreasing (removelast l) = true.
Proof.
  induction l as [|a [|b l] IH]; intros Hs; try reflexivity.
  apply nondecreasing_cons in Hs as [Hab Hs].
  change (removelast (a :: b :: l)) with (a :: removelast (b :: l)).
  specialize (IH Hs).
  destruct l as [|c l]; [reflexivity|].
  change (removelast (b :: c :: l)) with (b :: removelast (c :: l)) in *.
  apply nondecreasing_cons. split; assumption.
Qed.

(** The conditions between two consecutive boundaries: under
    non-decreasing boundaries at most one of them holds, the one of the
    interval the step falls in. *)
Lemma piecewise_middle x : forall boundaries values a v,
  length values = length boundaries ->
  nondecreasing (a :: boundaries) = true ->
  List.filter fst
    (map (fun '(low, (high, v)) => ((low <? x)%Z && (x <=? high)%Z, v))
       (zip (removelast (a :: boundaries))
          (zip boundaries (removelast (v :: values)))))
  = if (x <=? a)%Z then []
    else if (List.last (a :: boundaries) 0%Z <? x)%Z then []
    else [(true,
           nth (length (List.filter (fun b => (b <? x)%Z) (a :: boundaries)) - 1)
             (v :: values) 0%Q)].
Proof.
  induction boundaries as [|b boundaries IH]; intros values a v Hlen Hs.
  - cbn [removelast zip zip_with map List.filter List.last].
    destruct (Z.leb_spec x a); [reflexivity|].
    destruct (Z.ltb_spec a x); [reflexivity|lia].
  - destruct values as [|v' values]; [discriminate Hlen|].
    apply nondecreasing_cons in Hs as [Hab Hs].
    specialize (IH values b v' ltac:(simpl in Hlen; lia) Hs).
    change (removelast (a :: b :: boundaries)) with (a :: removelast (b :: boundaries)).
    change (removelast (v :: v' :: values)) with (v :: removelast (v' :: values)).
    cbn [zip zip_with map]. cbn [zip] in IH.
    change (List.last (a :: b :: boundaries) 0%Z) with (List.last (b :: boundaries) 0%Z).
    rewrite (filter_step (fun b0 => (b0 <? x)%Z) a).
    rewrite (filter_step fst). cbn [fst]. rewrite IH. clear IH.
    destruct (Z.leb_spec x a) as [Hxa|Hxa].
    + destruct (Z.ltb_spec a x); [lia|]. cbn [andb].
      destruct (Z.leb_spec x b); [reflexivity|lia].
    + destruct (Z.ltb_spec a x); [|lia]. cbn [andb].
      destruct (Z.leb_spec x b) as [Hxb|Hxb].
      * rewrite (nondecreasing_head_least x boundaries b Hs Hxb).
        destruct (Z.ltb_spec (List.last (b :: boundaries) 0%Z) x) as [Hl|Hl].
        -- exfalso.
           pose proof (nondecreasing_last_greatest x boundaries b Hs Hl) as E.
           rewrite (nondecreasing_head_least x boundaries b Hs Hxb) in E. discriminate E.
        -- reflexivity.
      * destruct (Z.ltb_spec (List.last (b :: boundaries) 0%Z) x) as [Hl|Hl];
          [reflexivity|].
        assert (Hpos : exists k,
                  length (List.filter (fun b0 => (b0 <? x)%Z) (b :: boundaries)) = S k).
        { rewrite filter_step. destruct (Z.ltb_spec b x); [|lia]. eexists. reflexivity. }
        destruct Hpos as [k Hk]. cbn [length]. rewrite Hk.
        cbn [Nat.sub]. rewrite !Nat.sub_0_r. reflexivity.
Qed.

Lemma nth_last_index (l : list Q) : nth (length l - 1) l 0%Q = List.last l 0%Q.
Proof.
  induction l as [|a [|b l] IH]; try reflexivity.
  change (List.last (a :: b :: l) 0%Q) with (List.last (b :: l) 0%Q).
  rewrite <- IH. cbn [length Nat.sub]. rewrite !Nat.sub_0_r. reflexivity.
Qed.

(** X25. The learning-rate schedule.  With at least two learning rates, as
    many stops, and stops that never decrease, the rate in force at a step
    is the one whose index is the number of stops, the last one left out,
    that the step has passed: rate [i] serves the steps after stop [i - 1]
    up to and including stop [i], and the last stop bounds no rate. *)
Theorem create_training_step_learning_rate_schedule (hparams : TrainingHParams) :
  1 < length (learning_rates hparams) ->
  length (learning_stops hparams) = length (learning_rates hparams) ->
  nondecreasing (learning_stops hparams) = true ->
  exists schedule,
    create_training_step_learning_rate hparams = Ok schedule
    /\ forall step,
         schedule step
         = Ok (nth (rate_index (learning_stops hparams) step) (learning_rates hparams) 0%Q).
Proof.
  intros Hrates Hlen Hsorted.
  unfold create_training_step_learning_rate, rate_index.
  destruct (Nat.ltb_spec 1 (length (learning_rates hparams))); [|lia].
  pose proof (nondecreasing_removelast _ Hsorted) as Hs.
  assert (Hpred : length (removelast (learning_stops hparams))
                  = length (learning_rates hparams) - 1).
  { rewrite <- Hlen.
    destruct (learning_stops hparams) as [|s stops'] using rev_ind; [reflexivity|].
    rewrite removelast_last, length_app. simpl. lia. }
  destruct (removelast (learning_stops hparams)) as [|first boundaries] eqn:Eb;
    [simpl in Hpred; lia|].
  destruct (learning_rates hparams) as [|v0 [|v1 values]] eqn:Ev;
    [simpl in Hrates; lia|simpl in Hrates; lia|].
  unfold tf_piecewise_constant. rewrite Hpred, Nat.eqb_refl. cbn [negb].
  eexists. split; [reflexivity|]. intros step. cbv beta zeta.
  cbn [tl nth].
  rewrite !(filter_step fst). cbn [fst].
  rewrite (piecewise_middle step boundaries values first v1
             ltac:(simpl in Hpred; lia) Hs).
  change (List.last (v0 :: v1 :: values) 0%Q) with (List.last (v1 :: values) 0%Q).
  destruct (Z.leb_spec step first) as [Hx|Hx].
  - rewrite (nondecreasing_head_least step boundaries first Hs Hx).
    destruct (Z.ltb_spec (List.last (first :: boundaries) 0%Z) step) as [Hl|Hl];
      [|reflexivity].
    exfalso. pose proof (nondecreasing_last_greatest step boundaries first Hs Hl) as E.
    rewrite (nondecreasing_head_least step boundaries first Hs Hx) in E. discriminate E.
  - destruct (Z.ltb_spec (List.last (first :: boundaries) 0%Z) step) as [Hl|Hl].
    + rewrite (nondecreasing_last_greatest step boundaries first Hs Hl).
      f_equal. rewrite <- (nth_last_index (v1 :: values)).
      replace (length (first :: boundaries)) with (S (length (v1 :: values) - 1))
        by (simpl in *; lia).
      reflexivity.
    + assert (Hpos : exists k,
                length (List.filter (fun b => (b <? step)%Z) (first :: boundaries)) = S k).
      { rewrite filter_step. destruct (Z.ltb_spec first step); [|lia]. eexists. reflexivity. }
      destruct Hpos as [k Hk]. rewrite Hk. cbn [Nat.sub nth]. rewrite Nat.sub_0_r.
      reflexivity.
Qed.

Lemma create_training_step_learning_rate_schedule_witness :
  exists schedule,
    create_training_step_learning_rate example_training_hparams = Ok schedule
    /\ forall step,
         schedule step
         = Ok (nth (rate_index (learning_stops example_training_hparams) step)
                 (learning_rates example_training_hparams) 0%Q).
Proof.
  apply (create_training_step_learning_rate_schedule example_training_hparams);
    [simpl; lia|reflexivity|reflexivity].
Defined.

(* ================================================================== *)
(** * The training loop                                                 *)
(* ================================================================== *)

Lemma seq_from n m : seq n m = map (Nat.add n) (seq 0 m).
Proof.
  induction m as [|m IH]; [reflexivity|].
  rewrite !seq_S, map_app, IH. reflexivity.
Qed.

Lemma py_range_split a b c :
  (a <= b)%Z -> (b <= c)%Z -> py_range a c = py_range a b ++ py_range b c.
Proof.
  intros Hab Hbc. unfold py_range.
  replace (Z.to_nat (c - a)) with (Z.to_nat (b - a) + Z.to_nat (c - b)) by lia.
  rewrite seq_app, map_app. f_equal.
  rewrite Nat.add_0_l, seq_from, map_map.
  apply map_ext. intros i. lia.
Qed.

Lemma in_py_range a b s : In s (py_range a b) <-> (a <= s < b)%Z.
Proof.
  unfold py_range. rewrite in_map_iff. split.
  - intros (i & <- & Hi). apply in_seq in Hi. lia.
  - intros Hs. exists (Z.to_nat (s - a)). split; [lia|]. apply in_seq. lia.
Qed.

(** With a non-zero interval the loop runs to its end: every step trains,
    and the steps logged are those whose successor the interval divides. *)
Lemma training_steps_returns interval : forall steps,
  interval <> 0%Z ->
  exists events,
    training_steps steps interval
    = (events, Ok (List.filter (fun s => ((s + 1) mod interval =? 0)%Z) steps))
    /\ train_steps_of events = steps.
Proof.
  intros steps Hi. induction steps as [|s steps (events & IH & Ht)].
  - exists []. split; reflexivity.
  - cbn [training_steps List.filter]. unfold py_mod.
    destruct (Z.eqb_spec interval 0) as [|_]; [contradiction|].
    rewrite IH.
    destruct (((s + 1) mod interval =? 0)%Z).
    + eexists. split; [reflexivity|]. cbn [train_steps_of flat_map app].
      f_equal. exact Ht.
    + eexists. split; [reflexivity|]. cbn [train_steps_of flat_map app].
      f_equal. exact Ht.
Qed.

(** X26. The evaluation schedule of [training_loop].  With a non-zero
    [eval_interval], the loop trains at every step from the initial step up
    to the last learning stop, in order, and logs metrics exactly at the
    steps whose successor is a multiple of [eval_interval].  Resuming from
    a later step does not move the schedule: the steps logged from there
    are the steps logged from the start that are not before it. *)
Theorem training_loop_evaluation_schedule
    (hparams : TrainingHParams) (initial_step resumed_step stop : Z) :
  last (learning_stops hparams) = Some stop ->
  eval_interval hparams <> 0%Z ->
  (initial_step <= resumed_step)%Z -> (resumed_step <= stop)%Z ->
  exists events logged resumed_events resumed_logged,
    training_loop_steps initial_step hparams = (events, Ok logged)
    /\ training_loop_steps resumed_step hparams = (resumed_events, Ok resumed_logged)
    /\ train_steps_of events = py_range initial_step stop
    /\ (forall step, In step logged <->
          (initial_step <= step < stop)%Z /\ (eval_interval hparams | step + 1)%Z)
    /\ resumed_logged = List.filter (fun step => (resumed_step <=? step)%Z) logged.
Proof.
  intros Hstop Hi Hir Hrs. unfold training_loop_steps. rewrite Hstop.
  destruct (training_steps_returns (eval_interval hparams) (py_range initial_step stop) Hi)
    as (events & Hrun & Htrain).
  destruct (training_steps_returns (eval_interval hparams) (py_range resumed_step stop) Hi)
    as (events' & Hrun' & _).
  eexists. eexists. eexists. eexists.
  split; [exact Hrun|]. split; [exact Hrun'|]. split; [exact Htrain|]. split.
  - intros step. rewrite filter_In, in_py_range, Z.eqb_eq.
    rewrite (Z.mod_divide _ _ Hi). reflexivity.
  - rewrite (py_range_split initial_step resumed_step stop Hir Hrs).
    rewrite !List.filter_app.
    assert (Hbefore : forall l,
              (forall s, In s l -> (s < resumed_step)%Z) ->
              List.filter (fun step => (resumed_step <=? step)%Z) l = []).
    { induction l as [|a l IHl]; intros Hl; [reflexivity|].
      cbn [List.filter]. destruct (Z.leb_spec resumed_step a) as [H|_].
      - specialize (Hl a (or_introl eq_refl)). lia.
      - apply IHl. intros s Hs. apply Hl. right. exact Hs. }
    assert (Hafter : forall l,
              (forall s, In s l -> (resumed_step <= s)%Z) ->
              List.filter (fun step => (resumed_step <=? step)%Z) l = l).
    { induction l as [|a l IHl]; intros Hl; [reflexivity|].
      cbn [List.filter]. destruct (Z.leb_spec resumed_step a) as [_|H].
      - f_equal. apply IHl. intros s Hs. apply Hl. right. exact Hs.
      - specialize (Hl a (or_introl eq_refl)). lia. }
    rewrite Hbefore, Hafter; [reflexivity| |].
    + intros s Hs. apply filter_In in Hs as [Hs _]. apply in_py_range in Hs. lia.
    + intros s Hs. apply filter_In in Hs as [Hs _]. apply in_py_range in Hs. lia.
Qed.

(** X27. With [eval_interval] zero and at least one step to run, the loop
    of [training_loop] raises a [ZeroDivisionError] at its first evaluation
    test, after exactly one training step. *)
Theorem training_loop_zero_interval
    (hparams : TrainingHParams) (initial_step stop : Z) :
  last (learning_stops hparams) = Some stop -> eval_interval hparams = 0%Z ->
  (initial_step < stop)%Z ->
  training_loop_steps initial_step hparams
  = ([RunTrainStep initial_step], Raise ZeroDivisionError).
Proof.
  intros Hstop Hi Hlt. unfold training_loop_steps. rewrite Hstop, Hi.
  unfold py_range.
  destruct (Z.to_nat (stop - initial_step)) as [|n] eqn:En; [lia|].
  cbn [seq map training_steps]. rewrite Z.add_0_r. reflexivity.
Qed.

Lemma training_loop_evaluation_schedule_witness :
  exists events logged resumed_events resumed_logged,
    training_loop_steps 0 example_training_hparams = (events, Ok logged)
    /\ training_loop_steps 12 example_training_hparams
       = (resumed_events, Ok resumed_logged)
    /\ train_steps_of events = py_range 0 40
    /\ (forall step, In step logged <->
          (0 <= step < 40)%Z /\ (eval_interval example_training_hparams | step + 1)%Z)
    /\ resumed_logged = List.filter (fun step => (12 <=? step)%Z) logged.
Proof.
  apply (training_loop_evaluation_schedule example_training_hparams 0 12 40);
    [reflexivity|discriminate|lia|lia].
Defined.

Lemma training_loop_zero_interval_witness :
  let hparams :=
    {| base_hparams := example_hparams 3 2 false true;
       base_batch_size := 2;
       learning_rates := [1 # 1000];
       learning_stops := [10]%Z;
       frac_training := 8 # 10;
       eval_interval := 0;
       error_scale := None;
       error_floor := None |} in
  training_loop_steps 3 hparams = ([RunTrainStep 3], Raise ZeroDivisionError).
Proof.
  intros hparams.
  apply (training_loop_zero_interval hparams 3 10); [reflexivity|reflexivity|lia].
Defined.
